(** * Hybrid search over the FM Global vector store

    A shallow embedding of the SQL search functions
    ([match_fm_global_vectors], [hybrid_search_fm_global],
    [search_fm_global_all], [get_fm_global_references_by_topic],
    [text_search_chunks]) and of the TypeScript agent's methods
    ([searchMultiVector] and its three vector searches,
    [fuseAndRankResults], [calculateCost], [optimizeForCost],
    [generateFormQuestions]), with the properties the specification states
    about them and further properties of the code.

    SQL tables are lists of records, nullable columns are [option], the
    scores that SQL computes are rationals ([Q]), and a query whose row
    order SQL leaves open (a scan, an [ORDER BY] with equal keys, an
    index that reaches part of the rows) is a relation between the stored
    rows and the outcomes of the call: rows, or an error raised.  Next to
    each relation stands an executable function that scans the tables in
    list order and sorts stably; it is one of the behaviours the relation
    admits.  The numbers of the TypeScript cost methods are IEEE 754
    doubles, Rocq's primitive floats. *)

From Stdlib Require Import List ZArith QArith String Ascii Bool.
From Stdlib Require Import Permutation Sorted Lia Lqa DecimalString.
From Stdlib Require Floats.
Import ListNotations.
Import PrimFloat.PrimFloatNotations.

Local Open Scope Z_scope.

(** ** PostgreSQL values and built-ins used by the search functions *)

Module Pg.

(** [uuid] values compare by their 128-bit value. *)
Definition uuid : Type := N.

(** A pgvector [vector]: its components. *)
Definition vector : Type := list Q.

#[warnings="-register-all"]
Inductive jsonb : Type :=
| JNull
| JText (s : string)
| JNumber (z : Z)
| JTextArray (items : list string)
| JObject (fields : list (string * jsonb)).

(** Errors these functions raise: on their [LIMIT] clauses, on [int]
    arithmetic, on [RETURN QUERY] when the query's columns are not of the
    declared types (SQLSTATE 42804), and on [<=>] between vectors of
    different dimensions. *)
Inductive sql_error : Type :=
| LimitMustNotBeNegative
| IntegerOutOfRange
| DatatypeMismatch
| DifferentVectorDimensions.

(** What a set-returning function call yields: rows, or a raised error. *)
Inductive outcome (A : Type) : Type :=
| Rows (rows : list A)
| Raised (e : sql_error).

Arguments Rows {A} rows.
Arguments Raised {A} e.

Definition int4_min : Z := -2147483648.
Definition int4_max : Z := 2147483647.

(** [a * b] on [int]: raises when the product leaves the 32-bit range. *)
Definition int4_mul (a b : Z) : sql_error + Z :=
  if (int4_min <=? a * b) && (a * b <=? int4_max) then inr (a * b)
  else inl IntegerOutOfRange.

(** The types of the columns these functions declare and compute. *)
Inductive sql_type : Type :=
| TUuid | TText | TInt4 | TFloat4 | TFloat8 | TJsonb.

Definition sql_type_eqb (a b : sql_type) : bool :=
  match a, b with
  | TUuid, TUuid | TText, TText | TInt4, TInt4 | TFloat4, TFloat4
  | TFloat8, TFloat8 | TJsonb, TJsonb => true
  | _, _ => false
  end.

(** The type of [a + b], [a - b], [a * b] and of [COALESCE(a, b)] on
    numbers: the wider of the two, [int] below [real] below
    [double precision]. *)
Definition wider (a b : sql_type) : sql_type :=
  match a, b with
  | TFloat8, _ | _, TFloat8 => TFloat8
  | TFloat4, _ | _, TFloat4 => TFloat4
  | _, _ => a
  end.

Fixpoint columns_match (declared returned : list sql_type) : bool :=
  match declared, returned with
  | [], [] => true
  | d :: declared', r :: returned' => sql_type_eqb d r && columns_match declared' returned'
  | _, _ => false
  end.

(** [RETURN QUERY query] in a function declared [RETURNS TABLE (...)]:
    PL/pgSQL converts no column, so a query whose column types are not the
    declared ones raises before it computes a row. *)
Definition return_query {A : Type} (declared returned : list sql_type)
  (query : outcome A -> Prop) (o : outcome A) : Prop :=
  if columns_match declared returned then query o else o = Raised DatatypeMismatch.

(** [a <=> b] is defined for vectors of one dimension. *)
Definition same_dimension (query_embedding : vector) (embedding : option vector) : bool :=
  match embedding with
  | Some e => (List.length e =? List.length query_embedding)%nat
  | None => true
  end.

(** The row count of [LIMIT n]. *)
Definition limit_count (n : Z) : sql_error + N :=
  if n <? 0 then inl LimitMustNotBeNegative else inr (Z.to_N n).

(** [LIMIT n] applied to rows in their order. *)
Fixpoint limit_rows {A : Type} (n : N) (rows : list A) : list A :=
  match rows with
  | [] => []
  | r :: rest => if (n =? 0)%N then [] else r :: limit_rows (N.pred n) rest
  end.

(** [COALESCE(a, b)] with a nullable fallback, and with a literal one. *)
Definition coalesce {A : Type} (a b : option A) : option A :=
  match a with
  | Some _ => a
  | None => b
  end.

Definition coalesce_lit {A : Type} (a : option A) (d : A) : A :=
  match a with
  | Some x => x
  | None => d
  end.

(** [a = b] in a [WHERE] or [ON] clause where [a] is nullable: a NULL
    comparison is not true. *)
Definition null_eqb {A : Type} (eqb : A -> A -> bool) (a : option A) (b : A) : bool :=
  match a with
  | Some x => eqb x b
  | None => false
  end.

(** A column of a possibly absent (NULL-extended) row. *)
Definition bind_opt {A B : Type} (o : option A) (f : A -> option B) : option B :=
  match o with
  | Some a => f a
  | None => None
  end.

(** [n::text] for an integer. *)
Definition int_to_text (n : Z) : string :=
  NilZero.string_of_int (Z.to_int n).

(** [x LEFT JOIN y ON on]: every left row once per matching right row, or
    once with the right side NULL when nothing matches. *)
Definition left_join {L R : Type} (on : L -> R -> bool)
  (ls : list L) (rs : list R) : list (L * option R) :=
  flat_map (fun l =>
    match filter (on l) rs with
    | [] => [(l, None)]
    | ms => map (fun r => (l, Some r)) ms
    end) ls.

(** A row of [x FULL OUTER JOIN y]. *)
Inductive joined (L R : Type) : Type :=
| Both (l : L) (r : R)
| LeftOnly (l : L)
| RightOnly (r : R).

Arguments Both {L R} l r.
Arguments LeftOnly {L R} l.
Arguments RightOnly {L R} r.

Definition full_outer_join {L R : Type} (on : L -> R -> bool)
  (ls : list L) (rs : list R) : list (joined L R) :=
  flat_map (fun l =>
    match filter (on l) rs with
    | [] => [LeftOnly l]
    | ms => map (fun r => Both l r) ms
    end) ls
  ++ map RightOnly (filter (fun r => negb (existsb (fun l => on l r) ls)) rs).

Definition left_side {L R : Type} (j : joined L R) : option L :=
  match j with
  | Both l _ | LeftOnly l => Some l
  | RightOnly _ => None
  end.

Definition right_side {L R : Type} (j : joined L R) : option R :=
  match j with
  | Both _ r | RightOnly r => Some r
  | LeftOnly _ => None
  end.

(** The join column of a joined row: [COALESCE(x.key, y.key)]. *)
Definition joined_key {L R K : Type} (kl : L -> K) (kr : R -> K) (j : joined L R) : K :=
  match j with
  | Both l _ | LeftOnly l => kl l
  | RightOnly r => kr r
  end.

(** *** ORDER BY

    [order_by le input out]: [out] is an arrangement of [input] in which
    every row is [le] every later row.  Rows with equal keys may come in
    either order. *)
Section Ordering.
Context {A : Type}.

Definition order_by (le : A -> A -> Prop) (input out : list A) : Prop :=
  Permutation input out /\ StronglySorted le out.

Variable leb : A -> A -> bool.

Fixpoint insert_row (x : A) (l : list A) : list A :=
  match l with
  | [] => [x]
  | y :: l' => if leb x y then x :: l else y :: insert_row x l'
  end.

(** A stable sort: one arrangement [order_by] admits. *)
Definition sort_rows (l : list A) : list A := fold_right insert_row [] l.

End Ordering.

(** Ascending order on a nullable key, NULLs last (the default of
    [ORDER BY ... ASC]). *)
Definition asc_nulls_last (a b : option Q) : Prop :=
  match a, b with
  | Some x, Some y => (x <= y)%Q
  | _, None => True
  | None, Some _ => False
  end.

Definition asc_nulls_lastb (a b : option Q) : bool :=
  match a, b with
  | Some x, Some y => Qle_bool x y
  | _, None => true
  | None, Some _ => false
  end.

(** Whether two sort keys are the same, NULLs counting as the same. *)
Definition same_key (a b : option Q) : bool :=
  match a, b with
  | Some x, Some y => Qeq_bool x y
  | None, None => true
  | _, _ => false
  end.

(** No two rows of a list have the same sort key. *)
Fixpoint no_ties {K : Type} (same : K -> K -> bool) (keys : list K) : bool :=
  match keys with
  | [] => true
  | k :: rest => forallb (fun k' => negb (same k k')) rest && no_ties same rest
  end.

End Pg.

(** ** Text search: [to_tsvector], [plainto_tsquery], [@@]

    A [tsvector] is the document's lexemes, a [plainto_tsquery] result the
    query's lexemes, all of which a matching document must contain.  The
    text-search parser, the dictionary of the ['english'] configuration
    (stemming, stop words), the ranking functions and pgvector's cosine
    distance are parameters.  Of the parser one fact is used: a text of
    white space only has no word.  [tokenize] is a parser for texts of
    plain words, for concrete runs: it splits the text into maximal runs
    of letters and digits, in lower case, and finds none of the other
    token kinds of PostgreSQL's parser (hyphenated compounds, numbers with
    signs, addresses). *)

Module TextSearch.

Definition tsvector : Type := list string.
Definition tsquery : Type := list string.

Definition is_space (c : ascii) : bool :=
  let n := N_of_ascii c in
  ((n =? 32) || ((9 <=? n) && (n <=? 13)))%N.

Definition is_word_char (c : ascii) : bool :=
  let n := N_of_ascii c in
  (((48 <=? n) && (n <=? 57)) || ((65 <=? n) && (n <=? 90))
   || ((97 <=? n) && (n <=? 122)) || (128 <=? n))%N.

Definition to_lower (c : ascii) : ascii :=
  let n := N_of_ascii c in
  if ((65 <=? n) && (n <=? 90))%N then ascii_of_N (n + 32) else c.

(** The token collected so far (characters in reverse), if any. *)
Definition flush (acc : list ascii) : list string :=
  match acc with
  | [] => []
  | _ => [string_of_list_ascii (rev acc)]
  end.

Fixpoint tokenize_from (acc : list ascii) (s : string) : list string :=
  match s with
  | EmptyString => flush acc
  | String c s' =>
      if is_word_char c then tokenize_from (to_lower c :: acc) s'
      else flush acc ++ tokenize_from [] s'
  end.

Definition tokenize (s : string) : list string := tokenize_from [] s.

(** Empty, or white space only: nothing is left after trimming. *)
Fixpoint is_blank (s : string) : bool :=
  match s with
  | EmptyString => true
  | String c s' => is_space c && is_blank s'
  end.

(** The operators and functions the database supplies. *)
Class Operators : Type := {
  (** [a <=> b] of pgvector, on vectors of one dimension *)
  cosine_distance : Pg.vector -> Pg.vector -> Q;
  (** the text-search parser: the words of a text *)
  parse : string -> list string;
  parse_blank : forall text, is_blank text = true -> parse text = [];
  (** the ['english'] dictionary: a token's lexeme, [None] for a stop word *)
  dictionary : string -> option string;
  ts_rank : tsvector -> tsquery -> Q;
  ts_rank_cd : tsvector -> tsquery -> Q
}.

Definition lexemes `{Operators} (text : string) : list string :=
  flat_map (fun tok => match dictionary tok with Some lx => [lx] | None => [] end)
    (parse text).

Definition to_tsvector `{Operators} (document : string) : tsvector := lexemes document.

Definition plainto_tsquery `{Operators} (querytext : string) : tsquery := lexemes querytext.

Definition has_lexeme (doc : tsvector) (lx : string) : bool :=
  existsb (String.eqb lx) doc.

(** [doc @@ query]: an empty query matches nothing; otherwise every
    lexeme of the query occurs in the document. *)
Definition ts_match (doc : tsvector) (query : tsquery) : bool :=
  match query with
  | [] => false
  | _ => forallb (has_lexeme doc) query
  end.

(** How many lexemes of the query occur in the document. *)
Definition matching_tokens (doc : tsvector) (query : tsquery) : nat :=
  List.length (filter (has_lexeme doc) query).

(** A cosine distance lies between 0 (same direction) and 2 (opposite
    direction); [distance_in_range] checks it for one stored embedding. *)
Definition distance_in_range `{Operators} (query_embedding : Pg.vector)
  (embedding : option Pg.vector) : bool :=
  match embedding with
  | Some e =>
      Qle_bool 0 (cosine_distance e query_embedding)
      && Qle_bool (cosine_distance e query_embedding) 2
  | None => true
  end.

End TextSearch.

(** ** [sql/fix_fm_functions.sql] *)

Module FixFm.
Import Pg TextSearch.

Record fm_global_vectors_row : Type := {
  v_id : uuid;
  v_content_id : option uuid;
  v_content_type : string;
  v_content : string;
  v_embedding : option vector;
  v_metadata : option jsonb
}.

Record fm_global_tables_row : Type := {
  t_id : uuid;
  t_table_id : option string;
  t_asrs_type : option string;
  t_title : option string
}.

Record fm_global_figures_row : Type := {
  f_id : uuid;
  f_figure_number : option Z;
  f_asrs_type : option string;
  f_title : option string
}.

Record database : Type := {
  fm_global_vectors : list fm_global_vectors_row;
  fm_global_tables : list fm_global_tables_row;
  fm_global_figures : list fm_global_figures_row
}.

(** A row of
    [fm_global_vectors v LEFT JOIN fm_global_tables t ... LEFT JOIN fm_global_figures f ...]. *)
Definition source_row : Type :=
  (fm_global_vectors_row * option fm_global_tables_row) * option fm_global_figures_row.

Definition src_v (j : source_row) : fm_global_vectors_row := fst (fst j).
Definition src_t (j : source_row) : option fm_global_tables_row := snd (fst j).
Definition src_f (j : source_row) : option fm_global_figures_row := snd j.

(** [ON v.content_id = t.id AND v.content_type = 'table'] *)
Definition on_table (v : fm_global_vectors_row) (t : fm_global_tables_row) : bool :=
  null_eqb N.eqb (v_content_id v) (t_id t) && String.eqb (v_content_type v) "table".

(** [ON v.content_id = f.id AND v.content_type = 'figure'] *)
Definition on_figure (vt : fm_global_vectors_row * option fm_global_tables_row)
  (f : fm_global_figures_row) : bool :=
  null_eqb N.eqb (v_content_id (fst vt)) (f_id f)
  && String.eqb (v_content_type (fst vt)) "figure".

Definition from_clause (db : database) : list source_row :=
  left_join on_figure
    (left_join on_table (fm_global_vectors db) (fm_global_tables db))
    (fm_global_figures db).


(** The three [CASE WHEN v.content_type = ...] columns. *)
Definition asrs_type_val (j : source_row) : option string :=
  if String.eqb (v_content_type (src_v j)) "table" then bind_opt (src_t j) t_asrs_type
  else if String.eqb (v_content_type (src_v j)) "figure" then bind_opt (src_f j) f_asrs_type
  else None.

Definition reference_number (j : source_row) : option string :=
  if String.eqb (v_content_type (src_v j)) "table" then bind_opt (src_t j) t_table_id
  else if String.eqb (v_content_type (src_v j)) "figure" then
    option_map (fun n => ("Figure " ++ int_to_text n)%string)
      (bind_opt (src_f j) f_figure_number)
  else None.

Definition reference_title (j : source_row) : option string :=
  if String.eqb (v_content_type (src_v j)) "table" then bind_opt (src_t j) t_title
  else if String.eqb (v_content_type (src_v j)) "figure" then bind_opt (src_f j) f_title
  else None.

(** [filter_asrs_type IS NULL OR (v.content_type = 'table' AND t.asrs_type = filter_asrs_type)
     OR (v.content_type = 'figure' AND f.asrs_type = filter_asrs_type)] *)
Definition asrs_filter (filter_asrs_type : option string) (j : source_row) : bool :=
  match filter_asrs_type with
  | None => true
  | Some a =>
      (String.eqb (v_content_type (src_v j)) "table"
       && null_eqb String.eqb (bind_opt (src_t j) t_asrs_type) a)
      || (String.eqb (v_content_type (src_v j)) "figure"
          && null_eqb String.eqb (bind_opt (src_f j) f_asrs_type) a)
  end.

(** *** [match_fm_global_vectors] *)

Record vector_search_row : Type := {
  vs_vector_id : uuid;
  vs_source_id : option uuid;
  vs_source_type : string;
  vs_content : string;
  vs_similarity : option Q;
  vs_metadata : option jsonb;
  vs_asrs_topic : option string;
  vs_reference_number : option string;
  vs_reference_title : option string
}.

Record match_row : Type := {
  m_vector_id : uuid;
  m_source_id : option uuid;
  m_source_type : string;
  m_content : string;
  m_similarity : option Q;
  m_asrs_topic : option string;
  m_regulation_section : option string;
  m_design_parameter : option string;
  m_metadata : option jsonb;
  m_table_number : option string;
  m_figure_number : option string;
  m_reference_title : option string
}.

Section Match.
Context `{Operators}.
Variable db : database.
Variable query_embedding : vector.
Variable filter_asrs_type : option string.
Variable filter_source_type : option string.

Definition match_distance (j : source_row) : option Q :=
  option_map (fun e => cosine_distance e query_embedding) (v_embedding (src_v j)).

Definition match_where (j : source_row) : bool :=
  match filter_source_type with
  | None => true
  | Some s => String.eqb (v_content_type (src_v j)) s
  end
  && asrs_filter filter_asrs_type j.

Definition select_vector_search (j : source_row) : vector_search_row :=
  {| vs_vector_id := v_id (src_v j);
     vs_source_id := v_content_id (src_v j);
     vs_source_type := v_content_type (src_v j);
     vs_content := v_content (src_v j);
     vs_similarity := option_map (fun d => 1 - d)%Q (match_distance j);
     vs_metadata := v_metadata (src_v j);
     vs_asrs_topic := asrs_type_val j;
     vs_reference_number := reference_number j;
     vs_reference_title := reference_title j |}.

Definition select_match (vs : vector_search_row) : match_row :=
  {| m_vector_id := vs_vector_id vs;
     m_source_id := vs_source_id vs;
     m_source_type := vs_source_type vs;
     m_content := vs_content vs;
     m_similarity := vs_similarity vs;
     m_asrs_topic := vs_asrs_topic vs;
     m_regulation_section := None;
     m_design_parameter := None;
     m_metadata := vs_metadata vs;
     m_table_number :=
       if String.eqb (vs_source_type vs) "table" then vs_reference_number vs else None;
     m_figure_number :=
       if String.eqb (vs_source_type vs) "figure" then vs_reference_number vs else None;
     m_reference_title := vs_reference_title vs |}.

(** The rows of [vector_search]; the outer [SELECT] has no [ORDER BY] of
    its own and returns them in some order. *)
Inductive match_fm_global_vectors (match_count : Z) : outcome match_row -> Prop :=
| match_rows (n : N) sorted out :
    limit_count match_count = inr n ->
    order_by (fun a b => asc_nulls_last (match_distance a) (match_distance b))
      (filter match_where (from_clause db)) sorted ->
    Permutation (map select_match (limit_rows n (map select_vector_search sorted))) out ->
    match_fm_global_vectors match_count (Rows out)
| match_raised e :
    limit_count match_count = inl e ->
    match_fm_global_vectors match_count (Raised e).

Definition match_fm_global_vectors_exec (match_count : Z) : outcome match_row :=
  match limit_count match_count with
  | inl e => Raised e
  | inr n =>
      Rows (map select_match (limit_rows n (map select_vector_search
        (sort_rows (fun a b => asc_nulls_lastb (match_distance a) (match_distance b))
           (filter match_where (from_clause db))))))
  end.

End Match.

(** *** [hybrid_search_fm_global] *)

Record vector_results_row : Type := {
  vr_id : uuid;
  vr_content_id : option uuid;
  vr_content_type : string;
  vr_content : string;
  vr_vector_score : option Q;
  vr_metadata : option jsonb;
  vr_asrs_type_val : option string;
  vr_reference_number : option string;
  vr_reference_title : option string
}.

Record text_results_row : Type := {
  tr_id : uuid;
  tr_content_id : option uuid;
  tr_content_type : string;
  tr_content : string;
  tr_text_score : Q;
  tr_metadata : option jsonb;
  tr_asrs_type_val : option string;
  tr_reference_number : option string;
  tr_reference_title : option string
}.

Record combined_row : Type := {
  c_vector_id : uuid;
  c_source_id : option uuid;
  c_source_type : string;
  c_content : string;
  c_score : Q;
  c_vector_similarity : Q;
  c_text_similarity : Q;
  c_metadata : option jsonb;
  c_asrs_topic : option string;
  c_reference_number : option string;
  c_reference_title : option string;
  c_content_type_final : string
}.

Record hybrid_row : Type := {
  vector_id : uuid;
  source_id : option uuid;
  source_type : string;
  content : string;
  combined_score : Q;
  vector_similarity : Q;
  text_similarity : Q;
  asrs_topic : option string;
  regulation_section : option string;
  design_parameter : option string;
  metadata : option jsonb;
  table_number : option string;
  figure_number : option string;
  reference_title_out : option string
}.

Section Hybrid.
Context `{Operators}.
Variable db : database.
Variable query_embedding : vector.
Variable query_text : string.
Variable text_weight : Q.
Variable filter_asrs_type : option string.

(** [v.embedding <=> query_embedding], NULL for a NULL embedding. *)
Definition distance (j : source_row) : option Q :=
  option_map (fun e => cosine_distance e query_embedding) (v_embedding (src_v j)).

Definition select_vector_result (j : source_row) : vector_results_row :=
  {| vr_id := v_id (src_v j);
     vr_content_id := v_content_id (src_v j);
     vr_content_type := v_content_type (src_v j);
     vr_content := v_content (src_v j);
     vr_vector_score := option_map (fun d => 1 - d)%Q (distance j);
     vr_metadata := v_metadata (src_v j);
     vr_asrs_type_val := asrs_type_val j;
     vr_reference_number := reference_number j;
     vr_reference_title := reference_title j |}.

(** [to_tsvector('english', v.content) @@ plainto_tsquery('english', query_text)] *)
Definition text_matches (j : source_row) : bool :=
  ts_match (to_tsvector (v_content (src_v j))) (plainto_tsquery query_text).

Definition select_text_result (j : source_row) : text_results_row :=
  {| tr_id := v_id (src_v j);
     tr_content_id := v_content_id (src_v j);
     tr_content_type := v_content_type (src_v j);
     tr_content := v_content (src_v j);
     tr_text_score :=
       ts_rank (to_tsvector (v_content (src_v j))) (plainto_tsquery query_text);
     tr_metadata := v_metadata (src_v j);
     tr_asrs_type_val := asrs_type_val j;
     tr_reference_number := reference_number j;
     tr_reference_title := reference_title j |}.

Definition by_distance (a b : source_row) : Prop :=
  asc_nulls_last (distance a) (distance b).

Definition by_distanceb (a b : source_row) : bool :=
  asc_nulls_lastb (distance a) (distance b).

(** The [vector_results] rows: the first [n] of the filtered rows in some
    arrangement that ascends by distance. *)
Definition vector_results (n : N) (rows : list vector_results_row) : Prop :=
  exists sorted,
    order_by by_distance (filter (asrs_filter filter_asrs_type) (from_clause db)) sorted
    /\ rows = limit_rows n (map select_vector_result sorted).

(** The [text_results] rows: its [LIMIT] follows no [ORDER BY], so they are
    the first [n] of the matching rows in whatever order the scan gives. *)
Definition text_results (n : N) (rows : list text_results_row) : Prop :=
  exists scanned,
    Permutation
      (filter (fun j => text_matches j && asrs_filter filter_asrs_type j) (from_clause db))
      scanned
    /\ rows = limit_rows n (map select_text_result scanned).

(** One row of [combined], from a row of
    [vector_results v FULL OUTER JOIN text_results t ON v.id = t.id]. *)
Definition select_combined (j : joined vector_results_row text_results_row) : combined_row :=
  let v := left_side j in
  let t := right_side j in
  let pick {A : Type} (fv : vector_results_row -> A) (ft : text_results_row -> A) : A :=
    match j with
    | Both l _ | LeftOnly l => fv l
    | RightOnly r => ft r
    end in
  {| c_vector_id := pick vr_id tr_id;
     c_source_id := coalesce (bind_opt v vr_content_id) (bind_opt t tr_content_id);
     c_source_type := pick vr_content_type tr_content_type;
     c_content := pick vr_content tr_content;
     c_score :=
       (coalesce_lit (bind_opt v vr_vector_score) 0 * (1 - text_weight)
        + coalesce_lit (option_map tr_text_score t) 0 * text_weight)%Q;
     c_vector_similarity := coalesce_lit (bind_opt v vr_vector_score) 0%Q;
     c_text_similarity := coalesce_lit (option_map tr_text_score t) 0%Q;
     c_metadata := coalesce (bind_opt v vr_metadata) (bind_opt t tr_metadata);
     c_asrs_topic := coalesce (bind_opt v vr_asrs_type_val) (bind_opt t tr_asrs_type_val);
     c_reference_number :=
       coalesce (bind_opt v vr_reference_number) (bind_opt t tr_reference_number);
     c_reference_title :=
       coalesce (bind_opt v vr_reference_title) (bind_opt t tr_reference_title);
     c_content_type_final := pick vr_content_type tr_content_type |}.

Definition on_id (v : vector_results_row) (t : text_results_row) : bool :=
  N.eqb (vr_id v) (tr_id t).

Definition combined (vrs : list vector_results_row) (trs : list text_results_row)
  : list combined_row :=
  map select_combined (full_outer_join on_id vrs trs).

Definition select_hybrid (c : combined_row) : hybrid_row :=
  {| vector_id := c_vector_id c;
     source_id := c_source_id c;
     source_type := c_source_type c;
     content := c_content c;
     combined_score := c_score c;
     vector_similarity := c_vector_similarity c;
     text_similarity := c_text_similarity c;
     asrs_topic := c_asrs_topic c;
     regulation_section := None;
     design_parameter := None;
     metadata := c_metadata c;
     table_number :=
       if String.eqb (c_content_type_final c) "table" then c_reference_number c else None;
     figure_number :=
       if String.eqb (c_content_type_final c) "figure" then c_reference_number c else None;
     reference_title_out := c_reference_title c |}.

(** [ORDER BY c.score DESC] *)
Definition by_score_desc (a b : combined_row) : Prop := (c_score b <= c_score a)%Q.

Definition by_score_descb (a b : combined_row) : bool := Qle_bool (c_score b) (c_score a).

End Hybrid.

(** The row counts of [LIMIT match_count * 2] (both sub-searches) and of
    [LIMIT match_count] (the result), or the error raised for them.  The
    product is computed when the statement is planned, before any [LIMIT]
    is looked at. *)
Definition limits (match_count : Z) : sql_error + (N * N) :=
  match int4_mul match_count 2 with
  | inl e => inl e
  | inr doubled =>
      match limit_count match_count with
      | inl e => inl e
      | inr n =>
          match limit_count doubled with
          | inl e => inl e
          | inr n2 => inr (n2, n)
          end
      end
  end.

(** Whether [<=>] is defined on every row that [vector_results] orders. *)
Definition dimensions_agree (db : database) (query_embedding : vector)
  (filter_asrs_type : option string) : bool :=
  forallb (fun j => same_dimension query_embedding (v_embedding (src_v j)))
    (filter (asrs_filter filter_asrs_type) (from_clause db)).

(** The query of [hybrid_search_fm_global], run as a statement: the
    outcomes it may have.  The distances are computed once a row is asked
    for, which [LIMIT 0] never does. *)
Inductive hybrid_query `{Operators} (db : database)
  (query_embedding : vector) (query_text : string) (match_count : Z)
  (text_weight : Q) (filter_asrs_type : option string)
  : outcome hybrid_row -> Prop :=
| query_rows (n2 n : N) vrs trs ranked :
    limits match_count = inr (n2, n) ->
    n = 0%N \/ dimensions_agree db query_embedding filter_asrs_type = true ->
    vector_results db query_embedding filter_asrs_type n2 vrs ->
    text_results db query_text filter_asrs_type n2 trs ->
    order_by by_score_desc (combined text_weight vrs trs) ranked ->
    hybrid_query db query_embedding query_text match_count
      text_weight filter_asrs_type (Rows (limit_rows n (map select_hybrid ranked)))
| query_dimensions (n2 n : N) :
    limits match_count = inr (n2, n) ->
    n <> 0%N ->
    dimensions_agree db query_embedding filter_asrs_type = false ->
    hybrid_query db query_embedding query_text match_count
      text_weight filter_asrs_type (Raised DifferentVectorDimensions)
| query_raised e :
    limits match_count = inl e ->
    hybrid_query db query_embedding query_text match_count
      text_weight filter_asrs_type (Raised e).

(** The same statement, run: tables scanned in list order, stable sorts. *)
Definition vector_results_exec `{Operators} (db : database) (query_embedding : vector)
  (filter_asrs_type : option string) (n : N) : list vector_results_row :=
  limit_rows n (map (select_vector_result query_embedding)
    (sort_rows (by_distanceb query_embedding)
       (filter (asrs_filter filter_asrs_type) (from_clause db)))).

Definition text_results_exec `{Operators} (db : database) (query_text : string)
  (filter_asrs_type : option string) (n : N) : list text_results_row :=
  limit_rows n (map (select_text_result query_text)
    (filter (fun j => text_matches query_text j && asrs_filter filter_asrs_type j)
       (from_clause db))).

Definition hybrid_query_exec `{Operators} (db : database)
  (query_embedding : vector) (query_text : string) (match_count : Z)
  (text_weight : Q) (filter_asrs_type : option string) : outcome hybrid_row :=
  match limits match_count with
  | inl e => Raised e
  | inr (n2, n) =>
      if negb (n =? 0)%N && negb (dimensions_agree db query_embedding filter_asrs_type)
      then Raised DifferentVectorDimensions
      else
        Rows (limit_rows n (map select_hybrid
          (sort_rows by_score_descb
             (combined text_weight
                (vector_results_exec db query_embedding filter_asrs_type n2)
                (text_results_exec db query_text filter_asrs_type n2)))))
  end.

(** A statement in which no [ORDER BY] meets equal keys and the [LIMIT] of
    [text_results], which follows no [ORDER BY], cuts nothing off. *)
Definition tie_free `{Operators} (db : database) (query_embedding : vector)
  (query_text : string) (match_count : Z) (text_weight : Q)
  (filter_asrs_type : option string) : bool :=
  match limits match_count with
  | inl _ => true
  | inr (n2, n) =>
      no_ties same_key
        (map (distance query_embedding)
           (filter (asrs_filter filter_asrs_type) (from_clause db)))
      && (N.of_nat (List.length
            (filter (fun j => text_matches query_text j && asrs_filter filter_asrs_type j)
               (from_clause db))) <=? n2)%N
      && no_ties Qeq_bool
           (map c_score
              (combined text_weight
                 (vector_results_exec db query_embedding filter_asrs_type n2)
                 (text_results_exec db query_text filter_asrs_type n2)))
  end.

(** *** The function and its declared result

    [RETURNS TABLE (vector_id uuid, source_id uuid, source_type text,
    content text, combined_score float, vector_similarity float,
    text_similarity float, asrs_topic text, regulation_section text,
    design_parameter text, metadata jsonb, table_number text,
    figure_number text, reference_title text)]; [float] is
    [double precision]. *)
Definition declared_result : list sql_type :=
  [TUuid; TUuid; TText; TText; TFloat8; TFloat8; TFloat8; TText; TText; TText;
   TJsonb; TText; TText; TText].

(** [1 - (v.embedding <=> query_embedding)]: [<=>] gives [double precision]. *)
Definition vector_score_type : sql_type := wider TInt4 TFloat8.

(** [ts_rank(...)] gives [real]. *)
Definition text_score_type : sql_type := TFloat4.

(** The parameter [text_weight float]. *)
Definition text_weight_type : sql_type := TFloat8.

(** [COALESCE(v.vector_score, 0) * (1 - text_weight)
     + COALESCE(t.text_score, 0) * text_weight] *)
Definition score_type : sql_type :=
  wider (wider (wider vector_score_type TInt4) (wider TInt4 text_weight_type))
        (wider (wider text_score_type TInt4) text_weight_type).

(** The column types of the final [SELECT], the stored columns being of
    the types the declaration names: [c.vector_similarity] is
    [COALESCE(v.vector_score, 0)] and [c.text_similarity] is
    [COALESCE(t.text_score, 0)], with no cast. *)
Definition query_result : list sql_type :=
  [TUuid; TUuid; TText; TText; score_type; wider vector_score_type TInt4;
   wider text_score_type TInt4; TText; TText; TText; TJsonb; TText; TText; TText].

(** [hybrid_search_fm_global(query_embedding, query_text, match_count,
    text_weight, filter_asrs_type)]: the outcomes a call may have.  The
    query is planned with the arguments in place, which computes
    [match_count * 2]; [RETURN QUERY] then checks its columns. *)
Definition hybrid_search_fm_global `{Operators} (db : database)
  (query_embedding : vector) (query_text : string) (match_count : Z)
  (text_weight : Q) (filter_asrs_type : option string)
  (o : outcome hybrid_row) : Prop :=
  match int4_mul match_count 2 with
  | inl e => o = Raised e
  | inr _ =>
      return_query declared_result query_result
        (hybrid_query db query_embedding query_text match_count text_weight
           filter_asrs_type) o
  end.

Definition hybrid_search_fm_global_exec `{Operators} (db : database)
  (query_embedding : vector) (query_text : string) (match_count : Z)
  (text_weight : Q) (filter_asrs_type : option string) : outcome hybrid_row :=
  match int4_mul match_count 2 with
  | inl e => Raised e
  | inr _ =>
      if columns_match declared_result query_result
      then hybrid_query_exec db query_embedding query_text match_count text_weight
             filter_asrs_type
      else Raised DatatypeMismatch
  end.

End FixFm.

(** ** The expert-system schema: [match_fm_global_vectors] and
    [hybrid_search_fm_global] as first defined, next to the tables

    Columns follow the [CREATE TABLE] statements; the time stamps, which no
    function reads, are left out. *)

Module ExpertSchema.
Import Pg TextSearch.

Record fm_global_tables_row : Type := {
  t_id : uuid;
  t_table_number : string;
  t_title : string;
  t_content : string;
  t_section : option string;
  t_page_reference : option string;
  t_table_type : option string;
  t_metadata : option jsonb
}.

Record fm_global_figures_row : Type := {
  f_id : uuid;
  f_figure_number : string;
  f_title : string;
  f_description : string;
  f_section : option string;
  f_page_reference : option string;
  f_figure_type : option string;
  f_asrs_component : option string;
  f_design_context : option string;
  f_metadata : option jsonb
}.

Record fm_global_vectors_row : Type := {
  v_id : uuid;
  v_source_id : option uuid;
  v_source_type : string;
  v_content : string;
  v_embedding : option vector;
  v_chunk_index : Z;
  v_asrs_topic : option string;
  v_regulation_section : option string;
  v_design_parameter : option string;
  v_metadata : option jsonb;
  v_token_count : option Z
}.

Record database : Type := {
  fm_global_tables : list fm_global_tables_row;
  fm_global_figures : list fm_global_figures_row;
  fm_global_vectors : list fm_global_vectors_row
}.

Definition source_row : Type :=
  (fm_global_vectors_row * option fm_global_tables_row) * option fm_global_figures_row.

Definition src_v (j : source_row) : fm_global_vectors_row := fst (fst j).
Definition src_t (j : source_row) : option fm_global_tables_row := snd (fst j).
Definition src_f (j : source_row) : option fm_global_figures_row := snd j.

(** [ON v.source_id = t.id AND v.source_type = 'table'] *)
Definition on_table (v : fm_global_vectors_row) (t : fm_global_tables_row) : bool :=
  null_eqb N.eqb (v_source_id v) (t_id t) && String.eqb (v_source_type v) "table".

(** [ON v.source_id = f.id AND v.source_type = 'figure'] *)
Definition on_figure (vt : fm_global_vectors_row * option fm_global_tables_row)
  (f : fm_global_figures_row) : bool :=
  null_eqb N.eqb (v_source_id (fst vt)) (f_id f)
  && String.eqb (v_source_type (fst vt)) "figure".

Definition from_clause (db : database) : list source_row :=
  left_join on_figure
    (left_join on_table (fm_global_vectors db) (fm_global_tables db))
    (fm_global_figures db).

(** [CASE WHEN v.source_type = 'table' THEN t.table_number ELSE NULL END] *)
Definition table_number_of (j : source_row) : option string :=
  if String.eqb (v_source_type (src_v j)) "table" then option_map t_table_number (src_t j)
  else None.

Definition figure_number_of (j : source_row) : option string :=
  if String.eqb (v_source_type (src_v j)) "figure" then option_map f_figure_number (src_f j)
  else None.

(** [COALESCE(t.title, f.title, 'N/A')] *)
Definition reference_title_of (j : source_row) : string :=
  coalesce_lit (coalesce (option_map t_title (src_t j)) (option_map f_title (src_f j)))
    "N/A"%string.

(** [v.embedding IS NOT NULL] *)
Definition has_embedding (j : source_row) : bool :=
  match v_embedding (src_v j) with
  | Some _ => true
  | None => false
  end.

(** [filter IS NULL OR column = filter] *)
Definition optional_filter (filter : option string) (column : option string) : bool :=
  match filter with
  | None => true
  | Some x => null_eqb String.eqb column x
  end.

Record match_row : Type := {
  m_vector_id : uuid;
  m_source_id : option uuid;
  m_source_type : string;
  m_content : string;
  m_similarity : option Q;
  m_asrs_topic : option string;
  m_regulation_section : option string;
  m_design_parameter : option string;
  m_metadata : option jsonb;
  m_table_number : option string;
  m_figure_number : option string;
  m_reference_title : string
}.

Record vector_results_row : Type := {
  vr_id : uuid;
  vr_source_id : option uuid;
  vr_source_type : string;
  vr_content : string;
  vr_vector_sim : option Q;
  vr_asrs_topic : option string;
  vr_regulation_section : option string;
  vr_design_parameter : option string;
  vr_metadata : option jsonb;
  vr_table_num : option string;
  vr_figure_num : option string;
  vr_ref_title : string
}.

Record text_results_row : Type := {
  tr_id : uuid;
  tr_source_id : option uuid;
  tr_source_type : string;
  tr_content : string;
  tr_text_sim : Q;
  tr_asrs_topic : option string;
  tr_regulation_section : option string;
  tr_design_parameter : option string;
  tr_metadata : option jsonb;
  tr_table_num : option string;
  tr_figure_num : option string;
  tr_ref_title : string
}.

Record hybrid_row : Type := {
  vector_id : uuid;
  source_id : option uuid;
  source_type : string;
  content : string;
  combined_score : Q;
  vector_similarity : Q;
  text_similarity : Q;
  asrs_topic : option string;
  regulation_section : option string;
  design_parameter : option string;
  metadata : option jsonb;
  table_number : option string;
  figure_number : option string;
  reference_title : string
}.


Section Search.
Context `{Operators}.
Variable db : database.
Variable query_embedding : vector.

Definition distance (j : source_row) : option Q :=
  option_map (fun e => cosine_distance e query_embedding) (v_embedding (src_v j)).

Definition similarity (j : source_row) : option Q :=
  option_map (fun d => 1 - d)%Q (distance j).

Definition by_distance (a b : source_row) : Prop :=
  asc_nulls_last (distance a) (distance b).

Definition by_distanceb (a b : source_row) : bool :=
  asc_nulls_lastb (distance a) (distance b).

(** Whether [<=>] is defined on the given rows. *)
Definition dimensions_agree (rows : list source_row) : bool :=
  forallb (fun j => same_dimension query_embedding (v_embedding (src_v j))) rows.

(** *** [match_fm_global_vectors] *)

Definition match_where (asrs_topic_filter source_type_filter : option string)
  (j : source_row) : bool :=
  has_embedding j
  && optional_filter asrs_topic_filter (v_asrs_topic (src_v j))
  && optional_filter source_type_filter (Some (v_source_type (src_v j))).

Definition select_match (j : source_row) : match_row :=
  {| m_vector_id := v_id (src_v j);
     m_source_id := v_source_id (src_v j);
     m_source_type := v_source_type (src_v j);
     m_content := v_content (src_v j);
     m_similarity := similarity j;
     m_asrs_topic := v_asrs_topic (src_v j);
     m_regulation_section := v_regulation_section (src_v j);
     m_design_parameter := v_design_parameter (src_v j);
     m_metadata := v_metadata (src_v j);
     m_table_number := table_number_of j;
     m_figure_number := figure_number_of j;
     m_reference_title := reference_title_of j |}.

(** [fm_global_vectors.embedding] has an [ivfflat] index ([lists = 100]),
    which [ORDER BY v.embedding <=> query_embedding LIMIT match_count] can
    use.  A plan that scans the table orders all the filtered rows; a plan
    that scans the index orders the rows of the lists it probes only:
    [scanned] are the filtered rows the plan reaches, [skipped] the ones it
    does not.  The distances are computed once a row is asked for, which
    [LIMIT 0] never does. *)
Inductive match_fm_global_vectors (match_count : Z)
  (asrs_topic_filter source_type_filter : option string)
  : outcome match_row -> Prop :=
| match_rows (n : N) scanned skipped sorted :
    limit_count match_count = inr n ->
    Permutation
      (filter (match_where asrs_topic_filter source_type_filter) (from_clause db))
      (scanned ++ skipped) ->
    n = 0%N \/ dimensions_agree scanned = true ->
    order_by by_distance scanned sorted ->
    match_fm_global_vectors match_count asrs_topic_filter source_type_filter
      (Rows (limit_rows n (map select_match sorted)))
| match_dimensions (n : N) :
    limit_count match_count = inr n ->
    n <> 0%N ->
    forallb (fun v => same_dimension query_embedding (v_embedding v))
      (fm_global_vectors db) = false ->
    match_fm_global_vectors match_count asrs_topic_filter source_type_filter
      (Raised DifferentVectorDimensions)
| match_raised e :
    limit_count match_count = inl e ->
    match_fm_global_vectors match_count asrs_topic_filter source_type_filter (Raised e).

(** The call run with a plan that scans the table in list order and sorts
    stably. *)
Definition match_fm_global_vectors_exec (match_count : Z)
  (asrs_topic_filter source_type_filter : option string) : outcome match_row :=
  match limit_count match_count with
  | inl e => Raised e
  | inr n =>
      let candidates :=
        filter (match_where asrs_topic_filter source_type_filter) (from_clause db) in
      if negb (n =? 0)%N && negb (dimensions_agree candidates)
      then Raised DifferentVectorDimensions
      else Rows (limit_rows n (map select_match (sort_rows by_distanceb candidates)))
  end.

(** *** [hybrid_search_fm_global] *)

Variable query_text : string.
Variable text_weight : Q.
Variable asrs_topic_filter : option string.

Definition select_vector_result (j : source_row) : vector_results_row :=
  {| vr_id := v_id (src_v j);
     vr_source_id := v_source_id (src_v j);
     vr_source_type := v_source_type (src_v j);
     vr_content := v_content (src_v j);
     vr_vector_sim := similarity j;
     vr_asrs_topic := v_asrs_topic (src_v j);
     vr_regulation_section := v_regulation_section (src_v j);
     vr_design_parameter := v_design_parameter (src_v j);
     vr_metadata := v_metadata (src_v j);
     vr_table_num := table_number_of j;
     vr_figure_num := figure_number_of j;
     vr_ref_title := reference_title_of j |}.

Definition text_matches (j : source_row) : bool :=
  ts_match (to_tsvector (v_content (src_v j))) (plainto_tsquery query_text).

Definition select_text_result (j : source_row) : text_results_row :=
  {| tr_id := v_id (src_v j);
     tr_source_id := v_source_id (src_v j);
     tr_source_type := v_source_type (src_v j);
     tr_content := v_content (src_v j);
     tr_text_sim :=
       ts_rank_cd (to_tsvector (v_content (src_v j))) (plainto_tsquery query_text);
     tr_asrs_topic := v_asrs_topic (src_v j);
     tr_regulation_section := v_regulation_section (src_v j);
     tr_design_parameter := v_design_parameter (src_v j);
     tr_metadata := v_metadata (src_v j);
     tr_table_num := table_number_of j;
     tr_figure_num := figure_number_of j;
     tr_ref_title := reference_title_of j |}.

(** Neither sub-query has an [ORDER BY] or a [LIMIT]: each is its set of
    rows, and the final [ORDER BY] arranges whatever order they come in. *)
Definition vector_candidates : list source_row :=
  filter (fun j => has_embedding j
                   && optional_filter asrs_topic_filter (v_asrs_topic (src_v j)))
    (from_clause db).

Definition vector_results : list vector_results_row :=
  map select_vector_result vector_candidates.

Definition text_results : list text_results_row :=
  map select_text_result
    (filter (fun j => text_matches j
                      && optional_filter asrs_topic_filter (v_asrs_topic (src_v j)))
       (from_clause db)).

Definition select_hybrid (j : joined vector_results_row text_results_row) : hybrid_row :=
  let v := left_side j in
  let t := right_side j in
  let pick {A : Type} (fv : vector_results_row -> A) (ft : text_results_row -> A) : A :=
    match j with
    | Both l _ | LeftOnly l => fv l
    | RightOnly r => ft r
    end in
  {| vector_id := pick vr_id tr_id;
     source_id := coalesce (bind_opt v vr_source_id) (bind_opt t tr_source_id);
     source_type := pick vr_source_type tr_source_type;
     content := pick vr_content tr_content;
     combined_score :=
       (coalesce_lit (bind_opt v vr_vector_sim) 0 * (1 - text_weight)
        + coalesce_lit (option_map tr_text_sim t) 0 * text_weight)%Q;
     vector_similarity := coalesce_lit (bind_opt v vr_vector_sim) 0%Q;
     text_similarity := coalesce_lit (option_map tr_text_sim t) 0%Q;
     asrs_topic := coalesce (bind_opt v vr_asrs_topic) (bind_opt t tr_asrs_topic);
     regulation_section :=
       coalesce (bind_opt v vr_regulation_section) (bind_opt t tr_regulation_section);
     design_parameter :=
       coalesce (bind_opt v vr_design_parameter) (bind_opt t tr_design_parameter);
     metadata := coalesce (bind_opt v vr_metadata) (bind_opt t tr_metadata);
     table_number := coalesce (bind_opt v vr_table_num) (bind_opt t tr_table_num);
     figure_number := coalesce (bind_opt v vr_figure_num) (bind_opt t tr_figure_num);
     reference_title := pick vr_ref_title tr_ref_title |}.

Definition on_id (v : vector_results_row) (t : text_results_row) : bool :=
  N.eqb (vr_id v) (tr_id t).

Definition joined_results : list hybrid_row :=
  map select_hybrid (full_outer_join on_id vector_results text_results).

(** [ORDER BY combined_score DESC] *)
Definition by_score_desc (a b : hybrid_row) : Prop :=
  (combined_score b <= combined_score a)%Q.

Definition by_score_descb (a b : hybrid_row) : bool :=
  Qle_bool (combined_score b) (combined_score a).

(** The columns of the query are cast to the declared types
    ([::float8]), so [RETURN QUERY] accepts them.  The final [ORDER BY]
    asks for every joined row, the distances with them, unless the [LIMIT]
    is 0. *)
Inductive hybrid_search_fm_global (match_count : Z) : outcome hybrid_row -> Prop :=
| hybrid_rows (n : N) ranked :
    limit_count match_count = inr n ->
    n = 0%N \/ dimensions_agree vector_candidates = true ->
    order_by by_score_desc joined_results ranked ->
    hybrid_search_fm_global match_count (Rows (limit_rows n ranked))
| hybrid_dimensions (n : N) :
    limit_count match_count = inr n ->
    n <> 0%N ->
    dimensions_agree vector_candidates = false ->
    hybrid_search_fm_global match_count (Raised DifferentVectorDimensions)
| hybrid_raised e :
    limit_count match_count = inl e ->
    hybrid_search_fm_global match_count (Raised e).

Definition hybrid_search_fm_global_exec (match_count : Z) : outcome hybrid_row :=
  match limit_count match_count with
  | inl e => Raised e
  | inr n =>
      if negb (n =? 0)%N && negb (dimensions_agree vector_candidates)
      then Raised DifferentVectorDimensions
      else Rows (limit_rows n (sort_rows by_score_descb joined_results))
  end.

(** A call in which no two joined rows have the same combined score. *)
Definition tie_free : bool := no_ties Qeq_bool (map combined_score joined_results).

End Search.

(** The result [hybrid_search_fm_global] declares, and the column types of
    its query: the three scores are cast, [(...)::float8]. *)
Definition declared_result : list sql_type :=
  [TUuid; TUuid; TText; TText; TFloat8; TFloat8; TFloat8; TText; TText; TText;
   TJsonb; TText; TText; TText].

Definition query_result : list sql_type :=
  [TUuid; TUuid; TText; TText; TFloat8; TFloat8; TFloat8; TText; TText; TText;
   TJsonb; TText; TText; TText].

End ExpertSchema.

(** ** [search_fm_global_all]: one vector search over all three tables

    The columns are those the function reads.  [source_id] is [id::text];
    the text of a [uuid] determines it, so the column holds the [uuid]. *)

Module Unified.
Import Pg TextSearch.

Record fm_text_chunks_row : Type := {
  c_id : uuid;
  c_content_type : option string;
  c_raw_text : option string;
  c_embedding : option vector;
  c_chunk_summary : option string;
  c_doc_id : option string;
  c_page_number : option Z;
  c_section_path : option (list string);
  c_related_tables : option (list string);
  c_related_figures : option (list string);
  c_topics : option (list string)
}.

Record fm_table_vectors_row : Type := {
  tv_id : uuid;
  tv_content_type : option string;
  tv_content_text : option string;
  tv_embedding : option vector;
  tv_table_id : option string;
  tv_metadata : option jsonb
}.

Record fm_global_vectors_row : Type := {
  v_id : uuid;
  v_content_type : option string;
  v_content : option string;
  v_embedding : option vector;
  v_metadata : option jsonb
}.

Record database : Type := {
  fm_text_chunks : list fm_text_chunks_row;
  fm_table_vectors : list fm_table_vectors_row;
  fm_global_vectors : list fm_global_vectors_row
}.

Record result_row : Type := {
  source_id : uuid;
  source_type : option string;
  source_table : string;
  content : option string;
  similarity : option Q;
  title : string;
  metadata : option jsonb
}.

(** What identifies a returned record: its table and its [id]. *)
Definition record_identity (r : result_row) : string * uuid :=
  (source_table r, source_id r).

(** [CONCAT(prefix, x)]: a NULL argument counts as the empty string. *)
Definition concat_null (prefix : string) (x : option string) : string :=
  (prefix ++ coalesce_lit x EmptyString)%string.

(** An argument of [jsonb_build_object]: NULL becomes JSON null. *)
Definition to_jsonb {A : Type} (inj : A -> jsonb) (x : option A) : jsonb :=
  match x with
  | Some a => inj a
  | None => JNull
  end.

Definition is_not_null {A : Type} (x : option A) : bool :=
  match x with
  | Some _ => true
  | None => false
  end.

Section Search.
Context `{Operators}.
Variable db : database.
Variable query_embedding : vector.

(** [1 - (embedding <=> query_embedding)] *)
Definition similarity_to (embedding : option vector) : option Q :=
  option_map (fun e => 1 - cosine_distance e query_embedding)%Q embedding.

Definition select_chunk (c : fm_text_chunks_row) : result_row :=
  {| source_id := c_id c;
     source_type := c_content_type c;
     source_table := "fm_text_chunks";
     content := c_raw_text c;
     similarity := similarity_to (c_embedding c);
     title := coalesce_lit (c_chunk_summary c) (concat_null "Chunk from " (c_doc_id c));
     metadata := Some (JObject
       [("doc_id"%string, to_jsonb JText (c_doc_id c));
        ("page_number"%string, to_jsonb JNumber (c_page_number c));
        ("section_path"%string, to_jsonb JTextArray (c_section_path c));
        ("related_tables"%string, to_jsonb JTextArray (c_related_tables c));
        ("related_figures"%string, to_jsonb JTextArray (c_related_figures c));
        ("topics"%string, to_jsonb JTextArray (c_topics c))]) |}.

Definition select_table_vector (tv : fm_table_vectors_row) : result_row :=
  {| source_id := tv_id tv;
     source_type := tv_content_type tv;
     source_table := "fm_table_vectors";
     content := tv_content_text tv;
     similarity := similarity_to (tv_embedding tv);
     title := concat_null "Table " (tv_table_id tv);
     metadata := tv_metadata tv |}.

Definition select_vector (v : fm_global_vectors_row) : result_row :=
  {| source_id := v_id v;
     source_type := v_content_type v;
     source_table := "fm_global_vectors";
     content := v_content v;
     similarity := similarity_to (v_embedding v);
     title := "FM Global Vector";
     metadata := v_metadata v |}.

Definition chunk_results : list result_row :=
  map select_chunk (filter (fun c => is_not_null (c_embedding c)) (fm_text_chunks db)).

Definition table_results : list result_row :=
  map select_table_vector
    (filter (fun tv => is_not_null (tv_embedding tv)) (fm_table_vectors db)).

Definition vector_results : list result_row :=
  map select_vector (filter (fun v => is_not_null (v_embedding v)) (fm_global_vectors db)).

(** The three sets under [UNION ALL]. *)
Definition all_results : list result_row :=
  chunk_results ++ table_results ++ vector_results.

(** [ORDER BY similarity DESC]: NULLs first. *)
Definition by_similarity_desc (a b : result_row) : Prop :=
  asc_nulls_last (similarity b) (similarity a).

Definition by_similarity_descb (a b : result_row) : bool :=
  asc_nulls_lastb (similarity b) (similarity a).

(** Whether [<=>] is defined on every stored embedding. *)
Definition dimensions_agree : bool :=
  forallb (same_dimension query_embedding)
    (map c_embedding (fm_text_chunks db)
     ++ map tv_embedding (fm_table_vectors db)
     ++ map v_embedding (fm_global_vectors db)).

(** [query_text] is a parameter of the function that its body never reads.
    The [ORDER BY] asks for every row of the three sets, the distances
    with them, unless the [LIMIT] is 0. *)
Inductive search_fm_global_all (query_text : string) (match_count : Z)
  : outcome result_row -> Prop :=
| search_rows (n : N) ranked :
    limit_count match_count = inr n ->
    n = 0%N \/ dimensions_agree = true ->
    order_by by_similarity_desc all_results ranked ->
    search_fm_global_all query_text match_count (Rows (limit_rows n ranked))
| search_dimensions (n : N) :
    limit_count match_count = inr n ->
    n <> 0%N ->
    dimensions_agree = false ->
    search_fm_global_all query_text match_count (Raised DifferentVectorDimensions)
| search_raised e :
    limit_count match_count = inl e ->
    search_fm_global_all query_text match_count (Raised e).

Definition search_fm_global_all_exec (query_text : string) (match_count : Z)
  : outcome result_row :=
  match limit_count match_count with
  | inl e => Raised e
  | inr n =>
      if negb (n =? 0)%N && negb dimensions_agree
      then Raised DifferentVectorDimensions
      else Rows (limit_rows n (sort_rows by_similarity_descb all_results))
  end.

End Search.

End Unified.

(** ** The agent: [FMGlobal834Agent.searchMultiVector]

    What lies outside the class is a parameter: the embedding service, the
    Supabase client, the shape of a result row, and the helper methods that
    build results and the final answer. *)

Module Agent.

Inductive asrs_type_t : Type := Shuttle | MiniLoad | HorizontalCarousel.
Inductive container_type_t : Type := ClosedTop | OpenTop | Mixed.
Inductive system_type_t : Type := Wet | Dry | BothSystems.

Record ASRSConfiguration : Type := {
  asrs_type : asrs_type_t;
  container_type : container_type_t;
  rack_depth_ft : Q;
  rack_spacing_ft : Q;
  ceiling_height_ft : Q;
  aisle_width_ft : Q;
  commodity_type : list string;
  storage_height_ft : Q;
  system_type : system_type_t
}.

Definition asrs_type_text (a : asrs_type_t) : string :=
  match a with
  | Shuttle => "Shuttle"
  | MiniLoad => "Mini-Load"
  | HorizontalCarousel => "Horizontal Carousel"
  end.

Definition container_type_text (c : container_type_t) : string :=
  match c with
  | ClosedTop => "Closed-Top"
  | OpenTop => "Open-Top"
  | Mixed => "Mixed"
  end.

(** A thrown value. *)
Inductive exn : Type :=
| PostgrestError (message : string)
| TypeError (message : string)
| SyntaxError (message : string)
| ServiceError (message : string).

(** A settled promise. *)
Inductive promise (A : Type) : Type :=
| Resolved (value : A)
| Rejected (reason : exn).

Arguments Resolved {A} value.
Arguments Rejected {A} reason.

Definition then_ {A B : Type} (p : promise A) (k : A -> promise B) : promise B :=
  match p with
  | Resolved a => k a
  | Rejected e => Rejected e
  end.

Notation "'await' x <- p ;; k" := (then_ p (fun x => k))
  (at level 61, x name, p at next level, right associativity).

(** [rows.map(f)] where [f] may throw: the first throw ends the call. *)
Fixpoint map_rows {A B : Type} (f : A -> promise B) (rows : list A) : promise (list B) :=
  match rows with
  | [] => Resolved []
  | r :: rest =>
      await x <- f r ;;
      await xs <- map_rows f rest ;;
      Resolved (x :: xs)
  end.

(** [Promise.all] of three promises: fulfilled when all are, rejected with
    the reason of whichever rejected promise settles first. *)
Inductive promise_all {A B C : Type} (pa : promise A) (pb : promise B) (pc : promise C)
  : promise (A * B * C) -> Prop :=
| all_fulfilled a b c :
    pa = Resolved a -> pb = Resolved b -> pc = Resolved c ->
    promise_all pa pb pc (Resolved (a, b, c))
| first_rejected e : pa = Rejected e -> promise_all pa pb pc (Rejected e)
| second_rejected e : pb = Rejected e -> promise_all pa pb pc (Rejected e)
| third_rejected e : pc = Rejected e -> promise_all pa pb pc (Rejected e).

(** A filter added to a query. *)
Inductive query_filter : Type :=
| FilterEq (column value : string)
| FilterGte (column : string) (value : Q)
| FilterIn (column : string) (values : list string).

(** [.from(table).select(...).order('similarity', { ascending: true }).limit(n)]
    with the filters added; [q_embedding] is the vector in the select's
    distance expression, absent for a plain [select('*')]. *)
Record query : Type := {
  q_table : string;
  q_embedding : option (list Q);
  q_limit : option nat;
  q_filters : list query_filter
}.

(** A number in a condition: zero is falsy. *)
Definition truthy (x : Q) : bool := negb (Qeq_bool x 0).

Definition figure_filters (config : option ASRSConfiguration) : list query_filter :=
  match config with
  | None => []
  | Some c =>
      [FilterEq "asrs_type" (asrs_type_text (asrs_type c));
       FilterEq "container_type" (container_type_text (container_type c))]
      ++ (if truthy (rack_depth_ft c) then [FilterGte "max_depth_ft" (rack_depth_ft c)] else [])
      ++ (if truthy (rack_spacing_ft c)
          then [FilterGte "max_spacing_ft" (rack_spacing_ft c)] else [])
  end.

(** The three vector queries. *)
Definition figure_query (embedding : list Q) (config : option ASRSConfiguration) : query :=
  {| q_table := "fm_global_figures"; q_embedding := Some embedding;
     q_limit := Some 5%nat; q_filters := figure_filters config |}.

Definition table_vector_query (embedding : list Q) : query :=
  {| q_table := "fm_table_vectors"; q_embedding := Some embedding;
     q_limit := Some 10%nat; q_filters := [] |}.

Definition text_chunk_query (embedding : list Q) : query :=
  {| q_table := "fm_text_chunks"; q_embedding := Some embedding;
     q_limit := Some 5%nat; q_filters := [] |}.

Section WithServices.
Variable Row : Type.
Variables FigureResult TableResult RegulationResult SearchResult : Type.

(** The [{ data, error }] an awaited query gives. *)
Record response : Type := {
  data : option (list Row);
  error : option exn
}.

Variable embeddings_create : string -> promise (list Q).
Variable supabase : query -> response.
Variable table_id : Row -> string.

(** The callbacks of the three [data.map] calls; the first two call
    [JSON.parse] and helper methods, and may throw. *)
Variable figure_result : option ASRSConfiguration -> Row -> promise FigureResult.
Variable table_result :
  option ASRSConfiguration -> option (list Row) -> Row -> promise TableResult.
Variable regulation_result : Row -> RegulationResult.

(** Steps 3 and 4 and the returned object: [fuseAndRankResults],
    [generateContextualResponse], [calculateConfidence], [estimateCostImpact]. *)
Variable respond :
  list FigureResult -> list TableResult -> list RegulationResult ->
  string -> option ASRSConfiguration -> promise SearchResult.

(** [data.map(f)]: a [null] data throws a [TypeError]. *)
Definition map_data {B : Type} (f : Row -> promise B) (d : option (list Row))
  : promise (list B) :=
  match d with
  | Some rows => map_rows f rows
  | None => Rejected (TypeError "Cannot read properties of null")
  end.

Definition searchFigureVectors (embedding : list Q) (config : option ASRSConfiguration)
  : promise (list FigureResult) :=
  let r := supabase (figure_query embedding config) in
  match error r with
  | Some e => Rejected e
  | None => map_data (figure_result config) (data r)
  end.

Definition searchTableVectors (embedding : list Q) (config : option ASRSConfiguration)
  : promise (list TableResult) :=
  let r := supabase (table_vector_query embedding) in
  match error r with
  | Some e => Rejected e
  | None =>
      await tableIds <- map_data (fun row => Resolved (table_id row)) (data r) ;;
      let tableData :=
        data (supabase {| q_table := "fm_global_tables"; q_embedding := None;
                          q_limit := None;
                          q_filters := [FilterIn "table_id" tableIds] |}) in
      map_data (table_result config tableData) (data r)
  end.

Definition searchTextVectors (embedding : list Q) : promise (list RegulationResult) :=
  let r := supabase (text_chunk_query embedding) in
  match error r with
  | Some e => Rejected e
  | None => map_data (fun row => Resolved (regulation_result row)) (data r)
  end.

(** The ways a call of [searchMultiVector] can settle. *)
Inductive searchMultiVector (user_query : string) (config : option ASRSConfiguration)
  : promise SearchResult -> Prop :=
| embedding_rejected e :
    embeddings_create user_query = Rejected e ->
    searchMultiVector user_query config (Rejected e)
| search_rejected embedding e :
    embeddings_create user_query = Resolved embedding ->
    promise_all (searchFigureVectors embedding config)
      (searchTableVectors embedding config) (searchTextVectors embedding) (Rejected e) ->
    searchMultiVector user_query config (Rejected e)
| searches_fulfilled embedding figureResults tableResults textResults :
    embeddings_create user_query = Resolved embedding ->
    promise_all (searchFigureVectors embedding config)
      (searchTableVectors embedding config) (searchTextVectors embedding)
      (Resolved (figureResults, tableResults, textResults)) ->
    searchMultiVector user_query config
      (respond figureResults tableResults textResults user_query config).

End WithServices.

Arguments data {Row} r.
Arguments error {Row} r.

End Agent.

(** ** The specification's own formulas

    Written from the specification's words, to be compared with what the
    functions compute. *)

Module Spec.

(** The maximum relevance observed in a candidate set; 0 for the empty set. *)
Definition max_relevance (candidates : list Q) : Q :=
  fold_right (fun x m => if Qle_bool m x then x else m) 0%Q candidates.

(** Lexical relevance divided by that maximum, or left as 0 when there is
    nothing to divide by. *)
Definition normalized_relevance (candidates : list Q) (relevance : Q) : Q :=
  if Qeq_bool (max_relevance candidates) 0 then 0%Q
  else (relevance / max_relevance candidates)%Q.

Definition combined_score (w : Q) (candidates : list Q)
  (vector_similarity lexical_relevance : Q) : Q :=
  (vector_similarity * (1 - w) + normalized_relevance candidates lexical_relevance * w)%Q.

(** Descending by combined score, ties broken by record identifier
    ascending. *)
Definition ranked_before (score_a : Q) (id_a : N) (score_b : Q) (id_b : N) : Prop :=
  (score_b < score_a)%Q \/ ((score_a == score_b)%Q /\ (id_a <= id_b)%N).

End Spec.

(** ** The parser of plain words *)

Module TokenizeFacts.
Import TextSearch.

Lemma space_is_no_word_char (c : ascii) : is_space c = true -> is_word_char c = false.
Proof.
  unfold is_space, is_word_char. generalize (N_of_ascii c). intros n Hs.
  apply orb_true_iff in Hs as [Hs|Hs].
  - apply N.eqb_eq in Hs. now subst.
  - apply andb_true_iff in Hs as [Hlo Hhi].
    apply N.leb_le in Hlo, Hhi.
    repeat (apply orb_false_iff; split); try apply andb_false_iff;
      try (left; apply N.leb_gt; lia); apply N.leb_gt; lia.
Qed.

Lemma tokenize_blank (s : string) : is_blank s = true -> tokenize s = [].
Proof.
  unfold tokenize. induction s as [|c s IH]; simpl; intros Hb; [reflexivity|].
  apply andb_true_iff in Hb as [Hc Hs].
  rewrite (space_is_no_word_char c Hc). simpl. now apply IH.
Qed.

End TokenizeFacts.

(** ** A concrete store

    Operators for concrete runs.  The parser is [tokenize].  The cosine
    distance is the exact one wherever the product of the squared norms is
    a perfect square, as it is for the axis vectors used here; the
    dictionary keeps every token.  The rank counts a tenth for every
    occurrence of a query lexeme in the document, which is [ts_rank_cd] for
    a query of one word on documents without weight labels; for [ts_rank]
    it stands in as a rank that grows with the occurrences. *)

Module Fixture.
Import Pg TextSearch.

Definition dot (a b : vector) : Q :=
  fold_right Qplus 0%Q (map (fun p => (fst p * snd p)%Q) (combine a b)).

Definition qsqrt (q : Q) : Q :=
  let r := Qred q in Qmake (Z.sqrt (Qnum r * Zpos (Qden r))) (Qden r).

Definition exact_cosine_distance (a b : vector) : Q :=
  Qred (1 - dot a b / qsqrt (dot a a * dot b b)).

Definition occurrence_rank (doc : tsvector) (query : tsquery) : Q :=
  Qred (inject_Z (Z.of_nat (List.length (filter (has_lexeme query) doc))) / 10).

Definition ops : Operators :=
  {| cosine_distance := exact_cosine_distance;
     parse := tokenize;
     parse_blank := TokenizeFacts.tokenize_blank;
     dictionary := fun tok => Some tok;
     ts_rank := occurrence_rank;
     ts_rank_cd := occurrence_rank |}.

(** Unit vectors of the embedding dimension, 1536. *)
Definition axis (k : nat) : vector :=
  repeat 0%Q k ++ [1%Q] ++ repeat 0%Q (1535 - k).

Definition opposite (v : vector) : vector := map Qopp v.

(** A store for [sql/fix_fm_functions.sql]: one table, and four chunks of
    which two are the same text with the same embedding, one points away
    from the query vector and one has no embedding. *)
Definition chunk (id : N) (table : option uuid) (kind text : string)
  (embedding : option vector) : FixFm.fm_global_vectors_row :=
  {| FixFm.v_id := id;
     FixFm.v_content_id := table;
     FixFm.v_content_type := kind;
     FixFm.v_content := text;
     FixFm.v_embedding := embedding;
     FixFm.v_metadata := None |}.

Definition store : FixFm.database :=
  {| FixFm.fm_global_vectors :=
       [chunk 2 (Some 10%N) "table" "Aisle width requirements" (Some (axis 0));
        chunk 1 (Some 10%N) "table" "Aisle width requirements" (Some (axis 0));
        chunk 3 None "text" "sprinkler spacing" (Some (opposite (axis 0)));
        chunk 4 None "text" "ceiling height" None];
     FixFm.fm_global_tables :=
       [{| FixFm.t_id := 10%N; FixFm.t_table_id := Some "Table 14"%string;
           FixFm.t_asrs_type := Some "Shuttle"%string;
           FixFm.t_title := Some "Shuttle IRAS Arrangements"%string |}];
     FixFm.fm_global_figures := [] |}.

(** A store in which no two chunks are equally far from the first axis or
    score the same for the query text "aisle". *)
Definition plain_store : FixFm.database :=
  {| FixFm.fm_global_vectors :=
       [chunk 2 (Some 10%N) "table" "Aisle width requirements" (Some (axis 0));
        chunk 3 None "text" "sprinkler spacing" (Some (opposite (axis 0)));
        chunk 4 None "text" "ceiling height" None;
        chunk 5 None "text" "aisle to aisle" (Some (axis 1))];
     FixFm.fm_global_tables := FixFm.fm_global_tables store;
     FixFm.fm_global_figures := [] |}.

Definition swap_first_two {A : Type} (l : list A) : list A :=
  match l with
  | a :: b :: rest => b :: a :: rest
  | _ => l
  end.

(** The same chunks in the expert-system schema. *)
Definition expert_chunk (id : N) (kind text : string) (embedding : option vector)
  : ExpertSchema.fm_global_vectors_row :=
  {| ExpertSchema.v_id := id;
     ExpertSchema.v_source_id := None;
     ExpertSchema.v_source_type := kind;
     ExpertSchema.v_content := text;
     ExpertSchema.v_embedding := embedding;
     ExpertSchema.v_chunk_index := 0;
     ExpertSchema.v_asrs_topic := Some "fire_protection"%string;
     ExpertSchema.v_regulation_section := None;
     ExpertSchema.v_design_parameter := None;
     ExpertSchema.v_metadata := None;
     ExpertSchema.v_token_count := None |}.

Definition expert_store : ExpertSchema.database :=
  {| ExpertSchema.fm_global_tables := [];
     ExpertSchema.fm_global_figures := [];
     ExpertSchema.fm_global_vectors :=
       [expert_chunk 2 "text" "Aisle width requirements" (Some (axis 0));
        expert_chunk 1 "text" "Aisle width requirements" (Some (axis 0));
        expert_chunk 3 "text" "sprinkler spacing" (Some (opposite (axis 0)));
        expert_chunk 4 "text" "ceiling height" None] |}.

(** The expert-system store with chunks that neither are equally far from
    the first axis nor score the same for the query text "aisle". *)
Definition expert_plain_store : ExpertSchema.database :=
  {| ExpertSchema.fm_global_tables := [];
     ExpertSchema.fm_global_figures := [];
     ExpertSchema.fm_global_vectors :=
       [expert_chunk 2 "text" "Aisle width requirements" (Some (axis 0));
        expert_chunk 3 "text" "sprinkler spacing" (Some (opposite (axis 0)));
        expert_chunk 4 "text" "ceiling height" None;
        expert_chunk 5 "text" "aisle to aisle" (Some (axis 1))] |}.

(** A query vector of three components, not the 1536 of the stored ones. *)
Definition short_query : vector := [1; 0; 0]%Q.

(** A store for [search_fm_global_all]: every table holds a row with an
    embedding and a row without one. *)
Definition unified_store : Unified.database :=
  {| Unified.fm_text_chunks :=
       [{| Unified.c_id := 1%N; Unified.c_content_type := Some "text"%string;
           Unified.c_raw_text := Some "Aisle width requirements"%string;
           Unified.c_embedding := Some (axis 0);
           Unified.c_chunk_summary := None; Unified.c_doc_id := Some "FM-8-34"%string;
           Unified.c_page_number := Some 12; Unified.c_section_path := None;
           Unified.c_related_tables := Some ["Table 14"%string];
           Unified.c_related_figures := None; Unified.c_topics := None |};
        {| Unified.c_id := 2%N; Unified.c_content_type := Some "text"%string;
           Unified.c_raw_text := Some "ceiling height"%string;
           Unified.c_embedding := None;
           Unified.c_chunk_summary := Some "Ceiling"%string; Unified.c_doc_id := None;
           Unified.c_page_number := None; Unified.c_section_path := None;
           Unified.c_related_tables := None;
           Unified.c_related_figures := None; Unified.c_topics := None |}];
     Unified.fm_table_vectors :=
       [{| Unified.tv_id := 1%N; Unified.tv_content_type := Some "table"%string;
           Unified.tv_content_text := Some "Shuttle IRAS Arrangements"%string;
           Unified.tv_embedding := Some (axis 1);
           Unified.tv_table_id := Some "14"%string; Unified.tv_metadata := None |};
        {| Unified.tv_id := 2%N; Unified.tv_content_type := Some "table"%string;
           Unified.tv_content_text := None; Unified.tv_embedding := None;
           Unified.tv_table_id := None; Unified.tv_metadata := None |}];
     Unified.fm_global_vectors :=
       [{| Unified.v_id := 3%N; Unified.v_content_type := Some "figure"%string;
           Unified.v_content := Some "sprinkler spacing"%string;
           Unified.v_embedding := Some (opposite (axis 0));
           Unified.v_metadata := None |};
        {| Unified.v_id := 4%N; Unified.v_content_type := None;
           Unified.v_content := None; Unified.v_embedding := None;
           Unified.v_metadata := None |}] |}.

(** Services for the agent: the query on [fm_global_figures] fails, as it
    does when the table has no embedding column; the other queries give
    one row each. *)
Definition embedding_service (text : string) : Agent.promise (list Q) :=
  Agent.Resolved (axis 0).

Definition supabase_without_figure_index (q : Agent.query) : Agent.response string :=
  if String.eqb (Agent.q_table q) "fm_global_figures" then
    {| Agent.data := None;
       Agent.error :=
         Some (Agent.PostgrestError "column fm_global_figures.embedding does not exist") |}
  else {| Agent.data := Some ["Table 14"%string]; Agent.error := None |}.

(** An answer that lists the sources it was given. *)
Definition respond_with_sources (figures tables texts : list string) (question : string)
  (config : option Agent.ASRSConfiguration) : Agent.promise (list string) :=
  Agent.Resolved (figures ++ tables ++ texts).

End Fixture.

(** ** The agent's other methods: [fuseAndRankResults], [calculateCost],
    [optimizeForCost], [generateFormQuestions]

    The relevance scores that [fuseAndRankResults] compares are rationals.
    The numbers that [calculateCost] and [optimizeForCost] add, multiply
    and compare are the IEEE 754 doubles of JavaScript, Rocq's primitive
    [float].  Helper methods that the class calls but does not define are
    parameters, as is the text of a number in a template string. *)

Module Design.
Import Agent.

(** *** [fuseAndRankResults] *)

Section Fusion.
Variables FigureResult TableResult RegulationResult : Type.
Variable calculateFigureRelevance :
  FigureResult -> string -> option ASRSConfiguration -> Q.
Variable calculateTableRelevance :
  TableResult -> string -> option ASRSConfiguration -> Q.
Variable calculateTextRelevance : RegulationResult -> string -> Q.

(** The result that is spread into a fused one. *)
Inductive fused_source : Type :=
| OfFigure (f : FigureResult)
| OfTable (t : TableResult)
| OfRegulation (r : RegulationResult).

(** [{ ...result, type, relevance_score }] *)
Record FusedResult : Type := {
  source : fused_source;
  type : string;
  relevance_score : Q
}.

Definition allResults (figures : list FigureResult) (tables : list TableResult)
  (texts : list RegulationResult) (user_query : string)
  (config : option ASRSConfiguration) : list FusedResult :=
  map (fun f => {| source := OfFigure f; type := "figure";
                   relevance_score := calculateFigureRelevance f user_query config |})
    figures
  ++ map (fun t => {| source := OfTable t; type := "table";
                      relevance_score := calculateTableRelevance t user_query config |})
       tables
  ++ map (fun r => {| source := OfRegulation r; type := "regulation";
                      relevance_score := calculateTextRelevance r user_query |})
       texts.

(** The comparator [(a, b) => b.relevance_score - a.relevance_score] is
    not positive: [a] may stay before [b]. *)
Definition by_relevance (a b : FusedResult) : bool :=
  Qle_bool (relevance_score b) (relevance_score a).

(** [.sort(...)] is a stable sort; [.slice(0, 15)] keeps the first 15. *)
Definition fuseAndRankResults (figures : list FigureResult) (tables : list TableResult)
  (texts : list RegulationResult) (user_query : string)
  (config : option ASRSConfiguration) : list FusedResult :=
  firstn 15 (Pg.sort_rows by_relevance (allResults figures tables texts user_query config)).

End Fusion.

Arguments source {FigureResult TableResult RegulationResult} f.
Arguments type {FigureResult TableResult RegulationResult} f.
Arguments relevance_score {FigureResult TableResult RegulationResult} f.

(** *** [calculateCost] *)

Import PrimFloat.

(** A JavaScript number. *)
Definition number : Type := float.

(** The literals [0.3] and [0.8]: the doubles nearest to them. *)
Definition labor_share : number := (0x1.3333333333333p-2)%float.
Definition spacing_share : number := (0x1.999999999999ap-1)%float.

Record EquipmentItem : Type := {
  item_type : string;
  specification : string;
  quantity : number
}.

(** A row of [fm_cost_factors]: the columns the method reads. *)
Record CostFactor : Type := {
  component_type : string;
  factor_name : string;
  base_cost_per_unit : number;
  complexity_multiplier : number;
  unit_type : string
}.

Record CostItem : Type := {
  description : string;
  unit_cost : number;
  item_quantity : number;
  item_total : number
}.

Record CostBreakdown : Type := {
  items : list CostItem;
  subtotal : number;
  labor : number;
  total : number
}.

Section Cost.
(** The text of a number inside a template string. *)
Variable number_text : number -> string.

(** [costFactors?.find(f => f.component_type === item.type &&
    f.factor_name === item.specification)]; [costFactors] is [null] when the
    query failed. *)
Definition find_factor (costFactors : option (list CostFactor)) (item : EquipmentItem)
  : option CostFactor :=
  match costFactors with
  | None => None
  | Some factors =>
      find (fun f => String.eqb (component_type f) (item_type item)
                     && String.eqb (factor_name f) (specification item)) factors
  end.

(** One turn of the loop over [equipment.items], on
    [(breakdown.items, totalCost)]. *)
Definition cost_step (costFactors : option (list CostFactor))
  (state : list CostItem * number) (item : EquipmentItem) : list CostItem * number :=
  match find_factor costFactors item with
  | Some factor =>
      let itemCost :=
        (base_cost_per_unit factor * quantity item * complexity_multiplier factor)%float in
      (fst state
       ++ [{| description :=
                (specification item ++ " (" ++ number_text (quantity item) ++ " "
                 ++ unit_type factor ++ ")")%string;
              unit_cost := base_cost_per_unit factor;
              item_quantity := quantity item;
              item_total := itemCost |}],
       (snd state + itemCost)%float)
  | None => state
  end.

(** [calculateCost(equipment)], given the data of the query on
    [fm_cost_factors]; the query's error is not looked at. *)
Definition calculateCost (costFactors : option (list CostFactor))
  (equipment : list EquipmentItem) : CostBreakdown :=
  let final := fold_left (cost_step costFactors) equipment ([], 0%float) in
  let totalCost := snd final in
  {| items := fst final;
     subtotal := totalCost;
     labor := (totalCost * labor_share)%float;
     total := (totalCost + totalCost * labor_share)%float |}.

End Cost.

(** *** [optimizeForCost]

    The method builds one array, [suggestions], and returns it under two
    properties, the second after sorting it in place: arrays live in a
    heap and the returned object holds references. *)

(** The fields of [ASRSConfiguration] with the numbers as the doubles this
    method computes with. *)
Record ASRSConfiguration : Type := {
  asrs_type : asrs_type_t;
  container_type : container_type_t;
  rack_depth_ft : number;
  rack_spacing_ft : number;
  ceiling_height_ft : number;
  aisle_width_ft : number;
  commodity_type : list string;
  storage_height_ft : number;
  system_type : system_type_t
}.

Section Optimize.
(** What a helper reports on requirements ([compliance_notes],
    [trade_offs], [operational_impact]). *)
Variable Impact : Type.
Variable number_text : number -> string.

Record OptimizationSuggestion : Type := {
  suggestion_type : string;
  suggestion_description : string;
  estimated_savings : number;
  feasibility : string;
  requirements_impact : Impact
}.

(** The fields of a design that the method reads. *)
Record DesignResult : Type := {
  configuration : ASRSConfiguration;
  sprinkler_spacing : number;
  estimated_cost : CostBreakdown
}.

Record SpacingOptimization : Type := {
  new_spacing : number;
  spacing_cost_reduction : number;
  compliance_notes : Impact
}.

Record ProtectionScheme : Type := {
  scheme_name : string;
  scheme_estimated_cost : number;
  scheme_feasibility : string;
  trade_offs : Impact
}.

Record ClosedTopSavings : Type := {
  feasible : bool;
  closed_top_cost_reduction : number;
  operational_impact : Impact
}.

Variable calculateSpacingOptimization : DesignResult -> promise SpacingOptimization.
Variable findAlternativeProtectionSchemes :
  ASRSConfiguration -> promise (list ProtectionScheme).
Variable calculateClosedTopSavings : ASRSConfiguration -> promise ClosedTopSavings.

Definition array_ref : Type := nat.
Definition heap : Type := list (list OptimizationSuggestion).

Definition read (h : heap) (r : array_ref) : list OptimizationSuggestion := nth r h [].

Definition alloc (h : heap) : heap * array_ref := (h ++ [[]], List.length h).

Fixpoint write (h : heap) (r : array_ref) (a : list OptimizationSuggestion) : heap :=
  match h, r with
  | [], _ => []
  | _ :: rest, O => a :: rest
  | x :: rest, S r' => x :: write rest r' a
  end.

Definition push (h : heap) (r : array_ref) (x : OptimizationSuggestion) : heap :=
  write h r (read h r ++ [x]).

(** The comparator [(a, b) => b.estimated_savings - a.estimated_savings]
    is not positive: [a] may stay before [b].  A difference that is not a
    number counts as 0. *)
Definition by_savings (a b : OptimizationSuggestion) : bool :=
  negb (0 <? estimated_savings b - estimated_savings a)%float.

(** [array.sort(...)]: sorts the array where it is.  The sort is stable;
    where the comparator is not consistent on the elements (a total
    preorder), the language leaves the order to the engine, and this is
    one order an engine may give. *)
Definition sort_in_place (h : heap) (r : array_ref) : heap :=
  write h r (Pg.sort_rows by_savings (read h r)).

Record OptimizationSuggestions : Type := {
  suggestions : array_ref;
  total_potential_savings : number;
  implementation_priority : array_ref
}.

Definition spacing_suggestion (design : DesignResult) (s : SpacingOptimization)
  : OptimizationSuggestion :=
  {| suggestion_type := "spacing_optimization";
     suggestion_description :=
       ("Increase sprinkler spacing from " ++ number_text (sprinkler_spacing design)
        ++ "ft to " ++ number_text (new_spacing s) ++ "ft")%string;
     estimated_savings := spacing_cost_reduction s;
     feasibility := "high";
     requirements_impact := compliance_notes s |}.

Definition scheme_suggestion (design : DesignResult) (scheme : ProtectionScheme)
  : OptimizationSuggestion :=
  {| suggestion_type := "protection_scheme";
     suggestion_description :=
       ("Switch to " ++ scheme_name scheme ++ " protection scheme")%string;
     estimated_savings :=
       (total (estimated_cost design) - scheme_estimated_cost scheme)%float;
     feasibility := scheme_feasibility scheme;
     requirements_impact := trade_offs scheme |}.

Definition container_suggestion (c : ClosedTopSavings) : OptimizationSuggestion :=
  {| suggestion_type := "container_modification";
     suggestion_description :=
       "Switch to closed-top containers to reduce protection requirements";
     estimated_savings := closed_top_cost_reduction c;
     feasibility := "medium";
     requirements_impact := operational_impact c |}.

(** The loop over [alternativeSchemes]. *)
Definition scheme_step (design : DesignResult) (r : array_ref) (h : heap)
  (scheme : ProtectionScheme) : heap :=
  if (scheme_estimated_cost scheme <? total (estimated_cost design))%float
  then push h r (scheme_suggestion design scheme) else h.

Definition optimizeForCost (h0 : heap) (design : DesignResult)
  : promise (heap * OptimizationSuggestions) :=
  let (h1, arr) := alloc h0 in
  await h2 <-
    (if (sprinkler_spacing design
         <? rack_spacing_ft (configuration design) * spacing_share)%float
     then await potentialSavings <- calculateSpacingOptimization design ;;
          Resolved (push h1 arr (spacing_suggestion design potentialSavings))
     else Resolved h1) ;;
  await alternativeSchemes <- findAlternativeProtectionSchemes (configuration design) ;;
  let h3 := fold_left (scheme_step design arr) alternativeSchemes h2 in
  await h4 <-
    (match container_type (configuration design) with
     | OpenTop =>
         await closedTopSavings <- calculateClosedTopSavings (configuration design) ;;
         Resolved (if feasible closedTopSavings
                   then push h3 arr (container_suggestion closedTopSavings) else h3)
     | _ => Resolved h3
     end) ;;
  let sum :=
    fold_left (fun sum s => (sum + estimated_savings s)%float) (read h4 arr) 0%float in
  let h5 := sort_in_place h4 arr in
  Resolved (h5, {| suggestions := arr;
                   total_potential_savings := sum;
                   implementation_priority := arr |}).

End Optimize.

End Design.

(** *** [generateFormQuestions] *)

Module Form.
Import Agent.

(** [Partial<ASRSConfiguration>]: every field may be undefined. *)
Record PartialConfiguration : Type := {
  asrs_type : option asrs_type_t;
  container_type : option container_type_t;
  rack_depth_ft : option Q;
  rack_spacing_ft : option Q;
  ceiling_height_ft : option Q;
  aisle_width_ft : option Q;
  commodity_type : option (list string);
  storage_height_ft : option Q;
  system_type : option system_type_t
}.

(** The default of the parameter, [{}]. *)
Definition no_answers : PartialConfiguration :=
  {| asrs_type := None; container_type := None; rack_depth_ft := None;
     rack_spacing_ft := None; ceiling_height_ft := None; aisle_width_ft := None;
     commodity_type := None; storage_height_ft := None; system_type := None |}.

Record QuestionOption : Type := {
  value : string;
  label : string;
  description : string
}.

Record FormQuestion : Type := {
  id : string;
  type : string;
  question : string;
  options : list QuestionOption;
  required : bool;
  helpText : option string;
  conditional : option (PartialConfiguration -> bool)
}.

Definition is_defined {A : Type} (x : option A) : bool :=
  match x with
  | Some _ => true
  | None => false
  end.

Definition questions : list FormQuestion :=
  [ {| id := "asrs_type";
       type := "select";
       question := "What type of ASRS system are you implementing?";
       options :=
         [ {| value := "Shuttle"; label := "Shuttle ASRS";
              description := "Horizontal loading with shuttle mechanism" |};
           {| value := "Mini-Load"; label := "Mini-Load ASRS";
              description := "Vertical loading for smaller items" |};
           {| value := "Horizontal Carousel"; label := "Horizontal Carousel";
              description := "Rotating carousel system" |} ];
       required := true;
       helpText :=
         Some "This determines the applicable FM Global tables and protection requirements"%string;
       conditional := None |};
    {| id := "container_type";
       type := "select";
       question := "What type of containers will be stored?";
       options :=
         [ {| value := "Closed-Top"; label := "Closed-Top Containers";
              description := "Fully enclosed storage containers" |};
           {| value := "Open-Top"; label := "Open-Top Containers";
              description := "Open containers or exposed products" |};
           {| value := "Mixed"; label := "Mixed Container Types";
              description := "Combination of closed and open containers" |} ];
       required := true;
       helpText := None;
       conditional := Some (fun answers => is_defined (asrs_type answers)) |} ].

(** [questions.filter(q => !q.conditional || q.conditional(currentAnswers))] *)
Definition generateFormQuestions (currentAnswers : PartialConfiguration)
  : list FormQuestion :=
  filter (fun q => match conditional q with
                   | None => true
                   | Some shown => shown currentAnswers
                   end) questions.

End Form.

(** ** [get_fm_global_references_by_topic] of the expert-system schema

    [LIKE] and the text of a [jsonb] value are parameters. *)

Module References.
Import Pg ExpertSchema.

Record reference_row : Type := {
  reference_type : string;
  reference_number : string;
  title : string;
  section : option string;
  asrs_relevance : string
}.

Section ByTopic.
(** [text LIKE pattern] *)
Variable like : string -> string -> bool.
(** [metadata::TEXT] *)
Variable jsonb_text : jsonb -> string.
Variable db : database.
Variable topic : string.

(** ['%' || topic || '%'] *)
Definition pattern : string := ("%" ++ topic ++ "%")%string.

(** [column LIKE pattern] for a nullable column: NULL is not true. *)
Definition null_like (column : option string) : bool :=
  match column with
  | Some text => like text pattern
  | None => false
  end.

Definition metadata_like (metadata : option jsonb) : bool :=
  null_like (option_map jsonb_text metadata).

(** The [CASE] of the [ORDER BY]: 1, 2 or 3. *)
Definition table_rank (t : fm_global_tables_row) : Z :=
  if null_like (t_table_type t) then 1
  else if metadata_like (t_metadata t) then 2
  else 3.

Definition figure_rank (f : fm_global_figures_row) : Z :=
  if null_like (f_asrs_component f) || null_like (f_design_context f) then 1
  else if metadata_like (f_metadata f) then 2
  else 3.

(** The [CASE] of the select list, which has the same conditions. *)
Definition relevance_of (rank : Z) : string :=
  if rank =? 1 then "High" else if rank =? 2 then "Medium" else "Low".

Definition table_where (t : fm_global_tables_row) : bool :=
  null_like (t_table_type t) || metadata_like (t_metadata t) || like (t_content t) pattern.

Definition figure_where (f : fm_global_figures_row) : bool :=
  null_like (f_asrs_component f) || null_like (f_design_context f)
  || metadata_like (f_metadata f) || like (f_description f) pattern.

Definition select_table (t : fm_global_tables_row) : reference_row :=
  {| reference_type := "table";
     reference_number := t_table_number t;
     title := t_title t;
     section := t_section t;
     asrs_relevance := relevance_of (table_rank t) |}.

Definition select_figure (f : fm_global_figures_row) : reference_row :=
  {| reference_type := "figure";
     reference_number := f_figure_number f;
     title := f_title f;
     section := f_section f;
     asrs_relevance := relevance_of (figure_rank f) |}.

(** [limit_count / 2] on [int]: the quotient truncated towards zero. *)
Definition half (limit_count : Z) : Z := Z.quot limit_count 2.

(** The rows of the two limited selects under [UNION ALL], in some order. *)
Inductive get_fm_global_references_by_topic (limit_count : Z)
  : outcome reference_row -> Prop :=
| references_rows (n : N) tables figures out :
    Pg.limit_count (half limit_count) = inr n ->
    order_by (fun a b => table_rank a <= table_rank b)
      (filter table_where (fm_global_tables db)) tables ->
    order_by (fun a b => figure_rank a <= figure_rank b)
      (filter figure_where (fm_global_figures db)) figures ->
    Permutation (limit_rows n (map select_table tables)
                 ++ limit_rows n (map select_figure figures)) out ->
    get_fm_global_references_by_topic limit_count (Rows out)
| references_raised e :
    Pg.limit_count (half limit_count) = inl e ->
    get_fm_global_references_by_topic limit_count (Raised e).

Definition get_fm_global_references_by_topic_exec (limit_count : Z)
  : outcome reference_row :=
  match Pg.limit_count (half limit_count) with
  | inl e => Raised e
  | inr n =>
      Rows (limit_rows n (map select_table
              (sort_rows (fun a b => table_rank a <=? table_rank b)
                 (filter table_where (fm_global_tables db))))
            ++ limit_rows n (map select_figure
                 (sort_rows (fun a b => figure_rank a <=? figure_rank b)
                    (filter figure_where (fm_global_figures db)))))
  end.

End ByTopic.

End References.

(** ** [text_search_chunks]

    The columns of [fm_text_chunks] that the function reads; [ILIKE] is a
    parameter. *)

Module ChunkSearch.
Import Pg.

(** A [text[]] value: its elements, NULL ones included. *)
Definition text_array : Type := list (option string).

Record fm_text_chunks_row : Type := {
  c_id : uuid;
  c_doc_id : option string;
  c_raw_text : option string;
  c_chunk_summary : option string;
  c_page_number : option Z;
  c_section_path : option text_array;
  c_related_tables : option text_array;
  c_related_figures : option text_array;
  c_search_keywords : option text_array;
  c_topics : option text_array
}.

Record chunk_row : Type := {
  chunk_id : uuid;
  doc_id : option string;
  content : option string;
  chunk_summary : option string;
  page_number : option Z;
  section_path : option text_array;
  related_tables : option text_array;
  related_figures : option text_array
}.

Section Search.
(** [text ILIKE pattern] *)
Variable ilike : string -> string -> bool.
Variable chunks : list fm_text_chunks_row.
Variable search_query : string.

Definition pattern : string := ("%" ++ search_query ++ "%")%string.

Definition null_ilike (column : option string) : bool :=
  match column with
  | Some text => ilike text pattern
  | None => false
  end.

(** [search_query = ANY(array)]: true when an element equals it. *)
Definition any_equal (array : option text_array) : bool :=
  match array with
  | Some elements => existsb (fun x => null_eqb String.eqb x search_query) elements
  | None => false
  end.

Definition search_where (c : fm_text_chunks_row) : bool :=
  null_ilike (c_raw_text c) || null_ilike (c_chunk_summary c)
  || any_equal (c_search_keywords c) || any_equal (c_topics c).

Definition search_rank (c : fm_text_chunks_row) : Z :=
  if null_ilike (c_chunk_summary c) then 1
  else if null_ilike (c_raw_text c) then 2
  else 3.

Definition select_chunk (c : fm_text_chunks_row) : chunk_row :=
  {| chunk_id := c_id c;
     doc_id := c_doc_id c;
     content := c_raw_text c;
     chunk_summary := c_chunk_summary c;
     page_number := c_page_number c;
     section_path := c_section_path c;
     related_tables := c_related_tables c;
     related_figures := c_related_figures c |}.

Inductive text_search_chunks (match_count : Z) : outcome chunk_row -> Prop :=
| chunks_rows (n : N) ranked :
    limit_count match_count = inr n ->
    order_by (fun a b => search_rank a <= search_rank b)
      (filter search_where chunks) ranked ->
    text_search_chunks match_count (Rows (limit_rows n (map select_chunk ranked)))
| chunks_raised e :
    limit_count match_count = inl e ->
    text_search_chunks match_count (Raised e).

Definition text_search_chunks_exec (match_count : Z) : outcome chunk_row :=
  match limit_count match_count with
  | inl e => Raised e
  | inr n =>
      Rows (limit_rows n (map select_chunk
        (sort_rows (fun a b => search_rank a <=? search_rank b)
           (filter search_where chunks))))
  end.

End Search.

End ChunkSearch.

(** ** Orders and stores used by the further properties *)

Module Ranking.

(** Both similarities are present and the first is at least the second. *)
Definition more_similar (a b : option Q) : Prop :=
  exists x y, a = Some x /\ b = Some y /\ (y <= x)%Q.

End Ranking.

(** What the store, and a candidate set, hold for an identifier: used to
    state what a search returns in terms of what is stored. *)
Module Stored.
Import Pg TextSearch.

(** The chunk of [fm_global_vectors] with the given [id]. *)
Definition chunk (db : ExpertSchema.database) (id : uuid)
  : option ExpertSchema.fm_global_vectors_row :=
  find (fun v => N.eqb (ExpertSchema.v_id v) id) (ExpertSchema.fm_global_vectors db).

Definition embedded (db : ExpertSchema.database) (id : uuid) : bool :=
  match chunk db id with
  | Some v => match ExpertSchema.v_embedding v with Some _ => true | None => false end
  | None => false
  end.

(** 1 minus the cosine distance of the chunk's embedding to the query
    vector; 0 for a chunk without an embedding. *)
Definition similarity `{Operators} (db : ExpertSchema.database) (query_embedding : vector)
  (id : uuid) : Q :=
  match chunk db id with
  | Some v =>
      match ExpertSchema.v_embedding v with
      | Some e => (1 - cosine_distance e query_embedding)%Q
      | None => 0%Q
      end
  | None => 0%Q
  end.

Definition matches `{Operators} (db : ExpertSchema.database) (query_text : string)
  (id : uuid) : bool :=
  match chunk db id with
  | Some v => ts_match (to_tsvector (ExpertSchema.v_content v)) (plainto_tsquery query_text)
  | None => false
  end.

(** The [ts_rank_cd] of the chunk's text for the query; 0 for a chunk that
    does not match it. *)
Definition rank `{Operators} (db : ExpertSchema.database) (query_text : string)
  (id : uuid) : Q :=
  match chunk db id with
  | Some v =>
      if ts_match (to_tsvector (ExpertSchema.v_content v)) (plainto_tsquery query_text)
      then ts_rank_cd (to_tsvector (ExpertSchema.v_content v)) (plainto_tsquery query_text)
      else 0%Q
  | None => 0%Q
  end.

(** The score that a candidate set of [sql/fix_fm_functions.sql] holds for
    an identifier; 0 where the set has no row for it, or a NULL score. *)
Definition vector_score_of (vrs : list FixFm.vector_results_row) (id : uuid) : Q :=
  match find (fun l => N.eqb (FixFm.vr_id l) id) vrs with
  | Some l => coalesce_lit (FixFm.vr_vector_score l) 0%Q
  | None => 0%Q
  end.

Definition text_score_of (trs : list FixFm.text_results_row) (id : uuid) : Q :=
  match find (fun t => N.eqb (FixFm.tr_id t) id) trs with
  | Some t => FixFm.tr_text_score t
  | None => 0%Q
  end.

(** Whether a fused row's identifier is in a candidate set. *)
Definition in_vector_set (vrs : list FixFm.vector_results_row) (c : FixFm.combined_row)
  : bool :=
  existsb (N.eqb (FixFm.c_vector_id c)) (map FixFm.vr_id vrs).

Definition in_text_set (trs : list FixFm.text_results_row) (c : FixFm.combined_row)
  : bool :=
  existsb (N.eqb (FixFm.c_vector_id c)) (map FixFm.tr_id trs).

(** The store without the rows that have no embedding. *)
Definition embedded_chunks (db : ExpertSchema.database) : ExpertSchema.database :=
  {| ExpertSchema.fm_global_tables := ExpertSchema.fm_global_tables db;
     ExpertSchema.fm_global_figures := ExpertSchema.fm_global_figures db;
     ExpertSchema.fm_global_vectors :=
       filter (fun v => match ExpertSchema.v_embedding v with
                        | Some _ => true
                        | None => false
                        end)
         (ExpertSchema.fm_global_vectors db) |}.

Definition embedded_rows (db : Unified.database) : Unified.database :=
  {| Unified.fm_text_chunks :=
       filter (fun c => Unified.is_not_null (Unified.c_embedding c))
         (Unified.fm_text_chunks db);
     Unified.fm_table_vectors :=
       filter (fun tv => Unified.is_not_null (Unified.tv_embedding tv))
         (Unified.fm_table_vectors db);
     Unified.fm_global_vectors :=
       filter (fun v => Unified.is_not_null (Unified.v_embedding v))
         (Unified.fm_global_vectors db) |}.

End Stored.

Module Numbers.
Import PrimFloat.

(** The text of a number, for the numbers of the concrete runs. *)
Definition number_text (x : Design.number) : string :=
  let texts :=
    [(1%float, "1"); (2%float, "2"); (3%float, "3"); (40%float, "40");
     (300%float, "300");
     ((0x1.3333333333333p+1)%float, "2.4")]%string in
  match find (fun entry => (fst entry =? x)%float) texts with
  | Some entry => snd entry
  | None => "NaN"%string
  end.

End Numbers.

(** Cost factors and equipment for concrete runs of [calculateCost]: the
    pipe has no cost factor. *)
Module CostExample.
Import Design PrimFloat.
Local Open Scope float_scope.

Definition cost_factors : list CostFactor :=
  [{| component_type := "sprinkler"; factor_name := "K11.2 pendent";
      base_cost_per_unit := 85; complexity_multiplier := 0x1.3333333333333p+0;
      unit_type := "units" |};
   {| component_type := "valve"; factor_name := "4in control valve";
      base_cost_per_unit := 1200; complexity_multiplier := 1;
      unit_type := "units" |}].

Definition equipment : list EquipmentItem :=
  [{| item_type := "sprinkler"; specification := "K11.2 pendent"; quantity := 40 |};
   {| item_type := "pipe"; specification := "2in schedule 40"; quantity := 300 |};
   {| item_type := "valve"; specification := "4in control valve"; quantity := 2 |}].

(** One piece of equipment that costs 3. *)
Definition one_factor : list CostFactor :=
  [{| component_type := "valve"; factor_name := "drain valve";
      base_cost_per_unit := 3; complexity_multiplier := 1; unit_type := "units" |}].

Definition one_piece : list EquipmentItem :=
  [{| item_type := "valve"; specification := "drain valve"; quantity := 1 |}].

Definition three : number := 3.

(** The literal [1.3]. *)
Definition thirteen_tenths : number := 0x1.4cccccccccccdp+0.

End CostExample.

(** A design and helper answers for concrete runs of [optimizeForCost]:
    open-top containers, sprinklers 2.4 ft apart in racks 3 ft apart, and
    two alternative schemes of which one is cheaper than the design. *)
Module OptimizeExample.
Import Agent Design PrimFloat.
Local Open Scope float_scope.

Definition design : DesignResult :=
  {| configuration :=
       {| asrs_type := Shuttle; container_type := OpenTop;
          rack_depth_ft := 6; rack_spacing_ft := 3; ceiling_height_ft := 30;
          aisle_width_ft := 8; commodity_type := ["Class III"%string];
          storage_height_ft := 25; system_type := Wet |};
     sprinkler_spacing := 0x1.3333333333333p+1;
     estimated_cost :=
       {| items := []; subtotal := 50000; labor := 15000; total := 65000 |} |}.

Definition calculateSpacingOptimization (d : DesignResult)
  : promise (SpacingOptimization string) :=
  Resolved {| new_spacing := 3; spacing_cost_reduction := 4000;
              compliance_notes := "within the spacing limits"%string |}.

Definition findAlternativeProtectionSchemes (c : ASRSConfiguration)
  : promise (list (ProtectionScheme string)) :=
  Resolved [{| scheme_name := "ceiling only"; scheme_estimated_cost := 52000;
               scheme_feasibility := "medium";
               trade_offs := "needs higher water demand"%string |};
            {| scheme_name := "in-rack at every level"; scheme_estimated_cost := 80000;
               scheme_feasibility := "high";
               trade_offs := "none"%string |}].

Definition calculateClosedTopSavings (c : ASRSConfiguration)
  : promise (ClosedTopSavings string) :=
  Resolved {| feasible := true; closed_top_cost_reduction := 9000;
              operational_impact := "containers must be replaced"%string |}.

(** A helper that fails. *)
Definition no_schemes (c : ASRSConfiguration) : promise (list (ProtectionScheme string)) :=
  Rejected (ServiceError "scheme lookup failed").

Definition run (h0 : heap string) : promise (heap string * OptimizationSuggestions) :=
  optimizeForCost string Numbers.number_text calculateSpacingOptimization
    findAlternativeProtectionSchemes calculateClosedTopSavings h0 design.

End OptimizeExample.

(** What holds of a heap [h] in which the array allocated on top of [h0]
    holds [built] and the arrays of [h0] are as they were. *)
Module HeapInvariant.
Import Design.

Definition holds {Impact : Type} (h0 h : heap Impact)
  (built : list (OptimizationSuggestion Impact)) : Prop :=
  List.length h = S (List.length h0)
  /\ read Impact h (List.length h0) = built
  /\ forall r, (r < List.length h0)%nat -> read Impact h r = read Impact h0 r.

End HeapInvariant.

(** [LIKE] and [ILIKE] for the patterns ['%' || word || '%'] of a word
    without wildcard characters, and stores for concrete runs of
    [get_fm_global_references_by_topic] and [text_search_chunks]. *)
Module LikeExample.
Import Pg.

Fixpoint contains (text word : string) : bool :=
  String.prefix word text
  || match text with
     | EmptyString => false
     | String _ rest => contains rest word
     end.

(** The word between the two [%] of a pattern. *)
Definition word_of (pattern : string) : string :=
  substring 1 (String.length pattern - 2) pattern.

Fixpoint lower (s : string) : string :=
  match s with
  | EmptyString => EmptyString
  | String c rest => String (TextSearch.to_lower c) (lower rest)
  end.

Definition like (text pattern : string) : bool := contains text (word_of pattern).

Definition ilike (text pattern : string) : bool :=
  contains (lower text) (lower (word_of pattern)).

(** The text of the metadata values used here. *)
Definition jsonb_text (j : jsonb) : string :=
  match j with
  | JText s => s
  | _ => "null"
  end.

Definition reference_table (id : N) (number content : string) (kind : option string)
  (metadata : option jsonb) : ExpertSchema.fm_global_tables_row :=
  {| ExpertSchema.t_id := id;
     ExpertSchema.t_table_number := number;
     ExpertSchema.t_title := ("Title of " ++ number)%string;
     ExpertSchema.t_content := content;
     ExpertSchema.t_section := None;
     ExpertSchema.t_page_reference := None;
     ExpertSchema.t_table_type := kind;
     ExpertSchema.t_metadata := metadata |}.

Definition reference_figure (id : N) (number description : string)
  (component : option string) : ExpertSchema.fm_global_figures_row :=
  {| ExpertSchema.f_id := id;
     ExpertSchema.f_figure_number := number;
     ExpertSchema.f_title := ("Title of " ++ number)%string;
     ExpertSchema.f_description := description;
     ExpertSchema.f_section := Some "2.3"%string;
     ExpertSchema.f_page_reference := None;
     ExpertSchema.f_figure_type := None;
     ExpertSchema.f_asrs_component := component;
     ExpertSchema.f_design_context := None;
     ExpertSchema.f_metadata := None |}.

(** Three tables that mention shuttles in their content only, in their
    metadata and in their type, one that does not, and two figures. *)
Definition reference_store : ExpertSchema.database :=
  {| ExpertSchema.fm_global_tables :=
       [reference_table 1 "Table 2" "ceiling protection of shuttle systems"
          (Some "general"%string) None;
        reference_table 2 "Table 7" "in-rack sprinklers" None
          (Some (JText "applies to shuttle and mini-load"));
        reference_table 3 "Table 14" "horizontal barriers" (Some "shuttle"%string) None;
        reference_table 4 "Table 20" "carousel enclosures" (Some "carousel"%string) None];
     ExpertSchema.fm_global_figures :=
       [reference_figure 5 "Figure 4" "plan view of a shuttle rack" None;
        reference_figure 6 "Figure 9" "sprinkler layout" (Some "shuttle"%string)];
     ExpertSchema.fm_global_vectors := [] |}.

Definition text_chunk (id : N) (text summary : option string)
  (keywords : option (list (option string))) : ChunkSearch.fm_text_chunks_row :=
  {| ChunkSearch.c_id := id;
     ChunkSearch.c_doc_id := Some "FM-8-34"%string;
     ChunkSearch.c_raw_text := text;
     ChunkSearch.c_chunk_summary := summary;
     ChunkSearch.c_page_number := None;
     ChunkSearch.c_section_path := None;
     ChunkSearch.c_related_tables := None;
     ChunkSearch.c_related_figures := None;
     ChunkSearch.c_search_keywords := keywords;
     ChunkSearch.c_topics := None |}.

(** Chunks that have the word in the text, among the keywords, in the
    summary, and not at all. *)
Definition text_chunks : list ChunkSearch.fm_text_chunks_row :=
  [text_chunk 1 (Some "Sprinkler spacing in racks"%string) None None;
   text_chunk 2 None None (Some [None; Some "sprinkler"%string]);
   text_chunk 3 (Some "In-rack protection"%string) (Some "SPRINKLER layout"%string) None;
   text_chunk 4 (Some "Aisle width"%string) (Some "Aisles"%string)
     (Some [Some "aisle"%string])].

End LikeExample.

(** * Properties *)

(** ** Rows, limits and orderings *)

Module PgFacts.
Import Pg.

Lemma limit_rows_firstn {A : Type} (n : N) (rows : list A) :
  limit_rows n rows = firstn (N.to_nat n) rows.
Proof.
  revert n; induction rows as [|r rest IH]; intros n; simpl.
  - now rewrite firstn_nil.
  - destruct (N.eqb_spec n 0) as [->|Hn]; [reflexivity|].
    replace (N.to_nat n) with (S (N.to_nat (N.pred n))) by lia.
    simpl. now rewrite IH.
Qed.

Lemma limit_rows_split {A : Type} (n : N) (rows : list A) :
  rows = limit_rows n rows ++ skipn (N.to_nat n) rows.
Proof. rewrite limit_rows_firstn. symmetry. apply firstn_skipn. Qed.

Lemma limit_rows_length {A : Type} (n : N) (rows : list A) :
  List.length (limit_rows n rows) = Nat.min (N.to_nat n) (List.length rows).
Proof. rewrite limit_rows_firstn. apply length_firstn. Qed.

Lemma limit_rows_In {A : Type} (n : N) (rows : list A) (r : A) :
  In r (limit_rows n rows) -> In r rows.
Proof.
  intros Hin. rewrite (limit_rows_split n rows). apply in_or_app. now left.
Qed.

Lemma limit_rows_map {A B : Type} (f : A -> B) (n : N) (rows : list A) :
  limit_rows n (map f rows) = map f (limit_rows n rows).
Proof. rewrite !limit_rows_firstn. apply firstn_map. Qed.

Lemma limit_rows_all {A : Type} (n : N) (rows : list A) :
  (List.length rows <= N.to_nat n)%nat -> limit_rows n rows = rows.
Proof. intros Hn. rewrite limit_rows_firstn. now apply firstn_all2. Qed.

Lemma limit_rows_NoDup {A : Type} (n : N) (rows : list A) :
  NoDup rows -> NoDup (limit_rows n rows).
Proof.
  intros Hnd. rewrite (limit_rows_split n rows) in Hnd.
  now apply NoDup_app_remove_r in Hnd.
Qed.

Lemma limit_rows_sorted {A : Type} (le : A -> A -> Prop) (n : N) (rows : list A) :
  StronglySorted le rows -> StronglySorted le (limit_rows n rows).
Proof.
  intros Hs. revert n. induction Hs as [|r rest Hs IH Hall]; intros n; simpl.
  - constructor.
  - destruct (n =? 0)%N; constructor.
    + apply IH.
    + rewrite Forall_forall in *. intros x Hx. apply Hall.
      now apply limit_rows_In in Hx.
Qed.

Section Sorting.
Context {A : Type} (le : A -> A -> Prop) (leb : A -> A -> bool).
Hypothesis leb_le : forall a b, leb a b = true -> le a b.
Hypothesis leb_total : forall a b, leb a b = false -> le b a.
Hypothesis le_trans : forall a b c, le a b -> le b c -> le a c.

Lemma insert_row_perm (x : A) (l : list A) : Permutation (x :: l) (insert_row leb x l).
Proof.
  induction l as [|y l IH]; simpl; [reflexivity|].
  destruct (leb x y); [reflexivity|].
  rewrite perm_swap. now constructor.
Qed.

Lemma insert_row_sorted (x : A) (l : list A) :
  StronglySorted le l -> StronglySorted le (insert_row leb x l).
Proof.
  induction 1 as [|y l Hs IH Hall]; simpl.
  - repeat constructor.
  - destruct (leb x y) eqn:Hxy.
    + constructor; [now constructor|].
      constructor; [now apply leb_le|].
      apply leb_le in Hxy. eapply Forall_impl; [|exact Hall].
      intros z Hz. now apply le_trans with y.
    + constructor; [exact IH|].
      apply (Permutation_Forall (insert_row_perm x l)).
      constructor; [now apply leb_total | exact Hall].
Qed.

Lemma sort_rows_order_by (l : list A) : order_by le l (sort_rows leb l).
Proof.
  split.
  - induction l as [|x l IH]; simpl; [reflexivity|].
    rewrite <- insert_row_perm. now constructor.
  - induction l as [|x l IH]; simpl; [constructor|].
    now apply insert_row_sorted.
Qed.

End Sorting.

Lemma filter_at_most_one {A K : Type} (key : A -> K) (p : A -> bool) (k : K) (l : list A) :
  NoDup (map key l) ->
  (forall a, In a l -> p a = true -> key a = k) ->
  (List.length (filter p l) <= 1)%nat.
Proof.
  induction l as [|a l IH]; simpl; intros Hnd Hk; [lia|].
  inversion Hnd as [|? ? Hnotin Hnd']; subst.
  destruct (p a) eqn:Hpa; [|apply IH; auto].
  simpl. enough (filter p l = []) as -> by (simpl; lia).
  destruct (filter p l) as [|b rest] eqn:Hf; [reflexivity|exfalso].
  assert (Hb : In b (filter p l)) by (rewrite Hf; now left).
  apply filter_In in Hb as [Hbl Hpb].
  apply Hnotin. rewrite (Hk a (or_introl eq_refl) Hpa), <- (Hk b (or_intror Hbl) Hpb).
  now apply in_map.
Qed.

Lemma Permutation_filter {A : Type} (p : A -> bool) [l l' : list A] :
  Permutation l l' -> Permutation (filter p l) (filter p l').
Proof.
  induction 1 as [|x l l' _ IH|x y l|l l' l'' _ IH1 _ IH2]; simpl.
  - reflexivity.
  - destruct (p x); [now constructor|exact IH].
  - destruct (p x), (p y); try reflexivity. apply perm_swap.
  - now transitivity (filter p l').
Qed.

Lemma Permutation_flat_map_pointwise {A B : Type} (f g : A -> list B) (l : list A) :
  (forall a, In a l -> Permutation (f a) (g a)) ->
  Permutation (flat_map f l) (flat_map g l).
Proof.
  induction l as [|a l IH]; simpl; intros Hfg; [reflexivity|].
  apply Permutation_app; [apply Hfg; now left|].
  apply IH. intros b Hb. apply Hfg. now right.
Qed.

Lemma StronglySorted_ext_in {A : Type} (le1 le2 : A -> A -> Prop) (l : list A) :
  (forall a b, In a l -> In b l -> le1 a b -> le2 a b) ->
  StronglySorted le1 l -> StronglySorted le2 l.
Proof.
  intros Hext Hs. induction Hs as [|a l Hs IH Hall]; constructor.
  - apply IH. intros x y Hx Hy. apply Hext; now right.
  - rewrite Forall_forall in *. intros x Hx. apply Hext; [now left|now right|auto].
Qed.

(** Two orderings that agree on the rows admit the same arrangements. *)
Lemma order_by_ext_in {A : Type} (le1 le2 : A -> A -> Prop) (l out : list A) :
  (forall a b, In a l -> In b l -> (le1 a b <-> le2 a b)) ->
  (order_by le1 l out <-> order_by le2 l out).
Proof.
  intros Hext. unfold order_by.
  split; intros [Hp Hs]; (split; [exact Hp|]);
    (eapply StronglySorted_ext_in; [|exact Hs]);
    intros a b Ha Hb; apply Hext; now apply (Permutation_in _ (Permutation_sym Hp)).
Qed.

Lemma StronglySorted_map {A B : Type} (f : A -> B) (le : B -> B -> Prop) (l : list A) :
  StronglySorted (fun a b => le (f a) (f b)) l -> StronglySorted le (map f l).
Proof.
  induction 1 as [|a l Hs IH Hall]; simpl; constructor; [exact IH|].
  rewrite Forall_forall in *. intros y Hy. apply in_map_iff in Hy as [x [<- Hx]]. auto.
Qed.

Lemma StronglySorted_app_le {A : Type} (le : A -> A -> Prop) (front back : list A) :
  StronglySorted le (front ++ back) ->
  forall a b, In a front -> In b back -> le a b.
Proof.
  induction front as [|x front IH]; simpl; intros Hs a b Ha Hb; [easy|].
  apply StronglySorted_inv in Hs as [Hs Hall].
  destruct Ha as [->|Ha]; [|now apply IH].
  rewrite Forall_forall in Hall. apply Hall. apply in_or_app. now right.
Qed.

(** *** Orderings without ties *)

Lemma ForallOrdPairs_perm {A : Type} (R : A -> A -> Prop) (l l' : list A) :
  (forall a b, R a b -> R b a) ->
  Permutation l l' -> ForallOrdPairs R l -> ForallOrdPairs R l'.
Proof.
  intros Hsym Hp. induction Hp as [|x l l' Hp IH|x y l|l l' l'' _ IH1 _ IH2]; intros Hf.
  - constructor.
  - inversion Hf as [|? ? Hall Hf']; subst. constructor; [|now apply IH].
    exact (Permutation_Forall Hp Hall).
  - inversion Hf as [|? ? Hally Hf']; subst.
    inversion Hf' as [|? ? Hallx Hf'']; subst.
    inversion Hally as [|? ? Hyx Hyl]; subst.
    constructor; [constructor; [now apply Hsym|exact Hallx]|].
    constructor; [exact Hyl|exact Hf''].
  - auto.
Qed.

(** With no two rows tied, [ORDER BY] admits one arrangement only. *)
Lemma order_by_unique {A : Type} (le : A -> A -> Prop) (l s1 s2 : list A) :
  ForallOrdPairs (fun a b => ~ (le a b /\ le b a)) l ->
  order_by le l s1 -> order_by le l s2 -> s1 = s2.
Proof.
  intros Hfree [Hp1 Hs1] [Hp2 Hs2].
  assert (Hp : Permutation s1 s2) by (now rewrite <- Hp1).
  assert (Hfree1 : ForallOrdPairs (fun a b => ~ (le a b /\ le b a)) s1).
  { apply (ForallOrdPairs_perm _ l); [tauto|exact Hp1|exact Hfree]. }
  clear l Hfree Hp1 Hp2. revert s2 Hs2 Hp.
  induction Hs1 as [|a1 t1 Hs1 IH Hall1]; intros s2 Hs2 Hp.
  - apply Permutation_nil in Hp. now subst.
  - destruct s2 as [|a2 t2]; [symmetry in Hp; now apply Permutation_nil_cons in Hp|].
    inversion Hfree1 as [|? ? Hfa Hft]; subst.
    destruct (StronglySorted_inv Hs2) as [Hs2' Hall2].
    rewrite Forall_forall in Hall1, Hall2, Hfa.
    assert (Heq : a1 = a2).
    { assert (Hin1 : In a1 (a2 :: t2)) by (apply (Permutation_in _ Hp); now left).
      assert (Hin2 : In a2 (a1 :: t1))
        by (apply (Permutation_in _ (Permutation_sym Hp)); now left).
      destruct Hin1 as [Heq|Hin1]; [now symmetry|].
      destruct Hin2 as [Heq|Hin2]; [exact Heq|].
      exfalso. apply (Hfa a2 Hin2). split; auto. }
    subst a2. f_equal. apply IH; auto.
    now apply Permutation_cons_inv in Hp.
Qed.

Lemma no_ties_ForallOrdPairs {A K : Type} (same : K -> K -> bool) (key : A -> K)
  (R : A -> A -> Prop) (l : list A) :
  (forall a b, R a b -> same (key a) (key b) = true) ->
  no_ties same (map key l) = true ->
  ForallOrdPairs (fun a b => ~ R a b) l.
Proof.
  intros Hsame. induction l as [|a l IH]; simpl; intros Hn; constructor.
  - apply andb_true_iff in Hn as [Hn _]. rewrite forallb_forall in Hn.
    apply Forall_forall. intros b Hb HR.
    specialize (Hn (key b) (in_map key _ _ Hb)).
    rewrite (Hsame a b HR) in Hn. discriminate.
  - apply IH. now apply andb_true_iff in Hn as [_ Hn].
Qed.

(** *** Joins *)

Section Joins.
Context {L R : Type} (on : L -> R -> bool).

Definition join_block (rs : list R) (l : L) : list (joined L R) :=
  match filter (on l) rs with
  | [] => [LeftOnly l]
  | ms => map (fun r => Both l r) ms
  end.

Lemma full_outer_join_blocks (ls : list L) (rs : list R) :
  full_outer_join on ls rs
  = flat_map (join_block rs) ls
    ++ map RightOnly (filter (fun r => negb (existsb (fun l => on l r) ls)) rs).
Proof. reflexivity. Qed.

Lemma left_join_In (ls : list L) (rs : list R) (l : L) (o : option R) :
  In (l, o) (left_join on ls rs) ->
  In l ls /\ match o with
             | Some r => In r rs /\ on l r = true
             | None => forall r, In r rs -> on l r = false
             end.
Proof.
  unfold left_join. rewrite in_flat_map. intros [l0 [Hl0 Hin]].
  destruct (filter (on l0) rs) as [|m ms] eqn:Hf.
  - destruct Hin as [Heq|[]]. inversion Heq; subst. split; [exact Hl0|].
    intros r Hr. destruct (on l r) eqn:Hon; [|reflexivity].
    assert (Hx : In r (filter (on l) rs)) by (apply filter_In; auto).
    rewrite Hf in Hx. destruct Hx.
  - apply in_map_iff in Hin as [r [Heq Hr]]. inversion Heq; subst.
    rewrite <- Hf in Hr. apply filter_In in Hr. auto.
Qed.

Lemma left_join_once (ls : list L) (rs : list R) :
  (forall l, In l ls -> (List.length (filter (on l) rs) <= 1)%nat) ->
  map fst (left_join on ls rs) = ls.
Proof.
  unfold left_join. induction ls as [|l ls IH]; intros Hone; [reflexivity|].
  cbn [flat_map]. rewrite map_app, IH by (intros; apply Hone; now right).
  specialize (Hone l (or_introl eq_refl)).
  destruct (filter (on l) rs) as [|m [|m' ms]]; simpl in *; try reflexivity; lia.
Qed.

Lemma full_outer_join_In (ls : list L) (rs : list R) (j : joined L R) :
  In j (full_outer_join on ls rs) ->
  match j with
  | Both l r => In l ls /\ In r rs /\ on l r = true
  | LeftOnly l => In l ls /\ forall r, In r rs -> on l r = false
  | RightOnly r => In r rs /\ forall l, In l ls -> on l r = false
  end.
Proof.
  rewrite full_outer_join_blocks. intros Hin. apply in_app_or in Hin as [Hin|Hin].
  - apply in_flat_map in Hin as [l0 [Hl0 Hin]]. unfold join_block in Hin.
    destruct (filter (on l0) rs) as [|m ms] eqn:Hf.
    + destruct Hin as [<-|[]]. split; [exact Hl0|].
      intros r Hr. destruct (on l0 r) eqn:Hon; [|reflexivity].
      assert (Hx : In r (filter (on l0) rs)) by (apply filter_In; auto).
      rewrite Hf in Hx. destruct Hx.
    + apply in_map_iff in Hin as [r [<- Hr]].
      rewrite <- Hf in Hr. apply filter_In in Hr as [Hr Hon]. auto.
  - apply in_map_iff in Hin as [r [<- Hr]]. apply filter_In in Hr as [Hr Hno].
    split; [exact Hr|]. intros l Hl. apply negb_true_iff in Hno.
    destruct (on l r) eqn:Hon; [|reflexivity].
    assert (Hex : existsb (fun l => on l r) ls = true)
      by (apply existsb_exists; eauto).
    congruence.
Qed.

Lemma full_outer_join_perm_r (ls : list L) (rs rs' : list R) :
  Permutation rs rs' ->
  Permutation (full_outer_join on ls rs) (full_outer_join on ls rs').
Proof.
  intros Hp. rewrite !full_outer_join_blocks. apply Permutation_app.
  - apply Permutation_flat_map_pointwise. intros l _. unfold join_block.
    pose proof (Permutation_filter (on l) Hp) as Hf.
    destruct (filter (on l) rs) as [|m ms] eqn:E.
    + apply Permutation_nil in Hf. now rewrite Hf.
    + destruct (filter (on l) rs') as [|m' ms'] eqn:E'.
      * symmetry in Hf. apply Permutation_nil in Hf. discriminate.
      * now apply Permutation_map.
  - apply Permutation_map. now apply Permutation_filter.
Qed.

(** A join on equal keys, both sides without a repeated key. *)
Section KeyedJoins.
Context {K : Type} (kl : L -> K) (kr : R -> K).
Hypothesis on_key : forall l r, on l r = true <-> kl l = kr r.

Lemma join_block_key (rs : list R) (l : L) :
  NoDup (map kr rs) -> map (joined_key kl kr) (join_block rs l) = [kl l].
Proof.
  intros Hnd. unfold join_block.
  assert (Hone : (List.length (filter (on l) rs) <= 1)%nat).
  { apply (filter_at_most_one kr (on l) (kl l)); [exact Hnd|].
    intros r _ Hon. symmetry. now apply on_key. }
  destruct (filter (on l) rs) as [|m [|m' ms]]; simpl in *; try reflexivity; lia.
Qed.

Lemma full_outer_join_left_keys (ls : list L) (rs : list R) :
  NoDup (map kr rs) ->
  map (joined_key kl kr) (flat_map (join_block rs) ls) = map kl ls.
Proof.
  intros Hnd. induction ls as [|l ls IH]; [reflexivity|].
  cbn [flat_map map]. now rewrite map_app, join_block_key, IH.
Qed.

Lemma NoDup_map_filter {A : Type} (f : A -> K) (p : A -> bool) (l : list A) :
  NoDup (map f l) -> NoDup (map f (filter p l)).
Proof.
  induction l as [|a l IH]; simpl; intros Hnd; [constructor|].
  inversion Hnd as [|? ? Hnotin Hnd']; subst.
  destruct (p a); [|now apply IH].
  simpl. constructor; [|now apply IH].
  intros Hin. apply Hnotin. apply in_map_iff in Hin as [x [Hx Hxin]].
  apply filter_In in Hxin as [Hxin _]. rewrite <- Hx. now apply in_map.
Qed.

(** Every key occurs at most once in the joined rows. *)
Lemma full_outer_join_NoDup (ls : list L) (rs : list R) :
  NoDup (map kl ls) -> NoDup (map kr rs) ->
  NoDup (map (joined_key kl kr) (full_outer_join on ls rs)).
Proof.
  intros Hl Hr. rewrite full_outer_join_blocks, map_app, map_map.
  rewrite full_outer_join_left_keys by exact Hr. cbn [joined_key].
  apply NoDup_app.
  - exact Hl.
  - now apply NoDup_map_filter.
  - intros k Hkl Hkr.
    apply in_map_iff in Hkl as [l [<- Hlin]].
    apply in_map_iff in Hkr as [r [Heq Hrin]].
    apply filter_In in Hrin as [_ Hno]. apply negb_true_iff in Hno.
    assert (Hex : existsb (fun l0 => on l0 r) ls = true).
    { apply existsb_exists. exists l. split; [exact Hlin|]. now apply on_key. }
    congruence.
Qed.

(** Every row of either side is in the join. *)
Lemma full_outer_join_left_complete (ls : list L) (rs : list R) (l : L) :
  In l ls -> exists j, In j (full_outer_join on ls rs) /\ left_side j = Some l.
Proof.
  intros Hl. rewrite full_outer_join_blocks.
  assert (Hb : exists j, In j (join_block rs l) /\ left_side j = Some l).
  { unfold join_block. destruct (filter (on l) rs) as [|m ms].
    - exists (LeftOnly l). split; [now left|reflexivity].
    - exists (Both l m). split; [now left|reflexivity]. }
  destruct Hb as [j [Hj Hs]]. exists j. split; [|exact Hs].
  apply in_or_app. left. apply in_flat_map. eauto.
Qed.

Lemma full_outer_join_right_complete (ls : list L) (rs : list R) (r : R) :
  In r rs -> exists j, In j (full_outer_join on ls rs) /\ right_side j = Some r.
Proof.
  intros Hr. rewrite full_outer_join_blocks.
  destruct (existsb (fun l => on l r) ls) eqn:Hex.
  - apply existsb_exists in Hex as [l [Hl Hon]].
    exists (Both l r). split; [|reflexivity].
    apply in_or_app. left. apply in_flat_map. exists l. split; [exact Hl|].
    unfold join_block.
    assert (Hin : In r (filter (on l) rs)) by (apply filter_In; auto).
    destruct (filter (on l) rs) as [|m ms]; [destruct Hin|].
    now apply in_map.
  - exists (RightOnly r). split; [|reflexivity].
    apply in_or_app. right. apply in_map. apply filter_In. now rewrite Hex.
Qed.

End KeyedJoins.

End Joins.

(** *** Nullable sort keys *)

Lemma asc_nulls_lastb_le (a b : option Q) :
  asc_nulls_lastb a b = true -> asc_nulls_last a b.
Proof.
  destruct a, b; simpl; try easy. apply Qle_bool_imp_le.
Qed.

Lemma asc_nulls_lastb_total (a b : option Q) :
  asc_nulls_lastb a b = false -> asc_nulls_last b a.
Proof.
  destruct a as [x|], b as [y|]; simpl; try easy.
  intros Hf. destruct (Qlt_le_dec y x) as [Hlt|Hle].
  - now apply Qlt_le_weak.
  - apply Qle_bool_iff in Hle. congruence.
Qed.

Lemma asc_nulls_last_trans (a b c : option Q) :
  asc_nulls_last a b -> asc_nulls_last b c -> asc_nulls_last a c.
Proof.
  destruct a, b, c; simpl; try easy. apply Qle_trans.
Qed.

End PgFacts.

(** ** Text search *)

Module TextSearchFacts.
Import TextSearch.

(** A blank text holds no lexeme, whatever the dictionary. *)
Lemma plainto_tsquery_blank `{Operators} (s : string) :
  is_blank s = true -> plainto_tsquery s = [].
Proof.
  intros Hb. unfold plainto_tsquery, lexemes. now rewrite (parse_blank s Hb).
Qed.

Lemma ts_match_matching_tokens (doc : tsvector) (query : tsquery) :
  ts_match doc query = true -> (0 < matching_tokens doc query)%nat.
Proof.
  unfold ts_match, matching_tokens. destruct query as [|lx rest]; [discriminate|].
  intros Hall. rewrite forallb_filter_id by exact Hall. simpl. lia.
Qed.

End TextSearchFacts.

(** ** The specification's normalisation *)

Module SpecFacts.

Lemma max_relevance_nonneg (candidates : list Q) : (0 <= Spec.max_relevance candidates)%Q.
Proof.
  induction candidates as [|x l IH]; simpl; [apply Qle_refl|].
  destruct (Qle_bool (Spec.max_relevance l) x) eqn:Hle; [|exact IH].
  apply Qle_bool_iff in Hle. now apply Qle_trans with (Spec.max_relevance l).
Qed.

Lemma max_relevance_ge (candidates : list Q) (x : Q) :
  In x candidates -> (x <= Spec.max_relevance candidates)%Q.
Proof.
  induction candidates as [|y l IH]; simpl; [easy|].
  intros [->|Hin]; destruct (Qle_bool (Spec.max_relevance l) x) eqn:Hle.
  - apply Qle_refl.
  - destruct (Qlt_le_dec x (Spec.max_relevance l)) as [Hlt|Hge].
    + now apply Qlt_le_weak.
    + apply Qle_bool_iff in Hge. congruence.
  - destruct (Qle_bool (Spec.max_relevance l) y) eqn:Hy.
    + apply Qle_bool_iff in Hy. apply Qle_trans with (Spec.max_relevance l); auto.
    + auto.
  - destruct (Qle_bool (Spec.max_relevance l) y) eqn:Hy.
    + apply Qle_bool_iff in Hy. apply Qle_trans with (Spec.max_relevance l); auto.
    + auto.
Qed.

(** Dividing by the maximum keeps the order of relevances that are not
    negative and do not exceed it. *)
Lemma normalized_relevance_order (candidates : list Q) (x y : Q) :
  (0 <= x <= Spec.max_relevance candidates)%Q ->
  (0 <= y <= Spec.max_relevance candidates)%Q ->
  ((Spec.normalized_relevance candidates x <= Spec.normalized_relevance candidates y)%Q
   <-> (x <= y)%Q).
Proof.
  intros [Hx Hxm] [Hy Hym]. unfold Spec.normalized_relevance.
  pose proof (max_relevance_nonneg candidates) as Hm.
  destruct (Qeq_bool (Spec.max_relevance candidates) 0) eqn:Hz.
  - apply Qeq_bool_iff in Hz. split; intros _; [lra|apply Qle_refl].
  - assert (Hpos : (0 < Spec.max_relevance candidates)%Q).
    { destruct (Qlt_le_dec 0 (Spec.max_relevance candidates)) as [Hlt|Hle]; [exact Hlt|].
      assert (Heq : (Spec.max_relevance candidates == 0)%Q) by lra.
      apply Qeq_bool_iff in Heq. congruence. }
    unfold Qdiv. apply Qmult_le_r. now apply Qinv_lt_0_compat.
Qed.

End SpecFacts.

(** ** [hybrid_search_fm_global] of [sql/fix_fm_functions.sql] *)

Module FixFmFacts.
Import Pg TextSearch FixFm PgFacts.

Lemma by_score_descb_le (a b : combined_row) :
  by_score_descb a b = true -> by_score_desc a b.
Proof. apply Qle_bool_imp_le. Qed.

Lemma by_score_descb_total (a b : combined_row) :
  by_score_descb a b = false -> by_score_desc b a.
Proof.
  unfold by_score_descb, by_score_desc. intros Hf.
  destruct (Qlt_le_dec (c_score a) (c_score b)) as [Hlt|Hle].
  - now apply Qlt_le_weak.
  - apply Qle_bool_iff in Hle. congruence.
Qed.

Lemma by_score_desc_trans (a b c : combined_row) :
  by_score_desc a b -> by_score_desc b c -> by_score_desc a c.
Proof. unfold by_score_desc. intros Hab Hbc. now apply Qle_trans with (c_score b). Qed.

Lemma limits_valid (match_count : Z) (n2 n : N) :
  limits match_count = inr (n2, n) ->
  0 <= match_count /\ n = Z.to_N match_count /\ n2 = Z.to_N (match_count * 2)
  /\ match_count * 2 <= int4_max.
Proof.
  unfold limits, limit_count, int4_mul.
  destruct ((int4_min <=? match_count * 2) && (match_count * 2 <=? int4_max)) eqn:Hr;
    [|discriminate].
  destruct (match_count <? 0) eqn:Hneg; [discriminate|].
  destruct (match_count * 2 <? 0) eqn:Hneg2; [discriminate|].
  intros Heq. inversion Heq; subst.
  apply andb_true_iff in Hr as [_ Hr]. lia.
Qed.

Lemma limits_of_valid (match_count : Z) :
  0 <= match_count -> match_count * 2 <= int4_max ->
  limits match_count = inr (Z.to_N (match_count * 2), Z.to_N match_count).
Proof.
  intros Hlo Hhi. unfold limits, limit_count, int4_mul, int4_min.
  replace ((-2147483648 <=? match_count * 2) && (match_count * 2 <=? int4_max))
    with true by lia.
  replace (match_count <? 0) with false by lia.
  now replace (match_count * 2 <? 0) with false by lia.
Qed.

(** The columns of the query of [hybrid_search_fm_global] are not the
    declared ones: the seventh, [text_similarity], is [real] where
    [double precision] is declared. *)
Lemma result_types_differ : columns_match declared_result query_result = false.
Proof. reflexivity. Qed.

Lemma seventh_column_differs :
  nth 6 declared_result TText = TFloat8 /\ nth 6 query_result TText = TFloat4.
Proof. split; reflexivity. Qed.

Section Facts.
Context `{Operators}.
Variable db : database.
Variable query_embedding : vector.
Variable query_text : string.
Variable text_weight : Q.
Variable filter_asrs_type : option string.

Lemma vector_results_exec_admissible (n : N) :
  vector_results db query_embedding filter_asrs_type n
    (vector_results_exec db query_embedding filter_asrs_type n).
Proof.
  eexists. split; [|reflexivity].
  apply sort_rows_order_by; unfold by_distance, by_distanceb; intros.
  - now apply asc_nulls_lastb_le.
  - now apply asc_nulls_lastb_total.
  - eapply asc_nulls_last_trans; eauto.
Qed.

Lemma text_results_exec_admissible (n : N) :
  text_results db query_text filter_asrs_type n
    (text_results_exec db query_text filter_asrs_type n).
Proof. eexists. split; [apply Permutation_refl|reflexivity]. Qed.

(** The run is one of the outcomes of the call. *)
Lemma exec_admissible (match_count : Z) :
  hybrid_query db query_embedding query_text match_count text_weight
    filter_asrs_type
    (hybrid_query_exec db query_embedding query_text match_count
       text_weight filter_asrs_type).
Proof.
  unfold hybrid_query_exec.
  destruct (limits match_count) as [e|[n2 n]] eqn:Hl.
  - now apply query_raised.
  - destruct (N.eqb_spec n 0) as [Hn|Hn];
      [|destruct (dimensions_agree db query_embedding filter_asrs_type) eqn:Hd];
      cbn [negb andb].
    + eapply query_rows; eauto using vector_results_exec_admissible,
        text_results_exec_admissible.
      apply sort_rows_order_by.
      * apply by_score_descb_le.
      * apply by_score_descb_total.
      * apply by_score_desc_trans.
    + eapply query_rows; eauto using vector_results_exec_admissible,
        text_results_exec_admissible.
      apply sort_rows_order_by.
      * apply by_score_descb_le.
      * apply by_score_descb_total.
      * apply by_score_desc_trans.
    + now apply (query_dimensions _ _ _ _ _ _ n2 n).
Qed.

(** The function raises on every call: "integer out of range" when
    [match_count * 2] leaves the [int] range, and the mismatch of its
    result columns otherwise. *)
Lemma function_raises (match_count : Z) (o : outcome hybrid_row) :
  FixFm.hybrid_search_fm_global db query_embedding query_text match_count text_weight
    filter_asrs_type o
  <-> o = Raised (if (int4_min <=? match_count * 2) && (match_count * 2 <=? int4_max)
                  then DatatypeMismatch else IntegerOutOfRange).
Proof.
  unfold FixFm.hybrid_search_fm_global, int4_mul, return_query.
  rewrite result_types_differ.
  now destruct ((int4_min <=? match_count * 2) && (match_count * 2 <=? int4_max)).
Qed.

Lemma function_exec_admissible (match_count : Z) :
  FixFm.hybrid_search_fm_global db query_embedding query_text match_count text_weight
    filter_asrs_type
    (FixFm.hybrid_search_fm_global_exec db query_embedding query_text match_count
       text_weight filter_asrs_type).
Proof.
  apply function_raises. unfold FixFm.hybrid_search_fm_global_exec, int4_mul.
  rewrite result_types_differ.
  now destruct ((int4_min <=? match_count * 2) && (match_count * 2 <=? int4_max)).
Qed.

Lemma from_clause_In (j : source_row) :
  In j (from_clause db) -> In (src_v j) (fm_global_vectors db).
Proof.
  destruct j as [[v t] f]. unfold from_clause. intros Hin.
  apply left_join_In in Hin as [Hin _]. now apply left_join_In in Hin as [Hin _].
Qed.

Lemma vector_results_In (n : N) (vrs : list vector_results_row) (r : vector_results_row) :
  vector_results db query_embedding filter_asrs_type n vrs -> In r vrs ->
  exists j, In j (from_clause db) /\ asrs_filter filter_asrs_type j = true
            /\ r = select_vector_result query_embedding j.
Proof.
  intros [sorted [[Hperm _] ->]] Hin.
  apply limit_rows_In, in_map_iff in Hin as [j [<- Hj]].
  apply (Permutation_in _ (Permutation_sym Hperm)), filter_In in Hj as [Hj Hf].
  eauto.
Qed.

Lemma text_results_In (n : N) (trs : list text_results_row) (r : text_results_row) :
  text_results db query_text filter_asrs_type n trs -> In r trs ->
  exists j, In j (from_clause db) /\ text_matches query_text j = true
            /\ asrs_filter filter_asrs_type j = true
            /\ r = select_text_result query_text j.
Proof.
  intros [scanned [Hperm ->]] Hin.
  apply limit_rows_In, in_map_iff in Hin as [j [<- Hj]].
  apply (Permutation_in _ (Permutation_sym Hperm)), filter_In in Hj as [Hj Hf].
  apply andb_true_iff in Hf as [Hm Hf]. eauto 6.
Qed.

(** The vector score of a candidate is 1 minus the distance of a stored
    embedding, or NULL when the stored row has no embedding. *)
Lemma vector_score_origin (n : N) (vrs : list vector_results_row) (l : vector_results_row) :
  vector_results db query_embedding filter_asrs_type n vrs -> In l vrs ->
  exists v, In v (fm_global_vectors db) /\ vr_id l = v_id v
    /\ vr_vector_score l
       = option_map (fun e => 1 - cosine_distance e query_embedding)%Q (v_embedding v).
Proof.
  intros Hv Hin. destruct (vector_results_In _ _ _ Hv Hin) as (j & Hj & _ & ->).
  exists (src_v j). split; [now apply from_clause_In|]. split; [reflexivity|].
  unfold select_vector_result, distance; simpl. now destruct (v_embedding (src_v j)).
Qed.

(** The text score of a candidate is the rank of a stored row that matches
    the query. *)
Lemma text_score_origin (n : N) (trs : list text_results_row) (t : text_results_row) :
  text_results db query_text filter_asrs_type n trs -> In t trs ->
  exists v, In v (fm_global_vectors db) /\ tr_id t = v_id v
    /\ tr_content t = v_content v
    /\ ts_match (to_tsvector (v_content v)) (plainto_tsquery query_text) = true
    /\ tr_text_score t = ts_rank (to_tsvector (v_content v)) (plainto_tsquery query_text).
Proof.
  intros Ht Hin. destruct (text_results_In _ _ _ Ht Hin) as (j & Hj & Hm & _ & ->).
  exists (src_v j). split; [now apply from_clause_In|]. auto.
Qed.

(** No row matches a blank query text: its lexical candidate set is empty. *)
Lemma text_results_blank (n : N) (trs : list text_results_row) :
  is_blank query_text = true ->
  text_results db query_text filter_asrs_type n trs -> trs = [].
Proof.
  intros Hb [scanned [Hp ->]].
  assert (Hnone : forall l, filter (fun j => text_matches query_text j
                                             && asrs_filter filter_asrs_type j) l = []).
  { induction l as [|j l IH]; [reflexivity|]. simpl.
    unfold text_matches at 1. rewrite (TextSearchFacts.plainto_tsquery_blank _ Hb).
    simpl. exact IH. }
  rewrite Hnone in Hp. apply Permutation_nil in Hp. subst scanned.
  now destruct n.
Qed.

(** *** Primary keys

    With [id] a key of the two referenced tables, the left joins neither
    repeat nor drop a row of [fm_global_vectors]. *)
Lemma from_clause_vectors :
  NoDup (map t_id (fm_global_tables db)) ->
  NoDup (map f_id (fm_global_figures db)) ->
  map src_v (from_clause db) = fm_global_vectors db.
Proof.
  intros Ht Hf. unfold from_clause.
  rewrite <- (left_join_once on_table (fm_global_vectors db) (fm_global_tables db)) at 2.
  - rewrite <- (left_join_once on_figure
                  (left_join on_table (fm_global_vectors db) (fm_global_tables db))
                  (fm_global_figures db)) at 2.
    + now rewrite map_map.
    + intros vt _.
      apply (filter_at_most_one f_id (on_figure vt)
               (coalesce_lit (v_content_id (fst vt)) 0%N)); [exact Hf|].
      intros f _ Hon. unfold on_figure in Hon. apply andb_true_iff in Hon as [Hon _].
      destruct (v_content_id (fst vt)); [|discriminate]. simpl in *.
      symmetry. now apply N.eqb_eq.
  - intros v _.
    apply (filter_at_most_one t_id (on_table v) (coalesce_lit (v_content_id v) 0%N));
      [exact Ht|].
    intros t _ Hon. unfold on_table in Hon. apply andb_true_iff in Hon as [Hon _].
    destruct (v_content_id v); [|discriminate]. simpl in *.
    symmetry. now apply N.eqb_eq.
Qed.

Lemma source_ids_NoDup (p : source_row -> bool) :
  NoDup (map v_id (fm_global_vectors db)) ->
  NoDup (map t_id (fm_global_tables db)) ->
  NoDup (map f_id (fm_global_figures db)) ->
  NoDup (map (fun j => v_id (src_v j)) (filter p (from_clause db))).
Proof.
  intros Hv Ht Hf. apply NoDup_map_filter.
  rewrite <- (map_map src_v v_id), from_clause_vectors by assumption. exact Hv.
Qed.

Lemma vector_results_NoDup (n : N) (vrs : list vector_results_row) :
  NoDup (map v_id (fm_global_vectors db)) ->
  NoDup (map t_id (fm_global_tables db)) ->
  NoDup (map f_id (fm_global_figures db)) ->
  vector_results db query_embedding filter_asrs_type n vrs ->
  NoDup (map vr_id vrs).
Proof.
  intros Hv Ht Hf [sorted [[Hp _] ->]].
  rewrite <- limit_rows_map. apply limit_rows_NoDup. rewrite map_map. simpl.
  apply (Permutation_NoDup (Permutation_map _ Hp)).
  now apply source_ids_NoDup.
Qed.

Lemma text_results_NoDup (n : N) (trs : list text_results_row) :
  NoDup (map v_id (fm_global_vectors db)) ->
  NoDup (map t_id (fm_global_tables db)) ->
  NoDup (map f_id (fm_global_figures db)) ->
  text_results db query_text filter_asrs_type n trs ->
  NoDup (map tr_id trs).
Proof.
  intros Hv Ht Hf [scanned [Hp ->]].
  rewrite <- limit_rows_map. apply limit_rows_NoDup. rewrite map_map. simpl.
  apply (Permutation_NoDup (Permutation_map _ Hp)).
  now apply source_ids_NoDup.
Qed.

Lemma on_id_key (v : vector_results_row) (t : text_results_row) :
  on_id v t = true <-> vr_id v = tr_id t.
Proof. apply N.eqb_eq. Qed.

(** *** Calls without ties *)

Lemma distance_tie_same_key (a b : source_row) :
  by_distance query_embedding a b /\ by_distance query_embedding b a ->
  same_key (distance query_embedding a) (distance query_embedding b) = true.
Proof.
  unfold by_distance.
  destruct (distance query_embedding a) as [x|], (distance query_embedding b) as [y|];
    simpl; try tauto.
  intros [Hxy Hyx]. apply Qeq_bool_iff. now apply Qle_antisym.
Qed.

Lemma score_tie_same_key (a b : combined_row) :
  by_score_desc a b /\ by_score_desc b a -> Qeq_bool (c_score a) (c_score b) = true.
Proof.
  unfold by_score_desc. intros [Hab Hba]. apply Qeq_bool_iff. now apply Qle_antisym.
Qed.

Lemma order_by_perm {A : Type} (le : A -> A -> Prop) (l l' out : list A) :
  Permutation l l' -> order_by le l out -> order_by le l' out.
Proof. intros Hp [Hp' Hs]. split; [now rewrite <- Hp|exact Hs]. Qed.

(** Without ties among the distances, the vector candidates are those of
    the run. *)
Lemma vector_results_unique (n : N) (vrs : list vector_results_row) :
  no_ties same_key
    (map (distance query_embedding)
       (filter (asrs_filter filter_asrs_type) (from_clause db))) = true ->
  vector_results db query_embedding filter_asrs_type n vrs ->
  vrs = vector_results_exec db query_embedding filter_asrs_type n.
Proof.
  intros Hfree [sorted [Hord ->]].
  destruct (vector_results_exec_admissible n) as [sorted' [Hord' Heq]].
  rewrite Heq. f_equal. f_equal.
  eapply order_by_unique; [|exact Hord|exact Hord'].
  eapply no_ties_ForallOrdPairs; [|exact Hfree].
  apply distance_tie_same_key.
Qed.

(** When the limit cuts nothing off, the lexical candidates are those of
    the run, in some order. *)
Lemma text_results_perm (n : N) (trs : list text_results_row) :
  (N.of_nat (List.length
     (filter (fun j => text_matches query_text j && asrs_filter filter_asrs_type j)
        (from_clause db))) <= n)%N ->
  text_results db query_text filter_asrs_type n trs ->
  Permutation (text_results_exec db query_text filter_asrs_type n) trs.
Proof.
  intros Hlen [scanned [Hp ->]]. unfold text_results_exec.
  rewrite !limit_rows_all.
  - now apply Permutation_map.
  - rewrite length_map, <- (Permutation_length Hp). lia.
  - rewrite length_map. lia.
Qed.

Lemma match_exec_admissible_fix (filter_source_type : option string) (match_count : Z) :
  match_fm_global_vectors db query_embedding filter_asrs_type filter_source_type
    match_count
    (match_fm_global_vectors_exec db query_embedding filter_asrs_type filter_source_type
       match_count).
Proof.
  unfold match_fm_global_vectors_exec.
  destruct (limit_count match_count) as [e|n] eqn:Hl.
  - now apply match_raised.
  - eapply match_rows; [exact Hl| |apply Permutation_refl].
    apply sort_rows_order_by; intros.
    + now apply asc_nulls_lastb_le.
    + now apply asc_nulls_lastb_total.
    + eapply asc_nulls_last_trans; eauto.
Qed.

End Facts.

End FixFmFacts.

(** ** The functions of the expert-system schema *)

Module ExpertSchemaFacts.
Import Pg TextSearch ExpertSchema PgFacts.

Section Facts.
Context `{Operators}.
Variable db : database.
Variable query_embedding : vector.
Variable query_text : string.
Variable text_weight : Q.
Variable asrs_topic_filter : option string.

Lemma expert_from_clause_In (j : source_row) :
  In j (from_clause db) -> In (src_v j) (fm_global_vectors db).
Proof.
  destruct j as [[v t] f]. unfold from_clause. intros Hin.
  apply left_join_In in Hin as [Hin _]. now apply left_join_In in Hin as [Hin _].
Qed.

Lemma expert_by_score_descb_le (a b : hybrid_row) :
  by_score_descb a b = true -> by_score_desc a b.
Proof. apply Qle_bool_imp_le. Qed.

Lemma expert_by_score_descb_total (a b : hybrid_row) :
  by_score_descb a b = false -> by_score_desc b a.
Proof.
  unfold by_score_descb, by_score_desc. intros Hf.
  destruct (Qlt_le_dec (combined_score a) (combined_score b)) as [Hlt|Hle].
  - now apply Qlt_le_weak.
  - apply Qle_bool_iff in Hle. congruence.
Qed.

Lemma expert_by_score_desc_trans (a b c : hybrid_row) :
  by_score_desc a b -> by_score_desc b c -> by_score_desc a c.
Proof.
  unfold by_score_desc. intros Hab Hbc. now apply Qle_trans with (combined_score b).
Qed.

Lemma expert_exec_admissible (match_count : Z) :
  hybrid_search_fm_global db query_embedding query_text text_weight asrs_topic_filter
    match_count
    (hybrid_search_fm_global_exec db query_embedding query_text text_weight
       asrs_topic_filter match_count).
Proof.
  assert (Hsort : order_by by_score_desc
                    (joined_results db query_embedding query_text text_weight
                       asrs_topic_filter)
                    (sort_rows by_score_descb
                       (joined_results db query_embedding query_text text_weight
                          asrs_topic_filter))).
  { apply sort_rows_order_by.
    - apply expert_by_score_descb_le.
    - apply expert_by_score_descb_total.
    - apply expert_by_score_desc_trans. }
  unfold hybrid_search_fm_global_exec.
  destruct (limit_count match_count) as [e|n] eqn:Hl.
  - now apply hybrid_raised.
  - destruct (N.eqb_spec n 0) as [Hn|Hn];
      [|destruct (dimensions_agree query_embedding
                    (vector_candidates db asrs_topic_filter)) eqn:Hd];
      cbn [negb andb].
    + apply hybrid_rows; auto.
    + apply hybrid_rows; auto.
    + now apply (hybrid_dimensions _ _ _ _ _ _ n).
Qed.

Lemma expert_hybrid_rows_inv (match_count : Z) (out : list hybrid_row) :
  hybrid_search_fm_global db query_embedding query_text text_weight asrs_topic_filter
    match_count (Rows out) ->
  exists n ranked,
    limit_count match_count = inr n
    /\ order_by by_score_desc
         (joined_results db query_embedding query_text text_weight asrs_topic_filter)
         ranked
    /\ out = limit_rows n ranked.
Proof.
  intros Hh. inversion Hh as [n ranked Hn _ Hord Heq| |]; subst. now exists n, ranked.
Qed.

Lemma stored_dimensions_candidates (rows : list source_row) :
  forallb (fun v => same_dimension query_embedding (v_embedding v))
    (fm_global_vectors db) = true ->
  (forall j, In j rows -> In j (from_clause db)) ->
  dimensions_agree query_embedding rows = true.
Proof.
  intros Hall Hsub. unfold dimensions_agree. rewrite forallb_forall in *.
  intros j Hj. apply Hall. now apply expert_from_clause_In, Hsub.
Qed.

Lemma match_exec_admissible (match_count : Z) (topic source_type_filter : option string) :
  match_fm_global_vectors db query_embedding match_count topic source_type_filter
    (match_fm_global_vectors_exec db query_embedding match_count topic source_type_filter).
Proof.
  set (candidates := filter (match_where topic source_type_filter) (from_clause db)).
  assert (Hsort : order_by (by_distance query_embedding) candidates
                    (sort_rows (by_distanceb query_embedding) candidates)).
  { apply sort_rows_order_by; unfold by_distance, by_distanceb; intros.
    - now apply asc_nulls_lastb_le.
    - now apply asc_nulls_lastb_total.
    - eapply asc_nulls_last_trans; eauto. }
  unfold match_fm_global_vectors_exec. fold candidates. cbv zeta.
  destruct (limit_count match_count) as [e|n] eqn:Hl.
  - now apply match_raised.
  - destruct (N.eqb_spec n 0) as [Hn|Hn];
      [|destruct (dimensions_agree query_embedding candidates) eqn:Hd];
      cbn [negb andb].
    + apply (match_rows _ _ _ _ _ n candidates []); auto.
      now rewrite app_nil_r.
    + apply (match_rows _ _ _ _ _ n candidates []); auto.
      now rewrite app_nil_r.
    + apply (match_dimensions _ _ _ _ _ n); auto.
      destruct (forallb _ (fm_global_vectors db)) eqn:Hall; [|reflexivity].
      rewrite stored_dimensions_candidates in Hd; [discriminate|exact Hall|].
      intros j Hj. now apply filter_In in Hj.
Qed.

Lemma match_rows_inv (match_count : Z) (topic source_type_filter : option string)
  (out : list match_row) :
  match_fm_global_vectors db query_embedding match_count topic source_type_filter
    (Rows out) ->
  exists n scanned skipped sorted,
    limit_count match_count = inr n
    /\ Permutation (filter (match_where topic source_type_filter) (from_clause db))
         (scanned ++ skipped)
    /\ order_by (by_distance query_embedding) scanned sorted
    /\ out = limit_rows n (map (select_match query_embedding) sorted).
Proof.
  intros Hm. inversion Hm as [n scanned skipped sorted Hn Hp _ Hord Heq| |]; subst.
  now exists n, scanned, skipped, sorted.
Qed.

Lemma expert_hybrid_row_In (match_count : Z) (out : list hybrid_row) (r : hybrid_row) :
  hybrid_search_fm_global db query_embedding query_text text_weight asrs_topic_filter
    match_count (Rows out) ->
  In r out ->
  exists j,
    In j (full_outer_join on_id (vector_results db query_embedding asrs_topic_filter)
            (text_results db query_text asrs_topic_filter))
    /\ r = select_hybrid text_weight j.
Proof.
  intros Hh Hin. inversion Hh as [n ranked _ _ [Hp _] Heq| |]; subst.
  apply limit_rows_In in Hin. apply (Permutation_in _ (Permutation_sym Hp)) in Hin.
  apply in_map_iff in Hin as [j [<- Hj]]. eauto.
Qed.

Lemma vector_sim_origin (l : vector_results_row) :
  In l (vector_results db query_embedding asrs_topic_filter) ->
  exists v e, In v (fm_global_vectors db) /\ vr_id l = v_id v
    /\ v_embedding v = Some e
    /\ vr_vector_sim l = Some (1 - cosine_distance e query_embedding)%Q.
Proof.
  unfold vector_results, vector_candidates. intros Hin.
  apply in_map_iff in Hin as [j [<- Hj]].
  apply filter_In in Hj as [Hj Hf]. apply andb_true_iff in Hf as [He _].
  unfold has_embedding in He. destruct (v_embedding (src_v j)) as [e|] eqn:Hemb;
    [|discriminate].
  exists (src_v j), e. split; [now apply expert_from_clause_In|].
  unfold select_vector_result, similarity, distance; simpl. now rewrite Hemb.
Qed.

Lemma text_sim_origin (t : text_results_row) :
  In t (text_results db query_text asrs_topic_filter) ->
  exists v, In v (fm_global_vectors db) /\ tr_id t = v_id v
    /\ tr_content t = v_content v
    /\ ts_match (to_tsvector (v_content v)) (plainto_tsquery query_text) = true
    /\ tr_text_sim t = ts_rank_cd (to_tsvector (v_content v)) (plainto_tsquery query_text).
Proof.
  unfold text_results. intros Hin. apply in_map_iff in Hin as [j [<- Hj]].
  apply filter_In in Hj as [Hj Hf]. apply andb_true_iff in Hf as [Hm _].
  exists (src_v j). split; [now apply expert_from_clause_In|]. auto.
Qed.

Lemma expert_hybrid_row_scores (match_count : Z) (out : list hybrid_row) (r : hybrid_row) :
  hybrid_search_fm_global db query_embedding query_text text_weight asrs_topic_filter
    match_count (Rows out) ->
  In r out ->
  combined_score r
  = (vector_similarity r * (1 - text_weight) + text_similarity r * text_weight)%Q
  /\ (vector_similarity r = 0%Q
      \/ exists v e, In v (fm_global_vectors db) /\ v_id v = vector_id r
           /\ v_embedding v = Some e
           /\ vector_similarity r = (1 - cosine_distance e query_embedding)%Q)
  /\ (text_similarity r = 0%Q
      \/ exists v, In v (fm_global_vectors db) /\ v_id v = vector_id r
           /\ text_similarity r
              = ts_rank_cd (to_tsvector (v_content v)) (plainto_tsquery query_text)).
Proof.
  intros Hh Hin.
  destruct (expert_hybrid_row_In _ _ _ Hh Hin) as (j & Hj & ->).
  apply full_outer_join_In in Hj.
  split; [now destruct j|]. split.
  - destruct j as [l t|l|t]; simpl; [| |now left].
    all: destruct Hj as [Hl _];
      destruct (vector_sim_origin _ Hl) as (v & e & Hvin & Hid & He & Hs);
      rewrite Hs; simpl; right; exists v, e; auto.
  - destruct j as [l t|l|t]; simpl; [|now left|].
    + destruct Hj as (_ & Htin & Hon). apply N.eqb_eq in Hon.
      destruct (text_sim_origin _ Htin) as (v & Hvin & Hid & _ & _ & Hs).
      right. exists v. rewrite Hon. auto.
    + destruct Hj as [Htin _].
      destruct (text_sim_origin _ Htin) as (v & Hvin & Hid & _ & _ & Hs).
      right. exists v. auto.
Qed.

End Facts.

End ExpertSchemaFacts.

(** ** [search_fm_global_all] *)

Module UnifiedFacts.
Import Pg TextSearch Unified PgFacts.

Section Facts.
Context `{Operators}.
Variable db : database.
Variable query_embedding : vector.

Lemma search_exec_admissible (query_text : string) (match_count : Z) :
  search_fm_global_all db query_embedding query_text match_count
    (search_fm_global_all_exec db query_embedding query_text match_count).
Proof.
  assert (Hsort : order_by by_similarity_desc (all_results db query_embedding)
                    (sort_rows by_similarity_descb (all_results db query_embedding))).
  { apply sort_rows_order_by; unfold by_similarity_desc, by_similarity_descb; intros.
    - now apply asc_nulls_lastb_le.
    - now apply asc_nulls_lastb_total.
    - eapply asc_nulls_last_trans; eauto. }
  unfold search_fm_global_all_exec.
  destruct (limit_count match_count) as [e|n] eqn:Hl.
  - now apply search_raised.
  - destruct (N.eqb_spec n 0) as [Hn|Hn];
      [|destruct (dimensions_agree db query_embedding) eqn:Hd]; cbn [negb andb].
    + apply search_rows; auto.
    + apply search_rows; auto.
    + now apply (search_dimensions _ _ _ _ n).
Qed.

Lemma search_rows_inv (query_text : string) (match_count : Z) (out : list result_row) :
  search_fm_global_all db query_embedding query_text match_count (Rows out) ->
  exists n ranked,
    limit_count match_count = inr n
    /\ order_by by_similarity_desc (all_results db query_embedding) ranked
    /\ out = limit_rows n ranked.
Proof.
  intros Hs. inversion Hs as [n ranked Hn _ Hord Heq| |]; subst. now exists n, ranked.
Qed.

Lemma search_row_In (query_text : string) (match_count : Z) (out : list result_row)
  (r : result_row) :
  search_fm_global_all db query_embedding query_text match_count (Rows out) ->
  In r out -> In r (all_results db query_embedding).
Proof.
  intros Hs Hin. inversion Hs as [n ranked _ _ [Hp _] Heq| |]; subst.
  apply limit_rows_In in Hin. now apply (Permutation_in _ (Permutation_sym Hp)).
Qed.

Lemma is_not_null_Some {A : Type} (x : option A) :
  is_not_null x = true -> exists a, x = Some a.
Proof. destruct x; [eauto|discriminate]. Qed.

(** *** Record identity across the three tables *)

Lemma tagged_ids_NoDup {A : Type} (table : string) (id : A -> uuid) (l : list A) :
  NoDup (map id l) -> NoDup (map (fun a => (table, id a)) l).
Proof.
  intros Hnd. rewrite <- (map_map id (fun i => (table, i))).
  apply Finite.Injective_map_NoDup; [|exact Hnd].
  intros x y Heq. now inversion Heq.
Qed.

Lemma all_results_NoDup :
  NoDup (map c_id (fm_text_chunks db)) ->
  NoDup (map tv_id (fm_table_vectors db)) ->
  NoDup (map v_id (fm_global_vectors db)) ->
  NoDup (map record_identity (all_results db query_embedding)).
Proof.
  intros Hc Ht Hv. unfold all_results, chunk_results, table_results, vector_results.
  rewrite !map_app, !map_map. unfold record_identity. simpl.
  apply NoDup_app; [|apply NoDup_app|].
  - apply (tagged_ids_NoDup "fm_text_chunks" c_id). now apply NoDup_map_filter.
  - apply (tagged_ids_NoDup "fm_table_vectors" tv_id). now apply NoDup_map_filter.
  - apply (tagged_ids_NoDup "fm_global_vectors" v_id). now apply NoDup_map_filter.
  - intros k Hk1 Hk2. apply in_map_iff in Hk1 as [x [<- _]].
    apply in_map_iff in Hk2 as [y [Heq _]]. discriminate Heq.
  - intros k Hk1 Hk2. apply in_map_iff in Hk1 as [x [<- _]].
    apply in_app_or in Hk2 as [Hk2|Hk2]; apply in_map_iff in Hk2 as [y [Heq _]];
      discriminate Heq.
Qed.

End Facts.

End UnifiedFacts.


(** ** Shared facts *)

Module MoreFacts.
Import Pg PgFacts.

Lemma NoDup_map_same {A K : Type} (key : A -> K) (l : list A) (a b : A) :
  NoDup (map key l) -> In a l -> In b l -> key a = key b -> a = b.
Proof.
  induction l as [|x l IH]; simpl; intros Hnd Ha Hb Hk; [easy|].
  inversion Hnd as [|? ? Hnot Hnd']; subst.
  destruct Ha as [->|Ha], Hb as [->|Hb]; auto.
  - exfalso. apply Hnot. rewrite Hk. now apply in_map.
  - exfalso. apply Hnot. rewrite <- Hk. now apply in_map.
Qed.

Lemma limit_count_nonneg (n : Z) : 0 <= n -> limit_count n = inr (Z.to_N n).
Proof. intros Hn. unfold limit_count. now replace (n <? 0) with false by lia. Qed.

Lemma limit_count_neg (n : Z) : n < 0 -> limit_count n = inl LimitMustNotBeNegative.
Proof. intros Hn. unfold limit_count. now replace (n <? 0) with true by lia. Qed.

Lemma limit_count_inr (n : Z) (k : N) : limit_count n = inr k -> 0 <= n /\ k = Z.to_N n.
Proof.
  unfold limit_count. destruct (n <? 0) eqn:H; [discriminate|].
  intros Heq. inversion Heq. split; [lia|reflexivity].
Qed.

Lemma limit_rows_zero {A : Type} (rows : list A) : limit_rows 0 rows = [].
Proof. now destruct rows. Qed.

End MoreFacts.

(** ** The chunks of the expert-system schema and their joins *)

Module ExpertSchemaMore.
Import Pg TextSearch ExpertSchema PgFacts.

Lemma optional_filter_Some (x : string) (column : option string) :
  optional_filter (Some x) column = true -> column = Some x.
Proof.
  simpl. destruct column as [c|]; simpl; [|discriminate].
  intros Heq. apply String.eqb_eq in Heq. now subst.
Qed.

Lemma left_join_complete {L R : Type} (on : L -> R -> bool) (ls : list L) (rs : list R)
  (l : L) :
  In l ls -> exists o, In (l, o) (left_join on ls rs).
Proof.
  intros Hin. unfold left_join.
  destruct (filter (on l) rs) as [|m ms] eqn:Hf.
  - exists None. apply in_flat_map. exists l. split; [exact Hin|]. rewrite Hf. now left.
  - exists (Some m). apply in_flat_map. exists l. split; [exact Hin|]. rewrite Hf. now left.
Qed.

Lemma from_clause_complete (db : database) (v : fm_global_vectors_row) :
  In v (fm_global_vectors db) -> exists j, In j (from_clause db) /\ src_v j = v.
Proof.
  intros Hin. unfold from_clause.
  destruct (left_join_complete on_table _ (fm_global_tables db) v Hin) as [t Ht].
  destruct (left_join_complete on_figure _ (fm_global_figures db) (v, t) Ht) as [f Hf].
  now exists ((v, t), f).
Qed.

Section Facts.
Context `{Operators}.
Variable query_embedding : vector.

Lemma by_distance_more_similar (a b : source_row) :
  has_embedding a = true -> has_embedding b = true ->
  by_distance query_embedding a b ->
  Ranking.more_similar (m_similarity (select_match query_embedding a))
    (m_similarity (select_match query_embedding b)).
Proof.
  unfold has_embedding, by_distance, Ranking.more_similar, select_match, similarity, distance.
  simpl. destruct (v_embedding (src_v a)) as [ea|]; [|discriminate].
  destruct (v_embedding (src_v b)) as [eb|]; [|discriminate].
  simpl. intros _ _ Hle. do 2 eexists. repeat split. lra.
Qed.

End Facts.

End ExpertSchemaMore.


(** ** Rows looked up by their identifier *)

Module LookupFacts.
Import Pg.

Lemma find_key {A : Type} (key : A -> N) (l : list A) (a : A) :
  NoDup (map key l) -> In a l -> find (fun x => N.eqb (key x) (key a)) l = Some a.
Proof.
  induction l as [|x l IH]; simpl; intros Hnd Hin; [easy|].
  inversion Hnd as [|? ? Hnot Hnd']; subst.
  destruct Hin as [->|Hin]; [now rewrite N.eqb_refl|].
  destruct (N.eqb_spec (key x) (key a)) as [Heq|_]; [|now apply IH].
  exfalso. apply Hnot. rewrite Heq. now apply in_map.
Qed.

Lemma find_key_none {A : Type} (key : A -> N) (l : list A) (k : N) :
  ~ In k (map key l) -> find (fun x => N.eqb (key x) k) l = None.
Proof.
  induction l as [|x l IH]; simpl; intros Hnot; [reflexivity|].
  destruct (N.eqb_spec (key x) k) as [Heq|_]; [exfalso; auto|].
  apply IH. intros Hin. apply Hnot. now right.
Qed.

(** Rows of one list that agree on a key, arranged as a list of keys says. *)
Lemma arranged_by_keys {A B : Type} (ka : A -> N) (kb : B -> N) (xs : list A)
  (ys : list B) :
  Permutation (map ka xs) (map kb ys) ->
  exists xs', Permutation xs xs' /\ map ka xs' = map kb ys.
Proof.
  intros Hp. apply Permutation_sym, Permutation_map_inv in Hp as [xs' [Heq Hp]].
  exists xs'. split; [exact Hp|now symmetry].
Qed.

Lemma StronglySorted_by_keys {A B : Type} (ka : A -> N) (kb : B -> N)
  (le : N -> N -> Prop) (xs : list A) (ys : list B) :
  map ka xs = map kb ys ->
  StronglySorted (fun a b => le (kb a) (kb b)) ys ->
  StronglySorted (fun a b => le (ka a) (ka b)) xs.
Proof.
  revert ys. induction xs as [|x xs IH]; intros [|y ys] Heq Hs; try discriminate;
    [constructor|].
  simpl in Heq. injection Heq as Hk Heq.
  apply StronglySorted_inv in Hs as [Hs Hall].
  constructor; [now apply (IH ys)|].
  rewrite Forall_forall in *. intros a Ha.
  assert (Hin : In (ka a) (map kb ys)) by (rewrite <- Heq; now apply in_map).
  apply in_map_iff in Hin as [b [Hb Hbin]]. rewrite Hk, <- Hb. now apply Hall.
Qed.

Lemma StronglySorted_filter {A : Type} (le : A -> A -> Prop) (p : A -> bool)
  (l : list A) :
  StronglySorted le l -> StronglySorted le (filter p l).
Proof.
  induction 1 as [|a l Hs IH Hall]; simpl; [constructor|].
  destruct (p a); [|exact IH].
  constructor; [exact IH|].
  rewrite Forall_forall in *. intros x Hx. apply filter_In in Hx as [Hx _]. auto.
Qed.

End LookupFacts.

(** ** The fusion of [sql/fix_fm_functions.sql]: the [combined] rows *)

Module FusionFacts.
Import Pg TextSearch FixFm PgFacts.

Section Facts.
Variable text_weight : Q.
Variable vrs : list vector_results_row.
Variable trs : list text_results_row.
Hypothesis vector_ids : NoDup (map vr_id vrs).
Hypothesis text_ids : NoDup (map tr_id trs).

Lemma combined_ids_NoDup : NoDup (map c_vector_id (combined text_weight vrs trs)).
Proof.
  unfold combined. rewrite map_map.
  rewrite (map_ext _ (joined_key vr_id tr_id)) by (now intros []).
  now apply (full_outer_join_NoDup on_id vr_id tr_id FixFmFacts.on_id_key).
Qed.

(** A fused row carries, for its identifier, the score each candidate set
    holds for it, and 0 where the set has none. *)
Lemma combined_scores_exact (c : combined_row) :
  In c (combined text_weight vrs trs) ->
  c_vector_similarity c = Stored.vector_score_of vrs (c_vector_id c)
  /\ c_text_similarity c = Stored.text_score_of trs (c_vector_id c)
  /\ c_score c
     = (c_vector_similarity c * (1 - text_weight) + c_text_similarity c * text_weight)%Q.
Proof.
  unfold combined. intros Hin. apply in_map_iff in Hin as [j [<- Hj]].
  apply full_outer_join_In in Hj.
  unfold Stored.vector_score_of, Stored.text_score_of.
  destruct j as [l t|l|t]; simpl.
  - destruct Hj as (Hl & Ht & Hon). apply N.eqb_eq in Hon.
    rewrite (LookupFacts.find_key vr_id vrs l vector_ids Hl).
    rewrite Hon, (LookupFacts.find_key tr_id trs t text_ids Ht). auto.
  - destruct Hj as (Hl & Hno).
    rewrite (LookupFacts.find_key vr_id vrs l vector_ids Hl).
    rewrite LookupFacts.find_key_none; [auto|].
    intros Hin. apply in_map_iff in Hin as [t [Hk Ht]].
    specialize (Hno t Ht). unfold on_id in Hno. rewrite Hk, N.eqb_refl in Hno.
    discriminate.
  - destruct Hj as (Ht & Hno).
    rewrite (LookupFacts.find_key tr_id trs t text_ids Ht).
    rewrite LookupFacts.find_key_none; [auto|].
    intros Hin. apply in_map_iff in Hin as [l [Hk Hl]].
    specialize (Hno l Hl). unfold on_id in Hno. rewrite Hk, N.eqb_refl in Hno.
    discriminate.
Qed.

(** Every candidate of either set is fused, with its score. *)
Lemma vector_candidate_fused (l : vector_results_row) :
  In l vrs ->
  exists c, In c (combined text_weight vrs trs) /\ c_vector_id c = vr_id l
    /\ c_vector_similarity c = coalesce_lit (vr_vector_score l) 0%Q.
Proof.
  intros Hl.
  destruct (full_outer_join_left_complete on_id vrs trs l Hl) as [j [Hj Hside]].
  exists (select_combined text_weight j). split; [now apply in_map|].
  destruct j; simpl in *; inversion Hside; subst; auto.
Qed.

Lemma text_candidate_fused (t : text_results_row) :
  In t trs ->
  exists c, In c (combined text_weight vrs trs) /\ c_vector_id c = tr_id t
    /\ c_text_similarity c = tr_text_score t.
Proof.
  intros Ht.
  destruct (full_outer_join_right_complete on_id vrs trs t Ht) as [j [Hj Hside]].
  exists (select_combined text_weight j). split; [now apply in_map|].
  destruct j as [l r| |r]; simpl in *; inversion Hside; subst; [|auto].
  apply full_outer_join_In in Hj as (_ & _ & Hon). apply N.eqb_eq in Hon. auto.
Qed.

(** The identifier of a fused row is in one of the sets; what a set lacks
    counts 0. *)
Lemma combined_row_candidate (c : combined_row) :
  In c (combined text_weight vrs trs) ->
  (In (c_vector_id c) (map vr_id vrs) \/ In (c_vector_id c) (map tr_id trs))
  /\ (~ In (c_vector_id c) (map vr_id vrs) -> c_vector_similarity c = 0%Q)
  /\ (~ In (c_vector_id c) (map tr_id trs) -> c_text_similarity c = 0%Q).
Proof.
  unfold combined. intros Hin. apply in_map_iff in Hin as [j [<- Hj]].
  apply full_outer_join_In in Hj.
  destruct j as [l t|l|t]; simpl.
  - destruct Hj as (Hl & Htin & Hon). apply N.eqb_eq in Hon.
    split; [left; now apply in_map|].
    split; intros Hno; exfalso; apply Hno; [|rewrite Hon]; now apply in_map.
  - destruct Hj as (Hl & _).
    split; [left; now apply in_map|].
    split; [|reflexivity]. intros Hno; exfalso; apply Hno; now apply in_map.
  - destruct Hj as (Htin & _).
    split; [right; now apply in_map|].
    split; [reflexivity|]. intros Hno; exfalso; apply Hno; now apply in_map.
Qed.

End Facts.

(** What the final [SELECT ... ORDER BY c.score DESC LIMIT match_count]
    keeps of the fused rows. *)
Lemma final_select (n : N) (fused ranked : list combined_row) :
  order_by by_score_desc fused ranked ->
  let out := limit_rows n (map select_hybrid ranked) in
  StronglySorted (fun a b => (combined_score b <= combined_score a)%Q) out
  /\ (List.length out <= N.to_nat n)%nat
  /\ (exists rest,
        Permutation (map select_hybrid fused) (out ++ rest)
        /\ forall a b, In a out -> In b rest -> (combined_score b <= combined_score a)%Q)
  /\ ((N.to_nat n < List.length fused)%nat -> List.length out = N.to_nat n).
Proof.
  intros [Hp Hs] out.
  assert (Hsorted : StronglySorted (fun a b => (combined_score b <= combined_score a)%Q)
                      (map select_hybrid ranked)).
  { apply StronglySorted_map. exact Hs. }
  split; [now apply limit_rows_sorted|].
  split; [unfold out; rewrite limit_rows_length; lia|].
  split.
  - exists (skipn (N.to_nat n) (map select_hybrid ranked)). split.
    + unfold out. rewrite <- limit_rows_split. now apply Permutation_map.
    + intros a b Ha Hb.
      rewrite (limit_rows_split n (map select_hybrid ranked)) in Hsorted.
      exact (StronglySorted_app_le _ _ _ Hsorted a b Ha Hb).
  - intros Hmore. unfold out.
    rewrite limit_rows_length, length_map, <- (Permutation_length Hp). lia.
Qed.

End FusionFacts.

(** ** The ranking of the expert-system [hybrid_search_fm_global] *)

Module ExpertRankingFacts.
Import Pg TextSearch ExpertSchema PgFacts.

Section Facts.
Context `{Operators}.
Variable db : database.
Variable query_embedding : vector.
Variable query_text : string.
Variable text_weight : Q.
Variable asrs_topic_filter : option string.

Let joined_rows : list hybrid_row :=
  joined_results db query_embedding query_text text_weight asrs_topic_filter.

Lemma vector_result_In (l : vector_results_row) :
  In l (vector_results db query_embedding asrs_topic_filter) ->
  exists j, In j (from_clause db) /\ has_embedding j = true
    /\ optional_filter asrs_topic_filter (v_asrs_topic (src_v j)) = true
    /\ l = select_vector_result query_embedding j.
Proof.
  unfold vector_results, vector_candidates. intros Hin.
  apply in_map_iff in Hin as [j [<- Hj]]. apply filter_In in Hj as [Hj Hf].
  apply andb_true_iff in Hf as [He Hf]. eauto 6.
Qed.

Lemma text_result_In (t : text_results_row) :
  In t (text_results db query_text asrs_topic_filter) ->
  exists j, In j (from_clause db) /\ text_matches query_text j = true
    /\ optional_filter asrs_topic_filter (v_asrs_topic (src_v j)) = true
    /\ t = select_text_result query_text j.
Proof.
  unfold text_results. intros Hin.
  apply in_map_iff in Hin as [j [<- Hj]]. apply filter_In in Hj as [Hj Hf].
  apply andb_true_iff in Hf as [He Hf]. eauto 6.
Qed.

Lemma vector_result_of (j : source_row) :
  In j (from_clause db) -> has_embedding j = true ->
  optional_filter asrs_topic_filter (v_asrs_topic (src_v j)) = true ->
  In (select_vector_result query_embedding j)
    (vector_results db query_embedding asrs_topic_filter).
Proof.
  intros Hj He Hf. unfold vector_results, vector_candidates.
  apply in_map, filter_In. split; [exact Hj|]. now rewrite He, Hf.
Qed.

Lemma text_result_of (j : source_row) :
  In j (from_clause db) -> text_matches query_text j = true ->
  optional_filter asrs_topic_filter (v_asrs_topic (src_v j)) = true ->
  In (select_text_result query_text j) (text_results db query_text asrs_topic_filter).
Proof.
  intros Hj Hm Hf. unfold text_results.
  apply in_map, filter_In. split; [exact Hj|]. now rewrite Hm, Hf.
Qed.

Hypothesis chunk_ids : NoDup (map v_id (fm_global_vectors db)).

Lemma chunk_lookup (v : fm_global_vectors_row) :
  In v (fm_global_vectors db) -> Stored.chunk db (v_id v) = Some v.
Proof. intros Hv. unfold Stored.chunk. now apply LookupFacts.find_key. Qed.

(** The scores of a joined row, from the stored chunk with its identifier. *)
Lemma joined_row_exact (r : hybrid_row) :
  In r joined_rows ->
  exists v, In v (fm_global_vectors db) /\ v_id v = vector_id r
    /\ optional_filter asrs_topic_filter (v_asrs_topic v) = true
    /\ (v_embedding v <> None
        \/ ts_match (to_tsvector (v_content v)) (plainto_tsquery query_text) = true)
    /\ vector_similarity r
       = match v_embedding v with
         | Some e => (1 - cosine_distance e query_embedding)%Q
         | None => 0%Q
         end
    /\ text_similarity r
       = (if ts_match (to_tsvector (v_content v)) (plainto_tsquery query_text)
          then ts_rank_cd (to_tsvector (v_content v)) (plainto_tsquery query_text)
          else 0%Q)
    /\ combined_score r
       = (vector_similarity r * (1 - text_weight) + text_similarity r * text_weight)%Q.
Proof.
  unfold joined_rows, joined_results. intros Hin.
  apply in_map_iff in Hin as [j [<- Hj]]. apply full_outer_join_In in Hj.
  destruct j as [l t|l|t].
  - destruct Hj as (Hl & Ht & Hon). apply N.eqb_eq in Hon.
    apply vector_result_In in Hl as (j1 & Hj1 & He1 & Hf1 & ->).
    apply text_result_In in Ht as (j2 & Hj2 & Hm2 & Hf2 & ->).
    simpl in Hon.
    assert (Hsame : src_v j1 = src_v j2).
    { apply (MoreFacts.NoDup_map_same v_id (fm_global_vectors db)); auto;
        now apply ExpertSchemaFacts.expert_from_clause_In. }
    exists (src_v j1). split; [now apply ExpertSchemaFacts.expert_from_clause_In|].
    split; [reflexivity|]. split; [exact Hf1|].
    unfold has_embedding in He1. unfold text_matches in Hm2. rewrite <- Hsame in Hm2.
    split; [now right|].
    simpl. unfold similarity, distance. rewrite Hsame at 3 4. rewrite <- Hsame.
    rewrite Hm2. destruct (v_embedding (src_v j1)); [auto|discriminate].
  - destruct Hj as (Hl & Hno).
    apply vector_result_In in Hl as (j1 & Hj1 & He1 & Hf1 & ->).
    exists (src_v j1). split; [now apply ExpertSchemaFacts.expert_from_clause_In|].
    split; [reflexivity|]. split; [exact Hf1|].
    assert (Hm : ts_match (to_tsvector (v_content (src_v j1)))
                   (plainto_tsquery query_text) = false).
    { destruct (ts_match _ _) eqn:Hm; [|reflexivity].
      specialize (Hno _ (text_result_of j1 Hj1 Hm Hf1)).
      unfold on_id in Hno. simpl in Hno. now rewrite N.eqb_refl in Hno. }
    unfold has_embedding in He1.
    split; [left; now destruct (v_embedding (src_v j1))|].
    simpl. unfold similarity, distance. rewrite Hm.
    destruct (v_embedding (src_v j1)); [auto|discriminate].
  - destruct Hj as (Ht & Hno).
    apply text_result_In in Ht as (j2 & Hj2 & Hm2 & Hf2 & ->).
    exists (src_v j2). split; [now apply ExpertSchemaFacts.expert_from_clause_In|].
    split; [reflexivity|]. split; [exact Hf2|].
    unfold text_matches in Hm2. split; [now right|].
    assert (He : v_embedding (src_v j2) = None).
    { destruct (v_embedding (src_v j2)) as [e|] eqn:He; [|reflexivity].
      assert (He' : has_embedding j2 = true) by (unfold has_embedding; now rewrite He).
      specialize (Hno _ (vector_result_of j2 Hj2 He' Hf2)).
      unfold on_id in Hno. simpl in Hno. now rewrite N.eqb_refl in Hno. }
    simpl. now rewrite He, Hm2.
Qed.

(** The same scores as lookups by the row's identifier. *)
Lemma joined_row_stored (r : hybrid_row) :
  In r joined_rows ->
  vector_similarity r = Stored.similarity db query_embedding (vector_id r)
  /\ text_similarity r = Stored.rank db query_text (vector_id r)
  /\ combined_score r
     = (vector_similarity r * (1 - text_weight) + text_similarity r * text_weight)%Q.
Proof.
  intros Hin.
  destruct (joined_row_exact r Hin) as (v & Hv & Hid & _ & _ & Hvs & Hts & Hs).
  unfold Stored.similarity, Stored.rank. rewrite <- Hid, (chunk_lookup v Hv). auto.
Qed.

Lemma returned_row_joined (match_count : Z) (out : list hybrid_row) (r : hybrid_row) :
  hybrid_search_fm_global db query_embedding query_text text_weight asrs_topic_filter
    match_count (Rows out) ->
  In r out -> In r joined_rows.
Proof.
  intros Hh Hin.
  destruct (ExpertSchemaFacts.expert_hybrid_row_In _ _ _ _ _ _ _ _ Hh Hin) as (j & Hj & ->).
  now apply in_map.
Qed.

(** With [id] a key of the two referenced tables, the left joins neither
    repeat nor drop a chunk. *)
Hypothesis table_ids : NoDup (map t_id (fm_global_tables db)).
Hypothesis figure_ids : NoDup (map f_id (fm_global_figures db)).

Lemma expert_from_clause_vectors : map src_v (from_clause db) = fm_global_vectors db.
Proof.
  unfold from_clause.
  rewrite <- (left_join_once on_table (fm_global_vectors db) (fm_global_tables db)) at 2.
  - rewrite <- (left_join_once on_figure
                  (left_join on_table (fm_global_vectors db) (fm_global_tables db))
                  (fm_global_figures db)) at 2.
    + now rewrite map_map.
    + intros vt _.
      apply (filter_at_most_one f_id (on_figure vt)
               (coalesce_lit (v_source_id (fst vt)) 0%N)); [exact figure_ids|].
      intros f _ Hon. unfold on_figure in Hon. apply andb_true_iff in Hon as [Hon _].
      destruct (v_source_id (fst vt)); [|discriminate]. simpl in *.
      symmetry. now apply N.eqb_eq.
  - intros v _.
    apply (filter_at_most_one t_id (on_table v) (coalesce_lit (v_source_id v) 0%N));
      [exact table_ids|].
    intros t _ Hon. unfold on_table in Hon. apply andb_true_iff in Hon as [Hon _].
    destruct (v_source_id v); [|discriminate]. simpl in *.
    symmetry. now apply N.eqb_eq.
Qed.

Lemma expert_source_ids_NoDup (p : source_row -> bool) :
  NoDup (map (fun j => v_id (src_v j)) (filter p (from_clause db))).
Proof.
  apply NoDup_map_filter.
  rewrite <- (map_map src_v v_id), expert_from_clause_vectors. exact chunk_ids.
Qed.

Lemma expert_vector_ids_NoDup :
  NoDup (map vr_id (vector_results db query_embedding asrs_topic_filter)).
Proof.
  unfold vector_results, vector_candidates. rewrite map_map. simpl.
  apply expert_source_ids_NoDup.
Qed.

Lemma expert_text_ids_NoDup :
  NoDup (map tr_id (text_results db query_text asrs_topic_filter)).
Proof.
  unfold text_results. rewrite map_map. simpl. apply expert_source_ids_NoDup.
Qed.

Lemma expert_on_id_key (v : vector_results_row) (t : text_results_row) :
  on_id v t = true <-> vr_id v = tr_id t.
Proof. apply N.eqb_eq. Qed.

Lemma joined_ids_NoDup : NoDup (map vector_id joined_rows).
Proof.
  unfold joined_rows, joined_results. rewrite map_map.
  rewrite (map_ext _ (joined_key vr_id tr_id)) by (now intros []).
  apply (full_outer_join_NoDup on_id vr_id tr_id expert_on_id_key).
  - apply expert_vector_ids_NoDup.
  - apply expert_text_ids_NoDup.
Qed.

(** The joined rows whose chunk has an embedding are the vector
    candidates; those whose chunk matches the query text are the lexical
    candidates. *)
Lemma embedded_joined_ids :
  Permutation (map vr_id (vector_results db query_embedding asrs_topic_filter))
    (map vector_id (filter (fun r => Stored.embedded db (vector_id r)) joined_rows)).
Proof.
  apply NoDup_Permutation.
  - apply expert_vector_ids_NoDup.
  - apply NoDup_map_filter, joined_ids_NoDup.
  - intros id. split; intros Hin.
    + apply in_map_iff in Hin as [l [<- Hl]].
      destruct (full_outer_join_left_complete on_id _
                  (text_results db query_text asrs_topic_filter) l Hl) as [j [Hj Hside]].
      apply in_map_iff. exists (select_hybrid text_weight j). split.
      * destruct j; simpl in *; inversion Hside; now subst.
      * apply filter_In. split; [now apply in_map|].
        assert (Hid : vector_id (select_hybrid text_weight j) = vr_id l)
          by (destruct j; simpl in *; inversion Hside; now subst).
        rewrite Hid.
        apply vector_result_In in Hl as (j1 & Hj1 & He1 & _ & ->). simpl.
        unfold Stored.embedded.
        rewrite (chunk_lookup _ (ExpertSchemaFacts.expert_from_clause_In _ _ Hj1)).
        exact He1.
    + apply in_map_iff in Hin as [r [<- Hr]]. apply filter_In in Hr as [Hr He].
      destruct (joined_row_exact r Hr) as (v & Hv & Hid & Hf & _).
      unfold Stored.embedded in He. rewrite <- Hid, (chunk_lookup v Hv) in He.
      destruct (ExpertSchemaMore.from_clause_complete db v Hv) as [j [Hj Hsrc]].
      apply in_map_iff. exists (select_vector_result query_embedding j).
      split; [simpl; now rewrite Hsrc|].
      apply vector_result_of; [exact Hj| |now rewrite Hsrc].
      unfold has_embedding. now rewrite Hsrc.
Qed.

Lemma matching_joined_ids :
  Permutation (map tr_id (text_results db query_text asrs_topic_filter))
    (map vector_id (filter (fun r => Stored.matches db query_text (vector_id r)) joined_rows)).
Proof.
  apply NoDup_Permutation.
  - apply expert_text_ids_NoDup.
  - apply NoDup_map_filter, joined_ids_NoDup.
  - intros id. split; intros Hin.
    + apply in_map_iff in Hin as [t [<- Ht]].
      destruct (full_outer_join_right_complete on_id
                  (vector_results db query_embedding asrs_topic_filter) _ t Ht)
        as [j [Hj Hside]].
      assert (Hid : vector_id (select_hybrid text_weight j) = tr_id t).
      { destruct j as [l r| |r]; simpl in *; inversion Hside; subst; [|reflexivity].
        apply full_outer_join_In in Hj as (_ & _ & Hon). now apply N.eqb_eq in Hon. }
      apply in_map_iff. exists (select_hybrid text_weight j). split; [exact Hid|].
      apply filter_In. split; [now apply in_map|]. rewrite Hid.
      apply text_result_In in Ht as (j2 & Hj2 & Hm2 & _ & ->). simpl.
      unfold Stored.matches.
      rewrite (chunk_lookup _ (ExpertSchemaFacts.expert_from_clause_In _ _ Hj2)).
      exact Hm2.
    + apply in_map_iff in Hin as [r [<- Hr]]. apply filter_In in Hr as [Hr Hm].
      destruct (joined_row_exact r Hr) as (v & Hv & Hid & Hf & _).
      unfold Stored.matches in Hm. rewrite <- Hid, (chunk_lookup v Hv) in Hm.
      destruct (ExpertSchemaMore.from_clause_complete db v Hv) as [j [Hj Hsrc]].
      apply in_map_iff. exists (select_text_result query_text j).
      split; [simpl; now rewrite Hsrc|].
      apply text_result_of; [exact Hj| |now rewrite Hsrc].
      unfold text_matches. now rewrite Hsrc.
Qed.

End Facts.

End ExpertRankingFacts.

(** *** The weight extremes *)

Module ExpertExtremesFacts.
Import Pg TextSearch ExpertSchema PgFacts.

Section Facts.
Context `{Operators}.
Variable db : database.
Variable query_embedding : vector.
Variable query_text : string.
Variable text_weight : Q.
Variable asrs_topic_filter : option string.
Hypothesis chunk_ids : NoDup (map v_id (fm_global_vectors db)).
Hypothesis table_ids : NoDup (map t_id (fm_global_tables db)).
Hypothesis figure_ids : NoDup (map f_id (fm_global_figures db)).

Let joined_rows : list hybrid_row :=
  joined_results db query_embedding query_text text_weight asrs_topic_filter.

(** The returned rows lead an arrangement of all the joined rows. *)
Lemma hybrid_split (match_count : Z) (out : list hybrid_row) :
  hybrid_search_fm_global db query_embedding query_text text_weight asrs_topic_filter
    match_count (Rows out) ->
  exists left,
    Permutation joined_rows (out ++ left)
    /\ StronglySorted by_score_desc (out ++ left)
    /\ (Z.of_nat (List.length joined_rows) <= match_count -> left = []).
Proof.
  intros Hh.
  destruct (ExpertSchemaFacts.expert_hybrid_rows_inv _ _ _ _ _ _ _ Hh)
    as (n & ranked & Hn & [Hp Hs] & ->).
  exists (skipn (N.to_nat n) ranked). rewrite <- limit_rows_split.
  split; [exact Hp|]. split; [exact Hs|].
  intros Hall. apply MoreFacts.limit_count_inr in Hn as [Hlo ->].
  apply skipn_all2. rewrite <- (Permutation_length Hp). fold joined_rows. lia.
Qed.

Lemma ranks_vector_candidates (match_count : Z) (out : list hybrid_row) :
  (text_weight == 0)%Q ->
  hybrid_search_fm_global db query_embedding query_text text_weight asrs_topic_filter
    match_count (Rows out) ->
  StronglySorted
    (fun a b => (Stored.similarity db query_embedding (vector_id b)
                 <= Stored.similarity db query_embedding (vector_id a))%Q) out
  /\ exists sorted rest,
       order_by (by_distance query_embedding) (vector_candidates db asrs_topic_filter)
         sorted
       /\ map (fun j => v_id (src_v j)) sorted
          = map vector_id (filter (fun r => Stored.embedded db (vector_id r)) out) ++ rest
       /\ (Z.of_nat (List.length joined_rows) <= match_count -> rest = []).
Proof.
  intros Hw Hh. destruct (hybrid_split _ _ Hh) as (left & Hp & Hs & Hall).
  set (le := fun ia ib : N => (Stored.similarity db query_embedding ib
                               <= Stored.similarity db query_embedding ia)%Q).
  assert (Hsim : StronglySorted (fun a b => le (vector_id a) (vector_id b)) (out ++ left)).
  { apply (StronglySorted_ext_in by_score_desc); [|exact Hs].
    intros a b Ha Hb. unfold by_score_desc, le.
    apply (Permutation_in _ (Permutation_sym Hp)) in Ha, Hb.
    destruct (ExpertRankingFacts.joined_row_stored _ _ _ _ _ chunk_ids a Ha)
      as (<- & _ & ->).
    destruct (ExpertRankingFacts.joined_row_stored _ _ _ _ _ chunk_ids b Hb)
      as (<- & _ & ->).
    rewrite Hw. intros Hle. lra. }
  split.
  { apply (StronglySorted_ext_in (fun a b => le (vector_id a) (vector_id b)));
      [now intros|].
    clear -Hsim. induction out as [|r out' IH]; [constructor|].
    simpl in Hsim. apply StronglySorted_inv in Hsim as [Hs Hall].
    constructor; [now apply IH|].
    rewrite Forall_forall in *. intros x Hx. apply Hall, in_or_app. now left. }
  set (emb := fun r => Stored.embedded db (vector_id r)).
  assert (Hids : Permutation
                   (map (fun j => v_id (src_v j)) (vector_candidates db asrs_topic_filter))
                   (map vector_id (filter emb (out ++ left)))).
  { transitivity (map vector_id (filter emb joined_rows)).
    - pose proof (ExpertRankingFacts.embedded_joined_ids db query_embedding query_text
                    text_weight asrs_topic_filter chunk_ids table_ids figure_ids) as He.
      unfold vector_results in He. rewrite map_map in He. exact He.
    - now apply Permutation_map, Permutation_filter. }
  destruct (LookupFacts.arranged_by_keys _ _ _ _ Hids) as (sorted & Hperm & Hkeys).
  exists sorted, (map vector_id (filter emb left)).
  split; [split; [exact Hperm|]|split].
  - apply (StronglySorted_ext_in
             (fun a b => le (v_id (src_v a)) (v_id (src_v b)))).
    + intros a b Ha Hb. apply (Permutation_in _ (Permutation_sym Hperm)) in Ha, Hb.
      unfold vector_candidates in Ha, Hb.
      apply filter_In in Ha as [Ha Hea], Hb as [Hb Heb].
      apply andb_true_iff in Hea as [Hea _], Heb as [Heb _].
      unfold le, Stored.similarity, by_distance, distance, has_embedding in *.
      rewrite (ExpertRankingFacts.chunk_lookup db chunk_ids _
                 (ExpertSchemaFacts.expert_from_clause_In _ _ Ha)).
      rewrite (ExpertRankingFacts.chunk_lookup db chunk_ids _
                 (ExpertSchemaFacts.expert_from_clause_In _ _ Hb)).
      destruct (v_embedding (src_v a)); [|discriminate].
      destruct (v_embedding (src_v b)); [|discriminate].
      simpl. intros Hle. lra.
    + apply (LookupFacts.StronglySorted_by_keys _ vector_id le _
               (filter emb (out ++ left)) Hkeys).
      now apply LookupFacts.StronglySorted_filter.
  - etransitivity; [exact Hkeys|]. now rewrite filter_app, map_app.
  - intros Hfit. now rewrite (Hall Hfit).
Qed.

Lemma ranks_text_candidates (match_count : Z) (out : list hybrid_row) :
  (text_weight == 1)%Q ->
  hybrid_search_fm_global db query_embedding query_text text_weight asrs_topic_filter
    match_count (Rows out) ->
  StronglySorted
    (fun a b => (Stored.rank db query_text (vector_id b)
                 <= Stored.rank db query_text (vector_id a))%Q) out
  /\ exists sorted rest,
       order_by (fun a b => (tr_text_sim b <= tr_text_sim a)%Q)
         (text_results db query_text asrs_topic_filter) sorted
       /\ map tr_id sorted
          = map vector_id (filter (fun r => Stored.matches db query_text (vector_id r)) out)
            ++ rest
       /\ (Z.of_nat (List.length joined_rows) <= match_count -> rest = []).
Proof.
  intros Hw Hh. destruct (hybrid_split _ _ Hh) as (left & Hp & Hs & Hall).
  set (le := fun ia ib : N => (Stored.rank db query_text ib
                               <= Stored.rank db query_text ia)%Q).
  assert (Hsim : StronglySorted (fun a b => le (vector_id a) (vector_id b)) (out ++ left)).
  { apply (StronglySorted_ext_in by_score_desc); [|exact Hs].
    intros a b Ha Hb. unfold by_score_desc, le.
    apply (Permutation_in _ (Permutation_sym Hp)) in Ha, Hb.
    destruct (ExpertRankingFacts.joined_row_stored _ _ _ _ _ chunk_ids a Ha)
      as (_ & <- & ->).
    destruct (ExpertRankingFacts.joined_row_stored _ _ _ _ _ chunk_ids b Hb)
      as (_ & <- & ->).
    rewrite Hw. intros Hle. lra. }
  split.
  { apply (StronglySorted_ext_in (fun a b => le (vector_id a) (vector_id b)));
      [now intros|].
    clear -Hsim. induction out as [|r out' IH]; [constructor|].
    simpl in Hsim. apply StronglySorted_inv in Hsim as [Hs Hall].
    constructor; [now apply IH|].
    rewrite Forall_forall in *. intros x Hx. apply Hall, in_or_app. now left. }
  set (hit := fun r => Stored.matches db query_text (vector_id r)).
  assert (Hids : Permutation
                   (map tr_id (text_results db query_text asrs_topic_filter))
                   (map vector_id (filter hit (out ++ left)))).
  { transitivity (map vector_id (filter hit joined_rows)).
    - exact (ExpertRankingFacts.matching_joined_ids db query_embedding query_text
               text_weight asrs_topic_filter chunk_ids table_ids figure_ids).
    - now apply Permutation_map, Permutation_filter. }
  destruct (LookupFacts.arranged_by_keys _ _ _ _ Hids) as (sorted & Hperm & Hkeys).
  exists sorted, (map vector_id (filter hit left)).
  split; [split; [exact Hperm|]|split].
  - apply (StronglySorted_ext_in (fun a b => le (tr_id a) (tr_id b))).
    + intros a b Ha Hb. apply (Permutation_in _ (Permutation_sym Hperm)) in Ha, Hb.
      apply ExpertRankingFacts.text_result_In in Ha as (ja & Hja & Hma & _ & ->).
      apply ExpertRankingFacts.text_result_In in Hb as (jb & Hjb & Hmb & _ & ->).
      unfold le, Stored.rank, text_matches in *. simpl.
      rewrite (ExpertRankingFacts.chunk_lookup db chunk_ids _
                 (ExpertSchemaFacts.expert_from_clause_In _ _ Hja)).
      rewrite (ExpertRankingFacts.chunk_lookup db chunk_ids _
                 (ExpertSchemaFacts.expert_from_clause_In _ _ Hjb)).
      now rewrite Hma, Hmb.
    + apply (LookupFacts.StronglySorted_by_keys _ vector_id le _
               (filter hit (out ++ left)) Hkeys).
      now apply LookupFacts.StronglySorted_filter.
  - etransitivity; [exact Hkeys|]. now rewrite filter_app, map_app.
  - intros Hfit. now rewrite (Hall Hfit).
Qed.

End Facts.

End ExpertExtremesFacts.

(** ** Rows without an embedding *)

Module EmbeddingFacts.
Import Pg TextSearch PgFacts.

Lemma left_join_filter_left {L R : Type} (on : L -> R -> bool) (p : L -> bool)
  (ls : list L) (rs : list R) :
  left_join on (filter p ls) rs = filter (fun x => p (fst x)) (left_join on ls rs).
Proof.
  unfold left_join. induction ls as [|l ls IH]; [reflexivity|].
  cbn [filter flat_map]. rewrite filter_app, <- IH.
  assert (Hblock : forall block : list (L * option R),
            (forall x, In x block -> fst x = l) ->
            filter (fun x => p (fst x)) block = if p l then block else []).
  { induction block as [|x block IHb]; intros Hfst; simpl; [now destruct (p l)|].
    rewrite (Hfst x (or_introl eq_refl)), IHb by (intros; apply Hfst; now right).
    now destruct (p l). }
  rewrite Hblock.
  - now destruct (p l).
  - intros x Hx. destruct (filter (on l) rs) as [|m ms].
    + destruct Hx as [<-|[]]. reflexivity.
    + apply in_map_iff in Hx as [r [<- _]]. reflexivity.
Qed.

Lemma filter_implied {A : Type} (p q : A -> bool) (l : list A) :
  (forall x, q x = true -> p x = true) -> filter q (filter p l) = filter q l.
Proof.
  intros Himp. induction l as [|x l IH]; [reflexivity|]. simpl.
  destruct (p x) eqn:Hp; simpl; rewrite IH; [reflexivity|].
  destruct (q x) eqn:Hq; [|reflexivity]. apply Himp in Hq. congruence.
Qed.

Lemma forallb_filter_trivial {A : Type} (p q : A -> bool) (l : list A) :
  (forall x, p x = false -> q x = true) -> forallb q (filter p l) = forallb q l.
Proof.
  intros Himp. induction l as [|x l IH]; [reflexivity|]. simpl.
  destruct (p x) eqn:Hp; simpl; rewrite IH; [reflexivity|].
  now rewrite (Himp x Hp).
Qed.

Section Expert.
Import ExpertSchema.
Context `{Operators}.
Variable db : database.
Variable query_embedding : vector.

Lemma embedded_from_clause :
  from_clause (Stored.embedded_chunks db) = filter has_embedding (from_clause db).
Proof.
  unfold from_clause, Stored.embedded_chunks. simpl.
  now rewrite !left_join_filter_left.
Qed.

Lemma embedded_match_candidates (topic source_type_filter : option string) :
  filter (match_where topic source_type_filter) (from_clause (Stored.embedded_chunks db))
  = filter (match_where topic source_type_filter) (from_clause db).
Proof.
  rewrite embedded_from_clause. apply filter_implied.
  intros j Hw. unfold match_where in Hw.
  apply andb_true_iff in Hw as [Hw _]. now apply andb_true_iff in Hw as [Hw _].
Qed.

Lemma embedded_dimensions :
  forallb (fun v => same_dimension query_embedding (v_embedding v))
    (fm_global_vectors (Stored.embedded_chunks db))
  = forallb (fun v => same_dimension query_embedding (v_embedding v))
      (fm_global_vectors db).
Proof.
  unfold Stored.embedded_chunks. simpl. apply forallb_filter_trivial.
  intros v Hv. now destruct (v_embedding v).
Qed.

(** The rows without an embedding change no outcome of
    [match_fm_global_vectors]. *)
Lemma match_ignores_rows_without_embedding (match_count : Z)
  (topic source_type_filter : option string) (o : outcome match_row) :
  match_fm_global_vectors (Stored.embedded_chunks db) query_embedding match_count topic
    source_type_filter o
  <-> match_fm_global_vectors db query_embedding match_count topic source_type_filter o.
Proof.
  split; intros Hm;
    inversion Hm as [n scanned skipped sorted Hn Hp Hd Hord Heq|n Hn Hnz Hd|e He]; subst.
  - rewrite embedded_match_candidates in Hp. now apply (match_rows _ _ _ _ _ n scanned skipped).
  - rewrite embedded_dimensions in Hd. now apply (match_dimensions _ _ _ _ _ n).
  - now apply match_raised.
  - rewrite <- embedded_match_candidates in Hp.
    now apply (match_rows _ _ _ _ _ n scanned skipped).
  - rewrite <- embedded_dimensions in Hd. now apply (match_dimensions _ _ _ _ _ n).
  - now apply match_raised.
Qed.

(** With an admissible limit and stored embeddings of the query's
    dimension, the call returns rows. *)
Lemma match_returns_rows (match_count : Z) (topic source_type_filter : option string) :
  0 <= match_count ->
  forallb (fun v => same_dimension query_embedding (v_embedding v))
    (fm_global_vectors db) = true ->
  (exists out,
     match_fm_global_vectors db query_embedding match_count topic source_type_filter
       (Rows out))
  /\ forall o,
       match_fm_global_vectors db query_embedding match_count topic source_type_filter o ->
       exists out, o = Rows out.
Proof.
  intros Hlo Hdim. split.
  - pose proof (ExpertSchemaFacts.match_exec_admissible db query_embedding match_count
                  topic source_type_filter) as Hadm.
    unfold match_fm_global_vectors_exec in Hadm.
    rewrite (MoreFacts.limit_count_nonneg _ Hlo) in Hadm. cbv zeta in Hadm.
    rewrite (ExpertSchemaFacts.stored_dimensions_candidates db query_embedding _ Hdim)
      in Hadm by (intros j Hj; now apply filter_In in Hj).
    rewrite andb_false_r in Hadm. eauto.
  - intros o Hm.
    inversion Hm as [n scanned skipped sorted Hn Hp Hd Hord Heq|n Hn Hnz Hd|e He]; subst.
    + eauto.
    + congruence.
    + rewrite (MoreFacts.limit_count_nonneg _ Hlo) in He. discriminate.
Qed.

End Expert.

Section AllTables.
Import Unified.
Context `{Operators}.
Variable db : database.
Variable query_embedding : vector.

Lemma filter_twice {A : Type} (p : A -> bool) (l : list A) :
  filter p (filter p l) = filter p l.
Proof. now apply filter_implied. Qed.

Lemma embedded_all_results :
  all_results (Stored.embedded_rows db) query_embedding = all_results db query_embedding.
Proof.
  unfold all_results, chunk_results, table_results, vector_results, Stored.embedded_rows.
  simpl. now rewrite !filter_twice.
Qed.

Lemma forallb_map_filter {A : Type} (f : A -> option vector) (l : list A) :
  forallb (same_dimension query_embedding) (map f (filter (fun a => is_not_null (f a)) l))
  = forallb (same_dimension query_embedding) (map f l).
Proof.
  induction l as [|a l IH]; [reflexivity|]. simpl.
  destruct (f a) eqn:Hf; simpl; rewrite ?Hf, IH; reflexivity.
Qed.

Lemma embedded_all_dimensions :
  dimensions_agree (Stored.embedded_rows db) query_embedding
  = dimensions_agree db query_embedding.
Proof.
  unfold dimensions_agree, Stored.embedded_rows. simpl.
  rewrite !forallb_app.
  now rewrite (forallb_map_filter c_embedding), (forallb_map_filter tv_embedding),
    (forallb_map_filter v_embedding).
Qed.

(** The rows without an embedding change no outcome of
    [search_fm_global_all]. *)
Lemma search_ignores_rows_without_embedding (query_text : string) (match_count : Z)
  (o : outcome result_row) :
  search_fm_global_all (Stored.embedded_rows db) query_embedding query_text match_count o
  <-> search_fm_global_all db query_embedding query_text match_count o.
Proof.
  split; intros Hs; inversion Hs as [n ranked Hn Hd Hord Heq|n Hn Hnz Hd|e He]; subst.
  - rewrite embedded_all_results in Hord. rewrite embedded_all_dimensions in Hd.
    now apply search_rows.
  - rewrite embedded_all_dimensions in Hd. now apply (search_dimensions _ _ _ _ n).
  - now apply search_raised.
  - rewrite <- embedded_all_results in Hord. rewrite <- embedded_all_dimensions in Hd.
    now apply search_rows.
  - rewrite <- embedded_all_dimensions in Hd. now apply (search_dimensions _ _ _ _ n).
  - now apply search_raised.
Qed.

Lemma search_returns_rows (query_text : string) (match_count : Z) :
  0 <= match_count ->
  dimensions_agree db query_embedding = true ->
  (exists out,
     search_fm_global_all db query_embedding query_text match_count (Rows out))
  /\ forall o,
       search_fm_global_all db query_embedding query_text match_count o ->
       exists out, o = Rows out.
Proof.
  intros Hlo Hdim. split.
  - pose proof (UnifiedFacts.search_exec_admissible db query_embedding query_text
                  match_count) as Hadm.
    unfold search_fm_global_all_exec in Hadm.
    rewrite (MoreFacts.limit_count_nonneg _ Hlo), Hdim, andb_false_r in Hadm. eauto.
  - intros o Hs. inversion Hs as [n ranked Hn Hd Hord Heq|n Hn Hnz Hd|e He]; subst.
    + eauto.
    + congruence.
    + rewrite (MoreFacts.limit_count_nonneg _ Hlo) in He. discriminate.
Qed.

End AllTables.

End EmbeddingFacts.

(** ** Calls without ties *)

Module TieFacts.
Import Pg TextSearch PgFacts.

Lemma expert_score_tie_same_key (a b : ExpertSchema.hybrid_row) :
  ExpertSchema.by_score_desc a b /\ ExpertSchema.by_score_desc b a ->
  Qeq_bool (ExpertSchema.combined_score a) (ExpertSchema.combined_score b) = true.
Proof.
  unfold ExpertSchema.by_score_desc. intros [Hab Hba].
  apply Qeq_bool_iff. now apply Qle_antisym.
Qed.

(** Without two joined rows of the same combined score, the expert-system
    [hybrid_search_fm_global] has one outcome. *)
Lemma expert_tie_free_unique `{Operators} (db : ExpertSchema.database)
  (query_embedding : vector) (query_text : string) (text_weight : Q)
  (asrs_topic_filter : option string) (match_count : Z)
  (o1 o2 : outcome ExpertSchema.hybrid_row) :
  ExpertSchema.tie_free db query_embedding query_text text_weight asrs_topic_filter = true ->
  ExpertSchema.hybrid_search_fm_global db query_embedding query_text text_weight
    asrs_topic_filter match_count o1 ->
  ExpertSchema.hybrid_search_fm_global db query_embedding query_text text_weight
    asrs_topic_filter match_count o2 ->
  o1 = o2.
Proof.
  unfold ExpertSchema.tie_free. intros Hfree H1 H2.
  inversion H1 as [n ranked Hn Hd Hord|n Hn Hnz Hd|e He];
    inversion H2 as [n' ranked' Hn' Hd' Hord'|n' Hn' Hnz' Hd'|e' He']; subst;
    try congruence.
  - rewrite Hn in Hn'. inversion Hn'; subst n'. f_equal. f_equal.
    eapply order_by_unique; [|exact Hord|exact Hord'].
    eapply no_ties_ForallOrdPairs; [|exact Hfree].
    apply expert_score_tie_same_key.
  - rewrite Hn in Hn'. inversion Hn'; subst n'. destruct Hd as [Hd|Hd]; congruence.
  - rewrite Hn in Hn'. inversion Hn'; subst n'. destruct Hd' as [Hd'|Hd']; congruence.
Qed.

(** Likewise the query of [sql/fix_fm_functions.sql], run as a statement,
    when neither of its [ORDER BY] meets equal keys and the [LIMIT] of
    [text_results] cuts nothing off. *)
Lemma statement_tie_free_unique `{Operators} (db : FixFm.database)
  (query_embedding : vector) (query_text : string) (match_count : Z) (text_weight : Q)
  (filter_asrs_type : option string) (o1 o2 : outcome FixFm.hybrid_row) :
  FixFm.tie_free db query_embedding query_text match_count text_weight filter_asrs_type
  = true ->
  FixFm.hybrid_query db query_embedding query_text match_count text_weight
    filter_asrs_type o1 ->
  FixFm.hybrid_query db query_embedding query_text match_count text_weight
    filter_asrs_type o2 ->
  o1 = o2.
Proof.
  unfold FixFm.tie_free. intros Hfree H1 H2.
  inversion H1 as [n2 n vrs trs ranked Hl Hd Hv Ht Hord|n2 n Hl Hnz Hd|e He];
    inversion H2 as [n2' n' vrs' trs' ranked' Hl' Hd' Hv' Ht' Hord'|n2' n' Hl' Hnz' Hd'|e' He'];
    subst; try congruence.
  - rewrite Hl in Hl'. inversion Hl'; subst n2' n'. rewrite Hl in Hfree.
    apply andb_true_iff in Hfree as [Hfree Hscore].
    apply andb_true_iff in Hfree as [Hdist Hlen]. apply N.leb_le in Hlen.
    rewrite (FixFmFacts.vector_results_unique _ _ _ _ _ Hdist Hv) in Hord.
    rewrite (FixFmFacts.vector_results_unique _ _ _ _ _ Hdist Hv') in Hord'.
    assert (Hsame : forall trs0 ranked0,
              FixFm.text_results db query_text filter_asrs_type n2 trs0 ->
              order_by FixFm.by_score_desc
                (FixFm.combined text_weight
                   (FixFm.vector_results_exec db query_embedding filter_asrs_type n2) trs0)
                ranked0 ->
              order_by FixFm.by_score_desc
                (FixFm.combined text_weight
                   (FixFm.vector_results_exec db query_embedding filter_asrs_type n2)
                   (FixFm.text_results_exec db query_text filter_asrs_type n2))
                ranked0).
    { intros trs0 ranked0 Ht0. apply FixFmFacts.order_by_perm. unfold FixFm.combined.
      apply Permutation_map, full_outer_join_perm_r, Permutation_sym.
      now apply FixFmFacts.text_results_perm. }
    f_equal. f_equal. f_equal.
    eapply order_by_unique; [|exact (Hsame _ _ Ht Hord)|exact (Hsame _ _ Ht' Hord')].
    eapply no_ties_ForallOrdPairs; [|exact Hscore].
    apply FixFmFacts.score_tie_same_key.
  - rewrite Hl in Hl'. inversion Hl'; subst n2' n'. destruct Hd as [Hd|Hd]; congruence.
  - rewrite Hl in Hl'. inversion Hl'; subst n2' n'. destruct Hd' as [Hd'|Hd']; congruence.
Qed.

(** Dividing the ranks by their maximum keeps the arrangements that the
    descending order of the ranks admits, when no rank is negative. *)
Lemma normalized_ranking {A : Type} (rank : A -> Q) (l sorted : list A) :
  (forall a, In a l -> (0 <= rank a)%Q) ->
  (order_by (fun a b => (rank b <= rank a)%Q) l sorted
   <-> order_by
         (fun a b => (Spec.normalized_relevance (map rank l) (rank b)
                      <= Spec.normalized_relevance (map rank l) (rank a))%Q) l sorted).
Proof.
  intros Hnonneg. apply order_by_ext_in. intros a b Ha Hb.
  symmetry. apply SpecFacts.normalized_relevance_order.
  - split; [now apply Hnonneg|]. apply SpecFacts.max_relevance_ge. now apply in_map.
  - split; [now apply Hnonneg|]. apply SpecFacts.max_relevance_ge. now apply in_map.
Qed.

End TieFacts.

(** ** The weight extremes over the candidate sets of
    [sql/fix_fm_functions.sql] *)

Module FusionExtremesFacts.
Import Pg TextSearch FixFm PgFacts.

Section Facts.
Variable text_weight : Q.
Variable vrs : list vector_results_row.
Variable trs : list text_results_row.
Hypothesis vector_ids : NoDup (map vr_id vrs).
Hypothesis text_ids : NoDup (map tr_id trs).

Lemma existsb_eqb_In (k : N) (keys : list N) :
  existsb (N.eqb k) keys = true <-> In k keys.
Proof.
  rewrite existsb_exists. split.
  - intros [x [Hx Heq]]. apply N.eqb_eq in Heq. now subst.
  - intros Hin. exists k. split; [exact Hin|apply N.eqb_refl].
Qed.

Lemma fused_vector_ids (ranked : list combined_row) :
  Permutation (combined text_weight vrs trs) ranked ->
  Permutation (map vr_id vrs) (map c_vector_id (filter (Stored.in_vector_set vrs) ranked)).
Proof.
  intros Hp. apply NoDup_Permutation.
  - exact vector_ids.
  - apply NoDup_map_filter.
    apply (Permutation_NoDup (Permutation_map _ Hp)).
    now apply FusionFacts.combined_ids_NoDup.
  - intros id. split; intros Hin.
    + apply in_map_iff in Hin as [l [<- Hl]].
      destruct (FusionFacts.vector_candidate_fused text_weight vrs trs l Hl)
        as (c & Hc & Hid & _).
      apply in_map_iff. exists c. split; [exact Hid|].
      apply filter_In. split; [now apply (Permutation_in _ Hp)|].
      unfold Stored.in_vector_set. apply existsb_eqb_In. rewrite Hid. now apply in_map.
    + apply in_map_iff in Hin as [c [<- Hc]]. apply filter_In in Hc as [_ Hc].
      now apply existsb_eqb_In.
Qed.

Lemma fused_text_ids (ranked : list combined_row) :
  Permutation (combined text_weight vrs trs) ranked ->
  Permutation (map tr_id trs) (map c_vector_id (filter (Stored.in_text_set trs) ranked)).
Proof.
  intros Hp. apply NoDup_Permutation.
  - exact text_ids.
  - apply NoDup_map_filter.
    apply (Permutation_NoDup (Permutation_map _ Hp)).
    now apply FusionFacts.combined_ids_NoDup.
  - intros id. split; intros Hin.
    + apply in_map_iff in Hin as [t [<- Ht]].
      destruct (FusionFacts.text_candidate_fused text_weight vrs trs t Ht)
        as (c & Hc & Hid & _).
      apply in_map_iff. exists c. split; [exact Hid|].
      apply filter_In. split; [now apply (Permutation_in _ Hp)|].
      unfold Stored.in_text_set. apply existsb_eqb_In. rewrite Hid. now apply in_map.
    + apply in_map_iff in Hin as [c [<- Hc]]. apply filter_In in Hc as [_ Hc].
      now apply existsb_eqb_In.
Qed.

Lemma fused_ranks_vector_candidates (ranked : list combined_row) :
  (text_weight == 0)%Q ->
  order_by by_score_desc (combined text_weight vrs trs) ranked ->
  StronglySorted
    (fun a b => (Stored.vector_score_of vrs (c_vector_id b)
                 <= Stored.vector_score_of vrs (c_vector_id a))%Q) ranked
  /\ exists sorted,
       order_by (fun a b => (coalesce_lit (vr_vector_score b) 0
                             <= coalesce_lit (vr_vector_score a) 0)%Q) vrs sorted
       /\ map vr_id sorted = map c_vector_id (filter (Stored.in_vector_set vrs) ranked).
Proof.
  intros Hw [Hp Hs].
  set (le := fun ia ib : N => (Stored.vector_score_of vrs ib
                               <= Stored.vector_score_of vrs ia)%Q).
  assert (Hsim : StronglySorted (fun a b => le (c_vector_id a) (c_vector_id b)) ranked).
  { apply (StronglySorted_ext_in by_score_desc); [|exact Hs].
    intros a b Ha Hb. unfold by_score_desc, le.
    apply (Permutation_in _ (Permutation_sym Hp)) in Ha, Hb.
    destruct (FusionFacts.combined_scores_exact text_weight vrs trs vector_ids text_ids
                a Ha) as (<- & _ & ->).
    destruct (FusionFacts.combined_scores_exact text_weight vrs trs vector_ids text_ids
                b Hb) as (<- & _ & ->).
    rewrite Hw. intros Hle. lra. }
  split; [exact Hsim|].
  destruct (LookupFacts.arranged_by_keys _ _ _ _ (fused_vector_ids ranked Hp))
    as (sorted & Hperm & Hkeys).
  exists sorted. split; [split; [exact Hperm|]|exact Hkeys].
  apply (StronglySorted_ext_in (fun a b => le (vr_id a) (vr_id b))).
  - intros a b Ha Hb. apply (Permutation_in _ (Permutation_sym Hperm)) in Ha, Hb.
    unfold le, Stored.vector_score_of.
    now rewrite (LookupFacts.find_key vr_id vrs a vector_ids Ha),
      (LookupFacts.find_key vr_id vrs b vector_ids Hb).
  - apply (LookupFacts.StronglySorted_by_keys _ c_vector_id le _
             (filter (Stored.in_vector_set vrs) ranked) Hkeys).
    now apply LookupFacts.StronglySorted_filter.
Qed.

Lemma fused_ranks_text_candidates (ranked : list combined_row) :
  (text_weight == 1)%Q ->
  order_by by_score_desc (combined text_weight vrs trs) ranked ->
  StronglySorted
    (fun a b => (Stored.text_score_of trs (c_vector_id b)
                 <= Stored.text_score_of trs (c_vector_id a))%Q) ranked
  /\ exists sorted,
       order_by (fun a b => (tr_text_score b <= tr_text_score a)%Q) trs sorted
       /\ map tr_id sorted = map c_vector_id (filter (Stored.in_text_set trs) ranked).
Proof.
  intros Hw [Hp Hs].
  set (le := fun ia ib : N => (Stored.text_score_of trs ib
                               <= Stored.text_score_of trs ia)%Q).
  assert (Hsim : StronglySorted (fun a b => le (c_vector_id a) (c_vector_id b)) ranked).
  { apply (StronglySorted_ext_in by_score_desc); [|exact Hs].
    intros a b Ha Hb. unfold by_score_desc, le.
    apply (Permutation_in _ (Permutation_sym Hp)) in Ha, Hb.
    destruct (FusionFacts.combined_scores_exact text_weight vrs trs vector_ids text_ids
                a Ha) as (_ & <- & ->).
    destruct (FusionFacts.combined_scores_exact text_weight vrs trs vector_ids text_ids
                b Hb) as (_ & <- & ->).
    rewrite Hw. intros Hle. lra. }
  split; [exact Hsim|].
  destruct (LookupFacts.arranged_by_keys _ _ _ _ (fused_text_ids ranked Hp))
    as (sorted & Hperm & Hkeys).
  exists sorted. split; [split; [exact Hperm|]|exact Hkeys].
  apply (StronglySorted_ext_in (fun a b => le (tr_id a) (tr_id b))).
  - intros a b Ha Hb. apply (Permutation_in _ (Permutation_sym Hperm)) in Ha, Hb.
    unfold le, Stored.text_score_of.
    now rewrite (LookupFacts.find_key tr_id trs a text_ids Ha),
      (LookupFacts.find_key tr_id trs b text_ids Hb).
  - apply (LookupFacts.StronglySorted_by_keys _ c_vector_id le _
             (filter (Stored.in_text_set trs) ranked) Hkeys).
    now apply LookupFacts.StronglySorted_filter.
Qed.

End Facts.

End FusionExtremesFacts.

(** * The claims of the specification

    [hybrid_search_fm_global] has two definitions.  The one of the
    expert-system schema returns rows, and the claims about returned rows
    are stated on it.  Of the one in [sql/fix_fm_functions.sql] the claims
    are stated on the candidate sets and on the fused rows of its query. *)

(** Runs on the concrete store: [run_rows E] computes the rows of the
    call in the equation [E : call = Rows rows] (or refutes [E]). *)
Ltac run_rows E :=
  vm_compute in E; first [discriminate E | injection E; intros; subst].

(** Closed comparisons of rationals, by computation. *)
Ltac decide_Q :=
  repeat match goal with
         | |- ~ _ => intro
         | H : (_ <= _ <= _)%Q |- _ => destruct H
         end;
  first
    [ reflexivity
    | discriminate
    | apply Qle_bool_iff; vm_compute; reflexivity
    | apply Qeq_bool_iff; vm_compute; reflexivity
    | match goal with
      | H : (_ <= _)%Q |- _ =>
          solve [apply Qle_bool_iff in H; vm_compute in H; discriminate H]
      | H : (_ == _)%Q |- _ =>
          solve [apply Qeq_bool_iff in H; vm_compute in H; discriminate H]
      end
    | vm_compute; first [reflexivity | discriminate] ].

(** Identifiers listed without repetition. *)
Ltac distinct_ids :=
  vm_compute; repeat (constructor; [simpl; intuition discriminate|]); constructor.

(** ** Scores *)

(** C1, as the functions compute it.  Every row that the expert-system
    [hybrid_search_fm_global] returns is, the chunk identifiers being
    unique, the row of a stored chunk: its vector similarity is 1 minus
    the cosine distance of the chunk's embedding to the query vector (0
    for a chunk without an embedding), its text similarity is the
    [ts_rank_cd] of the chunk's text as the ranking function returns it
    (0 for a chunk that does not match the query), not divided by the
    maximum over the candidates, and its combined score is
    [vector_similarity * (1 - text_weight) + text_similarity * text_weight].
    In [sql/fix_fm_functions.sql], where [id] is a key of the three
    tables, every row of [combined] blends in the same way the scores
    that the two candidate sets hold for its identifier (0 where a set
    holds none), which are 1 minus the cosine distance of a stored
    embedding and the [ts_rank] of a stored matching text. *)
Theorem combined_score_blends_raw_scores `{TextSearch.Operators} :
  (forall (db : ExpertSchema.database) query_embedding query_text match_count text_weight
          asrs_topic_filter out r,
     NoDup (map ExpertSchema.v_id (ExpertSchema.fm_global_vectors db)) ->
     ExpertSchema.hybrid_search_fm_global db query_embedding query_text text_weight
       asrs_topic_filter match_count (Pg.Rows out) ->
     In r out ->
     exists v, In v (ExpertSchema.fm_global_vectors db)
       /\ ExpertSchema.v_id v = ExpertSchema.vector_id r
       /\ ExpertSchema.vector_similarity r
          = match ExpertSchema.v_embedding v with
            | Some e => (1 - TextSearch.cosine_distance e query_embedding)%Q
            | None => 0%Q
            end
       /\ ExpertSchema.text_similarity r
          = (if TextSearch.ts_match (TextSearch.to_tsvector (ExpertSchema.v_content v))
                  (TextSearch.plainto_tsquery query_text)
             then TextSearch.ts_rank_cd (TextSearch.to_tsvector (ExpertSchema.v_content v))
                    (TextSearch.plainto_tsquery query_text)
             else 0%Q)
       /\ ExpertSchema.combined_score r
          = (ExpertSchema.vector_similarity r * (1 - text_weight)
             + ExpertSchema.text_similarity r * text_weight)%Q)
  /\
  (forall (db : FixFm.database) query_embedding query_text text_weight filter_asrs_type
          n vrs trs,
     NoDup (map FixFm.v_id (FixFm.fm_global_vectors db)) ->
     NoDup (map FixFm.t_id (FixFm.fm_global_tables db)) ->
     NoDup (map FixFm.f_id (FixFm.fm_global_figures db)) ->
     FixFm.vector_results db query_embedding filter_asrs_type n vrs ->
     FixFm.text_results db query_text filter_asrs_type n trs ->
     (forall c, In c (FixFm.combined text_weight vrs trs) ->
        FixFm.c_vector_similarity c = Stored.vector_score_of vrs (FixFm.c_vector_id c)
        /\ FixFm.c_text_similarity c = Stored.text_score_of trs (FixFm.c_vector_id c)
        /\ FixFm.c_score c
           = (FixFm.c_vector_similarity c * (1 - text_weight)
              + FixFm.c_text_similarity c * text_weight)%Q)
     /\ (forall l, In l vrs ->
           exists v, In v (FixFm.fm_global_vectors db) /\ FixFm.vr_id l = FixFm.v_id v
             /\ FixFm.vr_vector_score l
                = option_map (fun e => 1 - TextSearch.cosine_distance e query_embedding)%Q
                    (FixFm.v_embedding v))
     /\ (forall t, In t trs ->
           exists v, In v (FixFm.fm_global_vectors db) /\ FixFm.tr_id t = FixFm.v_id v
             /\ TextSearch.ts_match (TextSearch.to_tsvector (FixFm.v_content v))
                  (TextSearch.plainto_tsquery query_text) = true
             /\ FixFm.tr_text_score t
                = TextSearch.ts_rank (TextSearch.to_tsvector (FixFm.v_content v))
                    (TextSearch.plainto_tsquery query_text))).
Proof.
  split.
  - intros db qe q N w topic out r Hids Hh Hin.
    apply (ExpertRankingFacts.returned_row_joined _ _ _ _ _ _ _ _ Hh) in Hin.
    destruct (ExpertRankingFacts.joined_row_exact _ _ _ _ _ Hids r Hin)
      as (v & Hv & Hid & _ & _ & Hvs & Hts & Hs).
    exists v. auto.
  - intros db qe q w fil n vrs trs Hkv Hkt Hkf Hv Ht. split; [|split].
    + intros c Hc. apply FusionFacts.combined_scores_exact; [| |exact Hc].
      * eapply FixFmFacts.vector_results_NoDup; eauto.
      * eapply FixFmFacts.text_results_NoDup; eauto.
    + intros l Hl. eapply FixFmFacts.vector_score_origin; eauto.
    + intros t Hin.
      destruct (FixFmFacts.text_score_origin _ _ _ _ _ _ Ht Hin)
        as (v & Hvin & Hid & _ & Hm & Hs).
      exists v. auto.
Qed.

Lemma combined_score_blends_raw_scores_witness :
  match ExpertSchema.hybrid_search_fm_global_exec (H := Fixture.ops) Fixture.expert_store
          (Fixture.axis 0) "aisle" (3 # 10) None 5 with
  | Pg.Rows (r :: _) =>
      exists v, In v (ExpertSchema.fm_global_vectors Fixture.expert_store)
        /\ ExpertSchema.v_id v = ExpertSchema.vector_id r
        /\ ExpertSchema.combined_score r
           = (ExpertSchema.vector_similarity r * (1 - (3 # 10))
              + ExpertSchema.text_similarity r * (3 # 10))%Q
  | _ => False
  end.
Proof.
  pose proof (ExpertSchemaFacts.expert_exec_admissible (H := Fixture.ops)
                Fixture.expert_store (Fixture.axis 0) "aisle" (3 # 10) None 5) as Hadm.
  assert (Hids : NoDup (map ExpertSchema.v_id
                          (ExpertSchema.fm_global_vectors Fixture.expert_store)))
    by distinct_ids.
  destruct (ExpertSchema.hybrid_search_fm_global_exec _ _ _ _ _ _) as [[|r rest]|e] eqn:E;
    [run_rows E| |run_rows E].
  destruct (proj1 (@combined_score_blends_raw_scores Fixture.ops) _ _ _ _ _ _ _ r
              Hids Hadm (or_introl eq_refl)) as (v & Hv & Hid & _ & _ & Hs).
  exists v. auto.
Defined.

(** C1 as stated fails: with one tenth as the greatest rank among the
    lexical candidates, the specification's score of the first row is 1
    (its rank normalised to 1), while the expert-system function returns
    73/100, the blend of the rank itself. *)
Lemma normalized_blend_counterexample :
  let call := ExpertSchema.hybrid_search_fm_global_exec (H := Fixture.ops)
                Fixture.expert_store (Fixture.axis 0) "aisle" (3 # 10) None 5 in
  let lexical := map ExpertSchema.tr_text_sim
                   (ExpertSchema.text_results (H := Fixture.ops) Fixture.expert_store
                      "aisle" None) in
  ExpertSchema.hybrid_search_fm_global (H := Fixture.ops) Fixture.expert_store
    (Fixture.axis 0) "aisle" (3 # 10) None 5 call
  /\ match call with
     | Pg.Rows (r :: _) =>
         ExpertSchema.vector_id r = 2%N
         /\ (ExpertSchema.vector_similarity r == 1)%Q
         /\ (ExpertSchema.text_similarity r == 1 # 10)%Q
         /\ (ExpertSchema.combined_score r == 73 # 100)%Q
         /\ (Spec.combined_score (3 # 10) lexical
               (ExpertSchema.vector_similarity r) (ExpertSchema.text_similarity r) == 1)%Q
         /\ ~ (ExpertSchema.combined_score r
               == Spec.combined_score (3 # 10) lexical
                    (ExpertSchema.vector_similarity r) (ExpertSchema.text_similarity r))%Q
     | _ => False
     end.
Proof.
  intros call lexical. split; [apply ExpertSchemaFacts.expert_exec_admissible|].
  subst call lexical.
  destruct (ExpertSchema.hybrid_search_fm_global_exec _ _ _ _ _ _) as [[|r rest]|e] eqn:E;
    [run_rows E| |run_rows E].
  run_rows E. repeat split; decide_Q.
Qed.

(** C4, as the functions compute it: when the cosine distances of the
    stored embeddings lie in their range, 0 to 2, every row that the
    expert-system [hybrid_search_fm_global] returns, and every row of
    [combined] in [sql/fix_fm_functions.sql], has a vector similarity
    between -1 and 1; its combined score lies between 0 and 1 whenever
    the text weight lies between 0 and 1, the row's vector similarity is
    not negative and its text similarity lies between 0 and 1. *)
Theorem score_bounds `{TextSearch.Operators} :
  (forall (db : ExpertSchema.database) query_embedding query_text match_count text_weight
          asrs_topic_filter out r,
     ExpertSchema.hybrid_search_fm_global db query_embedding query_text text_weight
       asrs_topic_filter match_count (Pg.Rows out) ->
     In r out ->
     forallb (fun v =>
                TextSearch.distance_in_range query_embedding (ExpertSchema.v_embedding v))
       (ExpertSchema.fm_global_vectors db) = true ->
     (-1 <= ExpertSchema.vector_similarity r <= 1)%Q
     /\ ((0 <= text_weight <= 1)%Q ->
         (0 <= ExpertSchema.vector_similarity r)%Q ->
         (0 <= ExpertSchema.text_similarity r <= 1)%Q ->
         (0 <= ExpertSchema.combined_score r <= 1)%Q))
  /\
  (forall (db : FixFm.database) query_embedding text_weight filter_asrs_type n vrs trs c,
     FixFm.vector_results db query_embedding filter_asrs_type n vrs ->
     In c (FixFm.combined text_weight vrs trs) ->
     forallb (fun v => TextSearch.distance_in_range query_embedding (FixFm.v_embedding v))
       (FixFm.fm_global_vectors db) = true ->
     (-1 <= FixFm.c_vector_similarity c <= 1)%Q
     /\ ((0 <= text_weight <= 1)%Q ->
         (0 <= FixFm.c_vector_similarity c)%Q ->
         (0 <= FixFm.c_text_similarity c <= 1)%Q ->
         (0 <= FixFm.c_score c <= 1)%Q)).
Proof.
  split.
  - intros db qe q N w topic out r Hh Hin Hrange.
    destruct (ExpertSchemaFacts.expert_hybrid_row_scores _ _ _ _ _ _ _ _ Hh Hin)
      as (Hscore & Hvec & _).
    assert (Hb : (-1 <= ExpertSchema.vector_similarity r <= 1)%Q).
    { destruct Hvec as [->|(v & e & Hv & _ & He & ->)]; [lra|].
      rewrite forallb_forall in Hrange. specialize (Hrange v Hv).
      unfold TextSearch.distance_in_range in Hrange. rewrite He in Hrange.
      apply andb_true_iff in Hrange as [Hlo Hhi].
      apply Qle_bool_iff in Hlo, Hhi. lra. }
    split; [exact Hb|].
    rewrite Hscore. intros Hw Hvs Hts. nra.
  - intros db qe w fil n vrs trs c Hv Hc Hrange.
    unfold FixFm.combined in Hc. apply in_map_iff in Hc as [j [<- Hj]].
    apply PgFacts.full_outer_join_In in Hj.
    assert (Hb : (-1 <= FixFm.c_vector_similarity (FixFm.select_combined w j) <= 1)%Q).
    { assert (Hl : forall l, In l vrs ->
                (-1 <= Pg.coalesce_lit (FixFm.vr_vector_score l) 0 <= 1)%Q).
      { intros l Hl.
        destruct (FixFmFacts.vector_score_origin _ _ _ _ _ _ Hv Hl) as (v & Hvin & _ & ->).
        rewrite forallb_forall in Hrange. specialize (Hrange v Hvin).
        unfold TextSearch.distance_in_range in Hrange.
        destruct (FixFm.v_embedding v) as [e|]; simpl; [|lra].
        apply andb_true_iff in Hrange as [Hlo Hhi].
        apply Qle_bool_iff in Hlo, Hhi. lra. }
      destruct j as [l t|l|t]; simpl; [apply Hl; tauto|apply Hl; tauto|lra]. }
    split; [exact Hb|].
    intros Hw Hvs Hts.
    assert (Hs : FixFm.c_score (FixFm.select_combined w j)
                 = (FixFm.c_vector_similarity (FixFm.select_combined w j) * (1 - w)
                    + FixFm.c_text_similarity (FixFm.select_combined w j) * w)%Q)
      by reflexivity.
    rewrite Hs. nra.
Qed.

Lemma score_bounds_witness :
  match ExpertSchema.hybrid_search_fm_global_exec (H := Fixture.ops) Fixture.expert_store
          (Fixture.axis 0) "aisle" (3 # 10) None 5 with
  | Pg.Rows (r :: _) =>
      (-1 <= ExpertSchema.vector_similarity r <= 1)%Q
      /\ (0 <= ExpertSchema.combined_score r <= 1)%Q
  | _ => False
  end.
Proof.
  pose proof (ExpertSchemaFacts.expert_exec_admissible (H := Fixture.ops)
                Fixture.expert_store (Fixture.axis 0) "aisle" (3 # 10) None 5) as Hadm.
  destruct (ExpertSchema.hybrid_search_fm_global_exec _ _ _ _ _ _) as [[|r rest]|e] eqn:E;
    [run_rows E| |run_rows E].
  destruct (proj1 (@score_bounds Fixture.ops) _ _ _ _ _ _ _ r Hadm
              (or_introl eq_refl) eq_refl) as [Hv Hc].
  split; [exact Hv|]. run_rows E. apply Hc; repeat split; decide_Q.
Defined.

(** C4 as stated fails: the chunk whose embedding points away from the
    query vector has cosine distance 2; the expert-system function
    returns it with vector similarity -1 and combined score -7/10. *)
Lemma score_bounds_counterexample :
  let call := ExpertSchema.hybrid_search_fm_global_exec (H := Fixture.ops)
                Fixture.expert_store (Fixture.axis 0) "aisle" (3 # 10) None 5 in
  ExpertSchema.hybrid_search_fm_global (H := Fixture.ops) Fixture.expert_store
    (Fixture.axis 0) "aisle" (3 # 10) None 5 call
  /\ match call with
     | Pg.Rows [_; _; r] =>
         ExpertSchema.vector_id r = 3%N
         /\ (ExpertSchema.vector_similarity r == -1)%Q
         /\ (ExpertSchema.combined_score r == - (7 # 10))%Q
         /\ ~ (0 <= ExpertSchema.vector_similarity r <= 1)%Q
         /\ ~ (0 <= ExpertSchema.combined_score r <= 1)%Q
     | _ => False
     end.
Proof.
  intros call. split; [apply ExpertSchemaFacts.expert_exec_admissible|]. subst call.
  destruct (ExpertSchema.hybrid_search_fm_global_exec _ _ _ _ _ _) as [rows|e] eqn:E;
    [|run_rows E].
  run_rows E. repeat split; decide_Q.
Qed.

(** ** The lexical candidates *)

(** C8: in both definitions of [hybrid_search_fm_global], every row of the
    lexical candidate set [text_results] is a stored row whose text
    satisfies [to_tsvector(content) @@ plainto_tsquery(query_text)]; at
    least one lexeme of the query occurs in it. *)
Theorem lexical_candidates_match_query `{TextSearch.Operators} :
  (forall (db : FixFm.database) query_text filter_asrs_type n trs t,
     FixFm.text_results db query_text filter_asrs_type n trs ->
     In t trs ->
     exists v, In v (FixFm.fm_global_vectors db)
       /\ FixFm.tr_id t = FixFm.v_id v
       /\ FixFm.tr_content t = FixFm.v_content v
       /\ TextSearch.ts_match (TextSearch.to_tsvector (FixFm.v_content v))
            (TextSearch.plainto_tsquery query_text) = true
       /\ (0 < TextSearch.matching_tokens (TextSearch.to_tsvector (FixFm.v_content v))
                 (TextSearch.plainto_tsquery query_text))%nat)
  /\
  (forall (db : ExpertSchema.database) query_text asrs_topic_filter t,
     In t (ExpertSchema.text_results db query_text asrs_topic_filter) ->
     exists v, In v (ExpertSchema.fm_global_vectors db)
       /\ ExpertSchema.tr_id t = ExpertSchema.v_id v
       /\ ExpertSchema.tr_content t = ExpertSchema.v_content v
       /\ TextSearch.ts_match (TextSearch.to_tsvector (ExpertSchema.v_content v))
            (TextSearch.plainto_tsquery query_text) = true
       /\ (0 < TextSearch.matching_tokens
                 (TextSearch.to_tsvector (ExpertSchema.v_content v))
                 (TextSearch.plainto_tsquery query_text))%nat).
Proof.
  split.
  - intros db q fil n trs t Ht Hin.
    destruct (FixFmFacts.text_score_origin _ _ _ _ _ _ Ht Hin) as (v & Hv & Hid & Hc & Hm & _).
    exists v. repeat split; auto.
    now apply TextSearchFacts.ts_match_matching_tokens.
  - intros db q topic t Hin.
    destruct (ExpertSchemaFacts.text_sim_origin _ _ _ _ Hin) as (v & Hv & Hid & Hc & Hm & _).
    exists v. repeat split; auto.
    now apply TextSearchFacts.ts_match_matching_tokens.
Qed.

Lemma lexical_candidates_match_query_witness :
  match FixFm.text_results_exec (H := Fixture.ops) Fixture.store "aisle" None 10,
        ExpertSchema.text_results (H := Fixture.ops) Fixture.expert_store "aisle" None with
  | t :: _, t' :: _ =>
      (exists v, In v (FixFm.fm_global_vectors Fixture.store)
         /\ FixFm.tr_id t = FixFm.v_id v
         /\ FixFm.tr_content t = FixFm.v_content v
         /\ TextSearch.ts_match
              (TextSearch.to_tsvector (H := Fixture.ops) (FixFm.v_content v))
              (TextSearch.plainto_tsquery (H := Fixture.ops) "aisle") = true
         /\ (0 < TextSearch.matching_tokens
                   (TextSearch.to_tsvector (H := Fixture.ops) (FixFm.v_content v))
                   (TextSearch.plainto_tsquery (H := Fixture.ops) "aisle"))%nat)
      /\ (exists v, In v (ExpertSchema.fm_global_vectors Fixture.expert_store)
            /\ ExpertSchema.tr_id t' = ExpertSchema.v_id v
            /\ ExpertSchema.tr_content t' = ExpertSchema.v_content v
            /\ TextSearch.ts_match
                 (TextSearch.to_tsvector (H := Fixture.ops) (ExpertSchema.v_content v))
                 (TextSearch.plainto_tsquery (H := Fixture.ops) "aisle") = true
            /\ (0 < TextSearch.matching_tokens
                      (TextSearch.to_tsvector (H := Fixture.ops) (ExpertSchema.v_content v))
                      (TextSearch.plainto_tsquery (H := Fixture.ops) "aisle"))%nat)
  | _, _ => False
  end.
Proof.
  pose proof (FixFmFacts.text_results_exec_admissible (H := Fixture.ops)
                Fixture.store "aisle" None 10) as Hadm.
  destruct (FixFm.text_results_exec _ _ _ _) as [|t rest] eqn:E; [run_rows E|].
  destruct (ExpertSchema.text_results _ _ _) as [|t' rest'] eqn:E'; [run_rows E'|].
  split.
  - apply (proj1 (@lexical_candidates_match_query Fixture.ops) _ _ _ _ _ t Hadm).
    now left.
  - apply (proj2 (@lexical_candidates_match_query Fixture.ops)
             Fixture.expert_store "aisle"%string None t').
    rewrite E'. now left.
Defined.

(** ** Blank query text *)

(** C5, as the functions behave: for a query text that is empty or white
    space only, the lexical candidate set of either definition is empty
    and nothing is raised for it.  The expert-system
    [hybrid_search_fm_global] then gives every returned row the text
    similarity 0 and the combined score
    [vector_similarity * (1 - text_weight)]; with a limit that is not
    negative and embeddings of the query vector's dimension, it returns
    rows and raises nothing. *)
Theorem blank_query_returns_vector_rows `{TextSearch.Operators} (query_text : string) :
  TextSearch.is_blank query_text = true ->
  (forall (db : FixFm.database) filter_asrs_type n trs,
     FixFm.text_results db query_text filter_asrs_type n trs -> trs = [])
  /\ (forall (db : ExpertSchema.database) query_embedding match_count text_weight
             asrs_topic_filter,
        ExpertSchema.text_results db query_text asrs_topic_filter = []
        /\ (forall out r,
              ExpertSchema.hybrid_search_fm_global db query_embedding query_text
                text_weight asrs_topic_filter match_count (Pg.Rows out) ->
              In r out ->
              ExpertSchema.text_similarity r = 0%Q
              /\ (ExpertSchema.combined_score r
                  == ExpertSchema.vector_similarity r * (1 - text_weight))%Q)
        /\ (0 <= match_count ->
            ExpertSchema.dimensions_agree query_embedding
              (ExpertSchema.vector_candidates db asrs_topic_filter) = true ->
            (exists out,
               ExpertSchema.hybrid_search_fm_global db query_embedding query_text
                 text_weight asrs_topic_filter match_count (Pg.Rows out))
            /\ forall o,
                 ExpertSchema.hybrid_search_fm_global db query_embedding query_text
                   text_weight asrs_topic_filter match_count o ->
                 exists out, o = Pg.Rows out)).
Proof.
  intros Hb. split.
  - intros db fil n trs. now apply FixFmFacts.text_results_blank.
  - intros db qe N w topic.
    assert (Hnone : ExpertSchema.text_results db query_text topic = []).
    { unfold ExpertSchema.text_results.
      assert (Hf : forall l,
                filter (fun j => ExpertSchema.text_matches query_text j
                                 && ExpertSchema.optional_filter topic
                                      (ExpertSchema.v_asrs_topic (ExpertSchema.src_v j)))
                  l = []).
      { induction l as [|j l IH]; [reflexivity|]. simpl.
        unfold ExpertSchema.text_matches at 1.
        rewrite (TextSearchFacts.plainto_tsquery_blank _ Hb). simpl. exact IH. }
      now rewrite Hf. }
    split; [exact Hnone|]. split.
    + intros out r Hh Hin.
      destruct (ExpertSchemaFacts.expert_hybrid_row_In _ _ _ _ _ _ _ _ Hh Hin)
        as (j & Hj & ->).
      rewrite Hnone in Hj. apply PgFacts.full_outer_join_In in Hj.
      destruct j as [l t|l|t]; [now destruct Hj as (_ & [] & _)| |now destruct Hj as [[] _]].
      split; [reflexivity|]. simpl. ring.
    + intros Hlo Hdim. split.
      * pose proof (ExpertSchemaFacts.expert_exec_admissible db qe query_text w topic N)
          as Hadm.
        unfold ExpertSchema.hybrid_search_fm_global_exec in Hadm.
        rewrite (MoreFacts.limit_count_nonneg _ Hlo), Hdim, andb_false_r in Hadm. eauto.
      * intros o Ho. inversion Ho as [n ranked Hn Hd Hord|n Hn Hnz Hd|e He]; subst.
        -- eauto.
        -- congruence.
        -- rewrite (MoreFacts.limit_count_nonneg _ Hlo) in He. discriminate.
Qed.

Lemma blank_query_returns_vector_rows_witness :
  TextSearch.is_blank "   " = true
  /\ ExpertSchema.text_results (H := Fixture.ops) Fixture.expert_store "   " None = []
  /\ exists out,
       ExpertSchema.hybrid_search_fm_global (H := Fixture.ops) Fixture.expert_store
         (Fixture.axis 0) "   " (3 # 10) None 5 (Pg.Rows out).
Proof.
  split; [reflexivity|].
  destruct (proj2 (blank_query_returns_vector_rows (H := Fixture.ops) "   " eq_refl)
              Fixture.expert_store (Fixture.axis 0) 5 (3 # 10) None)
    as (Hnone & _ & Hrows).
  split; [exact Hnone|].
  apply Hrows; [lia|vm_compute; reflexivity].
Defined.

(** C5 as stated fails: a call of the expert-system function with the
    query text of three spaces raises nothing; it returns the three chunks
    that have an embedding, ranked by their vector score. *)
Lemma empty_query_counterexample :
  let call := ExpertSchema.hybrid_search_fm_global_exec (H := Fixture.ops)
                Fixture.expert_store (Fixture.axis 0) "   " (3 # 10) None 5 in
  TextSearch.is_blank "   " = true
  /\ ExpertSchema.hybrid_search_fm_global (H := Fixture.ops) Fixture.expert_store
       (Fixture.axis 0) "   " (3 # 10) None 5 call
  /\ (forall e, call <> Pg.Raised e)
  /\ match call with
     | Pg.Rows out => map ExpertSchema.vector_id out = [2; 1; 3]%N
     | Pg.Raised _ => False
     end.
Proof.
  intros call. split; [reflexivity|].
  split; [apply ExpertSchemaFacts.expert_exec_admissible|].
  subst call.
  destruct (ExpertSchema.hybrid_search_fm_global_exec _ _ _ _ _ _) as [rows|e] eqn:E;
    [|run_rows E].
  split; [discriminate|]. run_rows E. reflexivity.
Qed.

(** ** Weight extremes *)




(** ** Ranking and truncation *)

(** C3, as the functions rank: the list that the expert-system
    [hybrid_search_fm_global] returns is in descending order of combined
    score (the order of rows with equal scores is left open), it is no
    longer than the requested limit, and it is a leading part of the
    joined candidates: the candidates left out score no higher than any
    returned row, and when more candidates exist than the limit the list
    has exactly that many rows.  The final [SELECT] of
    [sql/fix_fm_functions.sql] keeps the same of its fused rows. *)
Theorem ranking_and_truncation `{TextSearch.Operators} :
  (forall (db : ExpertSchema.database) query_embedding query_text match_count text_weight
          asrs_topic_filter out,
     ExpertSchema.hybrid_search_fm_global db query_embedding query_text text_weight
       asrs_topic_filter match_count (Pg.Rows out) ->
     StronglySorted
       (fun a b => (ExpertSchema.combined_score b <= ExpertSchema.combined_score a)%Q) out
     /\ Z.of_nat (List.length out) <= match_count
     /\ exists rest,
          Permutation
            (ExpertSchema.joined_results db query_embedding query_text text_weight
               asrs_topic_filter) (out ++ rest)
          /\ (forall a b, In a out -> In b rest ->
                (ExpertSchema.combined_score b <= ExpertSchema.combined_score a)%Q)
          /\ (match_count
              < Z.of_nat (List.length
                  (ExpertSchema.joined_results db query_embedding query_text text_weight
                     asrs_topic_filter)) ->
              Z.of_nat (List.length out) = match_count))
  /\
  (forall match_count n2 n text_weight (vrs : list FixFm.vector_results_row)
          (trs : list FixFm.text_results_row) ranked out,
     FixFm.limits match_count = inr (n2, n) ->
     Pg.order_by FixFm.by_score_desc (FixFm.combined text_weight vrs trs) ranked ->
     out = Pg.limit_rows n (map FixFm.select_hybrid ranked) ->
     StronglySorted (fun a b => (FixFm.combined_score b <= FixFm.combined_score a)%Q) out
     /\ Z.of_nat (List.length out) <= match_count
     /\ exists rest,
          Permutation (map FixFm.select_hybrid (FixFm.combined text_weight vrs trs))
            (out ++ rest)
          /\ (forall a b, In a out -> In b rest ->
                (FixFm.combined_score b <= FixFm.combined_score a)%Q)
          /\ (match_count < Z.of_nat (List.length (FixFm.combined text_weight vrs trs)) ->
              Z.of_nat (List.length out) = match_count)).
Proof.
  split.
  - intros db qe q N w topic out Hh.
    destruct (ExpertSchemaFacts.expert_hybrid_rows_inv _ _ _ _ _ _ _ Hh)
      as (n & ranked & Hn & [Hp Hs] & ->).
    apply MoreFacts.limit_count_inr in Hn as [Hlo ->].
    split; [now apply PgFacts.limit_rows_sorted|].
    split; [rewrite PgFacts.limit_rows_length; lia|].
    exists (skipn (N.to_nat (Z.to_N N)) ranked). split; [|split].
    + now rewrite <- PgFacts.limit_rows_split.
    + intros a b Ha Hb. rewrite (PgFacts.limit_rows_split (Z.to_N N) ranked) in Hs.
      exact (PgFacts.StronglySorted_app_le _ _ _ Hs a b Ha Hb).
    + intros Hmore. rewrite PgFacts.limit_rows_length, <- (Permutation_length Hp). lia.
  - intros N n2 n w vrs trs ranked out Hl Hord ->.
    apply FixFmFacts.limits_valid in Hl as (Hlo & -> & _ & _).
    destruct (FusionFacts.final_select (Z.to_N N) _ _ Hord) as (Hs & Hlen & Hrest & Hfull).
    split; [exact Hs|]. split; [lia|].
    destruct Hrest as (rest & Hp & Hle). exists rest.
    split; [exact Hp|]. split; [exact Hle|].
    intros Hmore. rewrite Hfull; lia.
Qed.

Lemma ranking_and_truncation_witness :
  match ExpertSchema.hybrid_search_fm_global_exec (H := Fixture.ops) Fixture.expert_store
          (Fixture.axis 0) "aisle" (3 # 10) None 2 with
  | Pg.Rows out =>
      StronglySorted
        (fun a b => (ExpertSchema.combined_score b <= ExpertSchema.combined_score a)%Q) out
      /\ Z.of_nat (List.length out) = 2
  | Pg.Raised _ => False
  end.
Proof.
  pose proof (ExpertSchemaFacts.expert_exec_admissible (H := Fixture.ops)
                Fixture.expert_store (Fixture.axis 0) "aisle" (3 # 10) None 2) as Hadm.
  assert (Hmore : 2 < Z.of_nat (List.length
                        (ExpertSchema.joined_results (H := Fixture.ops)
                           Fixture.expert_store (Fixture.axis 0) "aisle" (3 # 10) None)))
    by (vm_compute; reflexivity).
  destruct (ExpertSchema.hybrid_search_fm_global_exec _ _ _ _ _ _) as [out|e] eqn:E;
    [|run_rows E].
  destruct (proj1 (@ranking_and_truncation Fixture.ops) _ _ _ _ _ _ _ Hadm)
    as (Hs & _ & rest & _ & _ & Hfull).
  split; [exact Hs|exact (Hfull Hmore)].
Defined.

(** C3 as stated fails on ties: the two chunks with the same text and the
    same embedding have the same combined score, 73/100, and the
    expert-system function may return identifier 2 before identifier 1. *)
Lemma tie_break_counterexample :
  let call := ExpertSchema.hybrid_search_fm_global_exec (H := Fixture.ops)
                Fixture.expert_store (Fixture.axis 0) "aisle" (3 # 10) None 5 in
  ExpertSchema.hybrid_search_fm_global (H := Fixture.ops) Fixture.expert_store
    (Fixture.axis 0) "aisle" (3 # 10) None 5 call
  /\ match call with
     | Pg.Rows ((a :: b :: _) as out) =>
         ExpertSchema.vector_id a = 2%N /\ ExpertSchema.vector_id b = 1%N
         /\ (ExpertSchema.combined_score a == ExpertSchema.combined_score b)%Q
         /\ ~ Spec.ranked_before (ExpertSchema.combined_score a) (ExpertSchema.vector_id a)
                (ExpertSchema.combined_score b) (ExpertSchema.vector_id b)
         /\ ~ StronglySorted
                (fun x y =>
                   Spec.ranked_before (ExpertSchema.combined_score x)
                     (ExpertSchema.vector_id x) (ExpertSchema.combined_score y)
                     (ExpertSchema.vector_id y)) out
     | _ => False
     end.
Proof.
  intros call. split; [apply ExpertSchemaFacts.expert_exec_admissible|]. subst call.
  destruct (ExpertSchema.hybrid_search_fm_global_exec _ _ _ _ _ _) as [rows|e] eqn:E;
    [|run_rows E].
  run_rows E.
  assert (Hno : ~ Spec.ranked_before (730 # 1000) 2 (730 # 1000) 1).
  { intros [Hlt|[_ Hle]]; [revert Hlt|revert Hle]; vm_compute; intros Hx;
      [discriminate Hx|now apply Hx]. }
  split; [reflexivity|]. split; [reflexivity|]. split; [decide_Q|].
  split; [exact Hno|].
  intros Hs. destruct (StronglySorted_inv Hs) as [_ Hall].
  exact (Hno (Forall_inv Hall)).
Qed.

(** ** Fusion *)

(** C2, as the functions fuse.  In [sql/fix_fm_functions.sql], where [id]
    is a key of the three tables, the vector and the lexical candidate
    set of a call with limit [match_count] have at most
    [2 * match_count] rows each; every candidate of either set is in
    [combined], the full outer join on [id], with the score its set
    holds for it; a fused row whose identifier is missing from one set
    has 0 for that set's score; and no identifier is fused twice.
    [search_fm_global_all] merges the three collections with [UNION ALL]
    and removes nothing: it returns as many rows as the limit and the
    stored embeddings allow, and no record (a table and an [id] in it)
    twice, where [id] is a key of each table. *)
Theorem candidates_fused_once `{TextSearch.Operators} :
  (forall (db : FixFm.database) query_embedding query_text match_count text_weight
          filter_asrs_type n2 n vrs trs,
     NoDup (map FixFm.v_id (FixFm.fm_global_vectors db)) ->
     NoDup (map FixFm.t_id (FixFm.fm_global_tables db)) ->
     NoDup (map FixFm.f_id (FixFm.fm_global_figures db)) ->
     FixFm.limits match_count = inr (n2, n) ->
     FixFm.vector_results db query_embedding filter_asrs_type n2 vrs ->
     FixFm.text_results db query_text filter_asrs_type n2 trs ->
     Z.of_nat (List.length vrs) <= 2 * match_count
     /\ Z.of_nat (List.length trs) <= 2 * match_count
     /\ (forall l, In l vrs ->
           exists c, In c (FixFm.combined text_weight vrs trs)
             /\ FixFm.c_vector_id c = FixFm.vr_id l
             /\ FixFm.c_vector_similarity c = Pg.coalesce_lit (FixFm.vr_vector_score l) 0%Q)
     /\ (forall t, In t trs ->
           exists c, In c (FixFm.combined text_weight vrs trs)
             /\ FixFm.c_vector_id c = FixFm.tr_id t
             /\ FixFm.c_text_similarity c = FixFm.tr_text_score t)
     /\ (forall c, In c (FixFm.combined text_weight vrs trs) ->
           (In (FixFm.c_vector_id c) (map FixFm.vr_id vrs)
            \/ In (FixFm.c_vector_id c) (map FixFm.tr_id trs))
           /\ (~ In (FixFm.c_vector_id c) (map FixFm.vr_id vrs) ->
               FixFm.c_vector_similarity c = 0%Q)
           /\ (~ In (FixFm.c_vector_id c) (map FixFm.tr_id trs) ->
               FixFm.c_text_similarity c = 0%Q))
     /\ NoDup (map FixFm.c_vector_id (FixFm.combined text_weight vrs trs)))
  /\
  (forall (db : Unified.database) query_embedding query_text match_count out,
     Unified.search_fm_global_all db query_embedding query_text match_count (Pg.Rows out) ->
     Z.of_nat (List.length out)
     = Z.min match_count
         (Z.of_nat (List.length
            (filter (fun c => Unified.is_not_null (Unified.c_embedding c))
               (Unified.fm_text_chunks db))
          + List.length
              (filter (fun tv => Unified.is_not_null (Unified.tv_embedding tv))
                 (Unified.fm_table_vectors db))
          + List.length
              (filter (fun v => Unified.is_not_null (Unified.v_embedding v))
                 (Unified.fm_global_vectors db))))
     /\ (NoDup (map Unified.c_id (Unified.fm_text_chunks db)) ->
         NoDup (map Unified.tv_id (Unified.fm_table_vectors db)) ->
         NoDup (map Unified.v_id (Unified.fm_global_vectors db)) ->
         NoDup (map Unified.record_identity out))).
Proof.
  split.
  { intros db query_embedding query_text match_count text_weight filter_asrs_type n2 n
      vrs trs Hkv Hkt Hkf Hl Hv Ht.
    apply FixFmFacts.limits_valid in Hl as (Hlo & -> & -> & _).
    assert (Hnv : NoDup (map FixFm.vr_id vrs))
      by (eapply FixFmFacts.vector_results_NoDup; eauto).
    assert (Hnt : NoDup (map FixFm.tr_id trs))
      by (eapply FixFmFacts.text_results_NoDup; eauto).
    split; [|split; [|split; [|split; [|split]]]].
    - destruct Hv as [sorted [_ ->]]. rewrite PgFacts.limit_rows_length. lia.
    - destruct Ht as [scanned [_ ->]]. rewrite PgFacts.limit_rows_length. lia.
    - intros l Hin. now apply FusionFacts.vector_candidate_fused.
    - intros t Hin. now apply FusionFacts.text_candidate_fused.
    - intros c Hin. now apply (FusionFacts.combined_row_candidate text_weight).
    - now apply FusionFacts.combined_ids_NoDup. }
  intros db query_embedding query_text match_count out Hs.
  destruct (UnifiedFacts.search_rows_inv _ _ _ _ _ Hs) as (n & ranked & Hn & [Hp _] & ->).
  apply MoreFacts.limit_count_inr in Hn as [Hlo ->]. split.
  - rewrite PgFacts.limit_rows_length, <- (Permutation_length Hp).
    unfold Unified.all_results, Unified.chunk_results, Unified.table_results,
      Unified.vector_results.
    rewrite !length_app, !length_map. lia.
  - intros Hc Ht Hv.
    rewrite <- PgFacts.limit_rows_map. apply PgFacts.limit_rows_NoDup.
    apply (Permutation_NoDup (Permutation_map _ Hp)).
    now apply UnifiedFacts.all_results_NoDup.
Qed.

Lemma candidates_fused_once_witness :
  let vrs := FixFm.vector_results_exec (H := Fixture.ops) Fixture.store (Fixture.axis 0)
               None 10 in
  let trs := FixFm.text_results_exec (H := Fixture.ops) Fixture.store "aisle" None 10 in
  NoDup (map FixFm.c_vector_id (FixFm.combined (3 # 10) vrs trs))
  /\ match Unified.search_fm_global_all_exec (H := Fixture.ops) Fixture.unified_store
             (Fixture.axis 0) "aisle" 5 with
     | Pg.Rows out =>
         Z.of_nat (List.length out) = 3 /\ NoDup (map Unified.record_identity out)
     | Pg.Raised _ => False
     end.
Proof.
  intros vrs trs. split.
  - assert (Hkv : NoDup (map FixFm.v_id (FixFm.fm_global_vectors Fixture.store)))
      by distinct_ids.
    assert (Hkt : NoDup (map FixFm.t_id (FixFm.fm_global_tables Fixture.store)))
      by distinct_ids.
    assert (Hkf : NoDup (map FixFm.f_id (FixFm.fm_global_figures Fixture.store)))
      by distinct_ids.
    apply (proj1 (@candidates_fused_once Fixture.ops) Fixture.store (Fixture.axis 0)
             "aisle"%string 5 (3 # 10) None 10%N 5%N vrs trs Hkv Hkt Hkf eq_refl).
    + apply FixFmFacts.vector_results_exec_admissible.
    + apply FixFmFacts.text_results_exec_admissible.
  - pose proof (UnifiedFacts.search_exec_admissible (H := Fixture.ops)
                  Fixture.unified_store (Fixture.axis 0) "aisle" 5) as Hadm.
    destruct (Unified.search_fm_global_all_exec _ _ _ _) as [out|e] eqn:E;
      [|run_rows E].
    destruct (proj2 (@candidates_fused_once Fixture.ops) _ _ _ _ _ Hadm) as [Hlen Hnd].
    split; [exact Hlen|].
    apply Hnd; distinct_ids.
Defined.

(** C2 as stated fails: [search_fm_global_all] removes no duplicate.  The
    first rows of [fm_text_chunks] and of [fm_table_vectors] both have the
    identifier 1, and the merged output holds that identifier twice. *)
Lemma union_all_counterexample :
  let call := Unified.search_fm_global_all_exec (H := Fixture.ops) Fixture.unified_store
                (Fixture.axis 0) "aisle" 5 in
  Unified.search_fm_global_all (H := Fixture.ops) Fixture.unified_store (Fixture.axis 0)
    "aisle" 5 call
  /\ NoDup (map Unified.c_id (Unified.fm_text_chunks Fixture.unified_store))
  /\ NoDup (map Unified.tv_id (Unified.fm_table_vectors Fixture.unified_store))
  /\ NoDup (map Unified.v_id (Unified.fm_global_vectors Fixture.unified_store))
  /\ match call with
     | Pg.Rows out =>
         map Unified.source_id out = [1; 1; 3]%N
         /\ map Unified.source_table out
            = ["fm_text_chunks"; "fm_table_vectors"; "fm_global_vectors"]%string
         /\ ~ NoDup (map Unified.source_id out)
     | Pg.Raised _ => False
     end.
Proof.
  intros call. split; [apply UnifiedFacts.search_exec_admissible|].
  split; [distinct_ids|]. split; [distinct_ids|]. split; [distinct_ids|].
  subst call.
  destruct (Unified.search_fm_global_all_exec _ _ _ _) as [out|e] eqn:E; [|run_rows E].
  run_rows E. split; [reflexivity|]. split; [reflexivity|].
  intros Hnd. simpl in Hnd. inversion Hnd as [|? ? Hnot _]; subst.
  apply Hnot. now left.
Qed.

(** ** Determinism *)

(** C7, as far as the queries determine their result.  Two calls of the
    expert-system [hybrid_search_fm_global] with the same inputs on the
    same store have the same outcome, row for row, when no two joined
    candidates have the same combined score.  The query of the definition
    in [sql/fix_fm_functions.sql] has one outcome when no two filtered
    rows are equally far from the query vector, no more rows match the
    query text than the lexical sub-search may fetch, and no two fused
    candidates have the same combined score. *)
Theorem tie_free_calls_agree `{TextSearch.Operators} :
  (forall (db : ExpertSchema.database) query_embedding query_text match_count text_weight
          asrs_topic_filter o1 o2,
     ExpertSchema.tie_free db query_embedding query_text text_weight asrs_topic_filter
     = true ->
     ExpertSchema.hybrid_search_fm_global db query_embedding query_text text_weight
       asrs_topic_filter match_count o1 ->
     ExpertSchema.hybrid_search_fm_global db query_embedding query_text text_weight
       asrs_topic_filter match_count o2 ->
     o1 = o2)
  /\
  (forall (db : FixFm.database) query_embedding query_text match_count text_weight
          filter_asrs_type o1 o2,
     FixFm.tie_free db query_embedding query_text match_count text_weight
       filter_asrs_type = true ->
     FixFm.hybrid_query db query_embedding query_text match_count text_weight
       filter_asrs_type o1 ->
     FixFm.hybrid_query db query_embedding query_text match_count text_weight
       filter_asrs_type o2 ->
     o1 = o2).
Proof.
  split.
  - intros db qe q N w topic o1 o2. apply TieFacts.expert_tie_free_unique.
  - intros db qe q N w fil o1 o2. apply TieFacts.statement_tie_free_unique.
Qed.

Lemma tie_free_calls_agree_witness :
  (ExpertSchema.tie_free (H := Fixture.ops) Fixture.expert_plain_store (Fixture.axis 0)
     "aisle" (3 # 10) None = true
   /\ forall o,
        ExpertSchema.hybrid_search_fm_global (H := Fixture.ops) Fixture.expert_plain_store
          (Fixture.axis 0) "aisle" (3 # 10) None 5 o ->
        o = ExpertSchema.hybrid_search_fm_global_exec (H := Fixture.ops)
              Fixture.expert_plain_store (Fixture.axis 0) "aisle" (3 # 10) None 5)
  /\ (FixFm.tie_free (H := Fixture.ops) Fixture.plain_store (Fixture.axis 0) "aisle" 5
        (3 # 10) None = true
      /\ forall o,
           FixFm.hybrid_query (H := Fixture.ops) Fixture.plain_store (Fixture.axis 0)
             "aisle" 5 (3 # 10) None o ->
           o = FixFm.hybrid_query_exec (H := Fixture.ops) Fixture.plain_store
                 (Fixture.axis 0) "aisle" 5 (3 # 10) None).
Proof.
  assert (Hfree : ExpertSchema.tie_free (H := Fixture.ops) Fixture.expert_plain_store
                    (Fixture.axis 0) "aisle" (3 # 10) None = true)
    by (vm_compute; reflexivity).
  assert (Hfree' : FixFm.tie_free (H := Fixture.ops) Fixture.plain_store (Fixture.axis 0)
                     "aisle" 5 (3 # 10) None = true)
    by (vm_compute; reflexivity).
  split; (split; [assumption|]); intros o Ho.
  - apply (proj1 (@tie_free_calls_agree Fixture.ops) _ _ _ _ _ _ _ _ Hfree Ho).
    apply ExpertSchemaFacts.expert_exec_admissible.
  - apply (proj2 (@tie_free_calls_agree Fixture.ops) Fixture.plain_store
             (Fixture.axis 0) "aisle"%string 5 (3 # 10) None o _ Hfree' Ho).
    apply FixFmFacts.exec_admissible.
Defined.

(** C7 as stated fails: the two chunks with the same text and embedding
    tie, and the same call of the expert-system function on the same
    store may return them in either order. *)
Lemma determinism_counterexample :
  let first := ExpertSchema.hybrid_search_fm_global_exec (H := Fixture.ops)
                 Fixture.expert_store (Fixture.axis 0) "aisle" (3 # 10) None 5 in
  let second := match first with
                | Pg.Rows out => Pg.Rows (Fixture.swap_first_two out)
                | Pg.Raised e => Pg.Raised e
                end in
  ExpertSchema.hybrid_search_fm_global (H := Fixture.ops) Fixture.expert_store
    (Fixture.axis 0) "aisle" (3 # 10) None 5 first
  /\ ExpertSchema.hybrid_search_fm_global (H := Fixture.ops) Fixture.expert_store
       (Fixture.axis 0) "aisle" (3 # 10) None 5 second
  /\ first <> second.
Proof.
  intros first second. split; [apply ExpertSchemaFacts.expert_exec_admissible|].
  pose (joined := ExpertSchema.joined_results (H := Fixture.ops) Fixture.expert_store
                    (Fixture.axis 0) "aisle" (3 # 10) None).
  pose (ranked := Fixture.swap_first_two (Pg.sort_rows ExpertSchema.by_score_descb joined)).
  assert (Hsecond : second = Pg.Rows (Pg.limit_rows 5 ranked))
    by (vm_compute; reflexivity).
  split.
  - rewrite Hsecond. apply (ExpertSchema.hybrid_rows _ _ _ _ _ _ 5%N ranked).
    + reflexivity.
    + right. vm_compute. reflexivity.
    + split.
      * transitivity (Pg.sort_rows ExpertSchema.by_score_descb joined).
        -- apply (PgFacts.sort_rows_order_by ExpertSchema.by_score_desc).
           ++ apply ExpertSchemaFacts.expert_by_score_descb_le.
           ++ apply ExpertSchemaFacts.expert_by_score_descb_total.
           ++ apply ExpertSchemaFacts.expert_by_score_desc_trans.
        -- subst ranked joined. vm_compute. apply perm_swap.
      * subst ranked joined. vm_compute.
        repeat (constructor; [|repeat (constructor; [discriminate|]); constructor]).
        constructor.
  - subst first second. vm_compute. intros Heq. discriminate Heq.
Qed.

(** ** Rows without an embedding *)

(** C10: every row that [match_fm_global_vectors] or
    [search_fm_global_all] returns comes from a stored row with an
    embedding, and its similarity is 1 minus that embedding's cosine
    distance to the query vector.  The rows without an embedding change
    nothing: a call has the same outcomes on the store and on the store
    without them.  With a limit that is not negative and stored
    embeddings of the query vector's dimension, a call returns rows and
    raises nothing. *)
Theorem results_have_embeddings `{TextSearch.Operators} :
  (forall (db : ExpertSchema.database) query_embedding match_count asrs_topic_filter
          source_type_filter,
     (forall out r,
        ExpertSchema.match_fm_global_vectors db query_embedding match_count
          asrs_topic_filter source_type_filter (Pg.Rows out) ->
        In r out ->
        exists v e, In v (ExpertSchema.fm_global_vectors db)
          /\ ExpertSchema.m_vector_id r = ExpertSchema.v_id v
          /\ ExpertSchema.v_embedding v = Some e
          /\ ExpertSchema.m_similarity r
             = Some (1 - TextSearch.cosine_distance e query_embedding)%Q)
     /\ (forall o,
           ExpertSchema.match_fm_global_vectors (Stored.embedded_chunks db) query_embedding
             match_count asrs_topic_filter source_type_filter o
           <-> ExpertSchema.match_fm_global_vectors db query_embedding match_count
                 asrs_topic_filter source_type_filter o)
     /\ (0 <= match_count ->
         forallb (fun v => Pg.same_dimension query_embedding (ExpertSchema.v_embedding v))
           (ExpertSchema.fm_global_vectors db) = true ->
         (exists out,
            ExpertSchema.match_fm_global_vectors db query_embedding match_count
              asrs_topic_filter source_type_filter (Pg.Rows out))
         /\ forall o,
              ExpertSchema.match_fm_global_vectors db query_embedding match_count
                asrs_topic_filter source_type_filter o ->
              exists out, o = Pg.Rows out))
  /\
  (forall (db : Unified.database) query_embedding query_text match_count,
     (forall out r,
        Unified.search_fm_global_all db query_embedding query_text match_count
          (Pg.Rows out) ->
        In r out ->
        exists e,
          Unified.similarity r = Some (1 - TextSearch.cosine_distance e query_embedding)%Q
          /\ ((exists c, In c (Unified.fm_text_chunks db)
                 /\ Unified.c_embedding c = Some e /\ r = Unified.select_chunk query_embedding c)
              \/ (exists tv, In tv (Unified.fm_table_vectors db)
                    /\ Unified.tv_embedding tv = Some e
                    /\ r = Unified.select_table_vector query_embedding tv)
              \/ (exists v, In v (Unified.fm_global_vectors db)
                    /\ Unified.v_embedding v = Some e
                    /\ r = Unified.select_vector query_embedding v)))
     /\ (forall o,
           Unified.search_fm_global_all (Stored.embedded_rows db) query_embedding query_text
             match_count o
           <-> Unified.search_fm_global_all db query_embedding query_text match_count o)
     /\ (0 <= match_count ->
         Unified.dimensions_agree db query_embedding = true ->
         (exists out,
            Unified.search_fm_global_all db query_embedding query_text match_count
              (Pg.Rows out))
         /\ forall o,
              Unified.search_fm_global_all db query_embedding query_text match_count o ->
              exists out, o = Pg.Rows out)).
Proof.
  split.
  - intros db qe N topic st. split; [|split].
    + intros out r Hm Hin.
      destruct (ExpertSchemaFacts.match_rows_inv _ _ _ _ _ _ Hm)
        as (n & scanned & skipped & sorted & _ & Hp & [Hperm _] & ->).
      apply PgFacts.limit_rows_In, in_map_iff in Hin as [j [<- Hj]].
      apply (Permutation_in _ (Permutation_sym Hperm)) in Hj.
      assert (Hc : In j (scanned ++ skipped)) by (apply in_or_app; now left).
      apply (Permutation_in _ (Permutation_sym Hp)), filter_In in Hc as [Hc Hw].
      unfold ExpertSchema.match_where in Hw.
      apply andb_true_iff in Hw as [Hw _]. apply andb_true_iff in Hw as [He _].
      unfold ExpertSchema.has_embedding in He.
      destruct (ExpertSchema.v_embedding (ExpertSchema.src_v j)) as [e|] eqn:Hemb;
        [|discriminate].
      exists (ExpertSchema.src_v j), e.
      split; [now apply ExpertSchemaFacts.expert_from_clause_In|].
      unfold ExpertSchema.select_match, ExpertSchema.similarity, ExpertSchema.distance.
      simpl. now rewrite Hemb.
    + intros o. apply EmbeddingFacts.match_ignores_rows_without_embedding.
    + intros Hlo Hdim. now apply EmbeddingFacts.match_returns_rows.
  - intros db qe q N. split; [|split].
    + intros out r Hs Hin.
      apply (UnifiedFacts.search_row_In _ _ _ _ _ _ Hs) in Hin.
      unfold Unified.all_results in Hin.
      apply in_app_or in Hin as [Hin|Hin]; [|apply in_app_or in Hin as [Hin|Hin]];
        apply in_map_iff in Hin as [x [<- Hx]]; apply filter_In in Hx as [Hx He];
        apply UnifiedFacts.is_not_null_Some in He as [e He]; exists e;
        (split; [simpl; now rewrite He|]).
      * left. eauto.
      * right. left. eauto.
      * right. right. eauto.
    + intros o. apply EmbeddingFacts.search_ignores_rows_without_embedding.
    + intros Hlo Hdim. now apply EmbeddingFacts.search_returns_rows.
Qed.

Lemma results_have_embeddings_witness :
  match ExpertSchema.match_fm_global_vectors_exec (H := Fixture.ops) Fixture.expert_store
          (Fixture.axis 0) 5 None None,
        Unified.search_fm_global_all_exec (H := Fixture.ops) Fixture.unified_store
          (Fixture.axis 0) "aisle" 5 with
  | Pg.Rows (r :: _), Pg.Rows (r' :: _) =>
      (exists v e, In v (ExpertSchema.fm_global_vectors Fixture.expert_store)
         /\ ExpertSchema.m_vector_id r = ExpertSchema.v_id v
         /\ ExpertSchema.v_embedding v = Some e
         /\ ExpertSchema.m_similarity r
            = Some (1 - Fixture.exact_cosine_distance e (Fixture.axis 0))%Q)
      /\ (exists e, Unified.similarity r'
                    = Some (1 - Fixture.exact_cosine_distance e (Fixture.axis 0))%Q)
      /\ (exists out,
            ExpertSchema.match_fm_global_vectors (H := Fixture.ops) Fixture.expert_store
              (Fixture.axis 0) 5 None None (Pg.Rows out))
      /\ (exists out,
            Unified.search_fm_global_all (H := Fixture.ops) Fixture.unified_store
              (Fixture.axis 0) "aisle" 5 (Pg.Rows out))
  | _, _ => False
  end.
Proof.
  pose proof (ExpertSchemaFacts.match_exec_admissible (H := Fixture.ops)
                Fixture.expert_store (Fixture.axis 0) 5 None None) as Hadm.
  pose proof (UnifiedFacts.search_exec_admissible (H := Fixture.ops)
                Fixture.unified_store (Fixture.axis 0) "aisle" 5) as Hadm'.
  destruct (ExpertSchema.match_fm_global_vectors_exec _ _ _ _ _) as [[|r rest]|e] eqn:E;
    [run_rows E| |run_rows E].
  destruct (Unified.search_fm_global_all_exec _ _ _ _) as [[|r' rest']|e'] eqn:E';
    [run_rows E'| |run_rows E'].
  split; [|split; [|split]].
  - apply (proj1 (proj1 (@results_have_embeddings Fixture.ops) _ _ _ _ _) _ r Hadm).
    now left.
  - destruct (proj1 (proj2 (@results_have_embeddings Fixture.ops) _ _ _ _) _ r' Hadm'
                (or_introl eq_refl)) as [e [He _]].
    exists e. exact He.
  - apply (proj2 (proj2 (proj1 (@results_have_embeddings Fixture.ops)
                           Fixture.expert_store (Fixture.axis 0) 5 None None)));
      [lia|vm_compute; reflexivity].
  - apply (proj2 (proj2 (proj2 (@results_have_embeddings Fixture.ops)
                           Fixture.unified_store (Fixture.axis 0) "aisle"%string 5)));
      [lia|vm_compute; reflexivity].
Defined.

(** The definition of [match_fm_global_vectors] in
    [sql/fix_fm_functions.sql] has no [embedding IS NOT NULL] condition:
    with room left under the limit, it returns the chunk without an
    embedding, last and with a NULL similarity. *)
Remark redefined_match_keeps_rows_without_embedding :
  let call := FixFm.match_fm_global_vectors_exec (H := Fixture.ops) Fixture.store
                (Fixture.axis 0) None None 5 in
  FixFm.match_fm_global_vectors (H := Fixture.ops) Fixture.store (Fixture.axis 0)
    None None 5 call
  /\ match call with
     | Pg.Rows [_; _; _; r] => FixFm.m_vector_id r = 4%N /\ FixFm.m_similarity r = None
     | _ => False
     end.
Proof.
  intros call. split; [apply FixFmFacts.match_exec_admissible_fix|]. subst call.
  destruct (FixFm.match_fm_global_vectors_exec _ _ _ _ _) as [rows|e] eqn:E;
    [|run_rows E].
  run_rows E. split; reflexivity.
Qed.

(** ** Failure of one sub-search *)

Section AgentClaims.
Variable Row : Type.
Variables FigureResult TableResult RegulationResult SearchResult : Type.
Variable embeddings_create : string -> Agent.promise (list Q).
Variable supabase : Agent.query -> Agent.response Row.
Variable table_id : Row -> string.
Variable figure_result : option Agent.ASRSConfiguration -> Row -> Agent.promise FigureResult.
Variable table_result :
  option Agent.ASRSConfiguration -> option (list Row) -> Row -> Agent.promise TableResult.
Variable regulation_result : Row -> RegulationResult.
Variable respond :
  list FigureResult -> list TableResult -> list RegulationResult ->
  string -> option Agent.ASRSConfiguration -> Agent.promise SearchResult.

Let figures := Agent.searchFigureVectors Row FigureResult supabase figure_result.
Let tables := Agent.searchTableVectors Row TableResult supabase table_id table_result.
Let texts := Agent.searchTextVectors Row RegulationResult supabase regulation_result.
Let call := Agent.searchMultiVector Row FigureResult TableResult RegulationResult
              SearchResult embeddings_create supabase table_id figure_result table_result
              regulation_result respond.

(** C9, as the agent behaves: a query that comes back with an error makes
    its sub-search throw it, and when the vector sub-search of one
    collection is rejected the whole [searchMultiVector] call is rejected,
    with the reason of a rejected sub-search; no results of the other
    collections are returned.  The call goes on to the answer only when
    all three sub-searches are fulfilled. *)
Theorem rejected_subsearch_rejects_call (user_query : string)
  (config : option Agent.ASRSConfiguration) (embedding : list Q) :
  embeddings_create user_query = Agent.Resolved embedding ->
  (forall e,
     (Agent.error (supabase (Agent.figure_query embedding config)) = Some e ->
      figures embedding config = Agent.Rejected e)
     /\ (Agent.error (supabase (Agent.table_vector_query embedding)) = Some e ->
         tables embedding config = Agent.Rejected e)
     /\ (Agent.error (supabase (Agent.text_chunk_query embedding)) = Some e ->
         texts embedding = Agent.Rejected e))
  /\ ((exists e, figures embedding config = Agent.Rejected e)
      \/ (exists e, tables embedding config = Agent.Rejected e)
      \/ (exists e, texts embedding = Agent.Rejected e) ->
      forall settled, call user_query config settled ->
        exists reason, settled = Agent.Rejected reason
          /\ (figures embedding config = Agent.Rejected reason
              \/ tables embedding config = Agent.Rejected reason
              \/ texts embedding = Agent.Rejected reason))
  /\ (forall f t x,
        figures embedding config = Agent.Resolved f ->
        tables embedding config = Agent.Resolved t ->
        texts embedding = Agent.Resolved x ->
        forall settled, call user_query config settled ->
          settled = respond f t x user_query config).
Proof.
  intros Hemb. split; [|split].
  - intros e. repeat split; intros He.
    + unfold figures, Agent.searchFigureVectors. now rewrite He.
    + unfold tables, Agent.searchTableVectors. now rewrite He.
    + unfold texts, Agent.searchTextVectors. now rewrite He.
  - intros Hfail settled Hcall.
    inversion Hcall as [e He|emb e He Hall|emb f t x He Hall]; subst.
    + congruence.
    + rewrite Hemb in He. inversion He; subst emb.
      exists e. split; [reflexivity|].
      inversion Hall; subst; auto.
    + rewrite Hemb in He. inversion He; subst emb. exfalso.
      inversion Hall as [a b c Ha Hb Hc| | |]; subst.
      fold (figures embedding config) in Ha. fold (tables embedding config) in Hb.
      fold (texts embedding) in Hc.
      destruct Hfail as [[e Hf]|[[e Hf]|[e Hf]]]; congruence.
  - intros f t x Hf Ht Hx settled Hcall.
    inversion Hcall as [e He|emb e He Hall|emb f' t' x' He Hall]; subst.
    + congruence.
    + rewrite Hemb in He. inversion He; subst emb. exfalso.
      fold (figures embedding config) in Hall. fold (tables embedding config) in Hall.
      fold (texts embedding) in Hall.
      inversion Hall; congruence.
    + rewrite Hemb in He. inversion He; subst emb.
      inversion Hall as [a b c Ha Hb Hc| | |]; subst.
      fold (figures embedding config) in Ha. fold (tables embedding config) in Hb.
      fold (texts embedding) in Hc.
      congruence.
Qed.

End AgentClaims.

Lemma rejected_subsearch_rejects_call_witness :
  Fixture.embedding_service "aisle width" = Agent.Resolved (Fixture.axis 0)
  /\ forall settled,
       Agent.searchMultiVector string string string string (list string)
         Fixture.embedding_service Fixture.supabase_without_figure_index
         (fun row => row) (fun _ row => Agent.Resolved row)
         (fun _ _ row => Agent.Resolved row) (fun row => row)
         Fixture.respond_with_sources "aisle width" None settled ->
       settled
       = Agent.Rejected
           (Agent.PostgrestError "column fm_global_figures.embedding does not exist").
Proof.
  split; [reflexivity|]. intros settled Hcall.
  destruct (rejected_subsearch_rejects_call string string string string (list string)
              Fixture.embedding_service Fixture.supabase_without_figure_index
              (fun row => row) (fun _ row => Agent.Resolved row)
              (fun _ _ row => Agent.Resolved row) (fun row => row)
              Fixture.respond_with_sources "aisle width" None (Fixture.axis 0) eq_refl)
    as (_ & Hrej & _).
  destruct (Hrej (or_introl (ex_intro _ _ eq_refl)) settled Hcall)
    as [reason [-> [Hr|[Hr|Hr]]]]; vm_compute in Hr; congruence.
Defined.

(** C9 as stated fails: with the query on [fm_global_figures] failing and
    the two other queries giving a row each, [searchMultiVector] is
    rejected with the query's error, and in no way is it fulfilled with
    the results of the other collections. *)
Lemma graceful_degradation_counterexample :
  let call := Agent.searchMultiVector string string string string (list string)
                Fixture.embedding_service Fixture.supabase_without_figure_index
                (fun row => row) (fun _ row => Agent.Resolved row)
                (fun _ _ row => Agent.Resolved row) (fun row => row)
                Fixture.respond_with_sources "aisle width" None in
  call (Agent.Rejected
          (Agent.PostgrestError "column fm_global_figures.embedding does not exist"))
  /\ ~ exists answer, call (Agent.Resolved answer).
Proof.
  intros call. split.
  - apply (Agent.search_rejected _ _ _ _ _ _ _ _ _ _ _ _ _ _ (Fixture.axis 0));
      [reflexivity|].
    now apply Agent.first_rejected.
  - intros [answer Hcall]. subst call.
    inversion Hcall as [e He|emb e He Hall|emb f t x He Hall Hans].
    inversion Hall as [a b c Ha Hb Hc| | |]. discriminate Ha.
Qed.

(** * Further properties of the code *)

(** ** More about [sql/fix_fm_functions.sql] *)

Module FixFmMore.
Import Pg TextSearch FixFm PgFacts.

Lemma asrs_filter_Some (a : string) (j : source_row) :
  asrs_filter (Some a) j = true ->
  asrs_type_val j = Some a
  /\ (v_content_type (src_v j) = "table"%string
      \/ v_content_type (src_v j) = "figure"%string).
Proof.
  unfold asrs_filter, asrs_type_val.
  destruct (String.eqb_spec (v_content_type (src_v j)) "table") as [Ht|Ht].
  - rewrite Ht. simpl. rewrite orb_false_r. intros Hf. split; [|now left].
    destruct (bind_opt (src_t j) t_asrs_type) as [x|]; [|discriminate].
    simpl in Hf. apply String.eqb_eq in Hf. now subst.
  - simpl. destruct (String.eqb_spec (v_content_type (src_v j)) "figure") as [Hf|Hf];
      [|discriminate].
    simpl. intros Hm. split; [|now right].
    destruct (bind_opt (src_f j) f_asrs_type) as [x|]; [|discriminate].
    simpl in Hm. apply String.eqb_eq in Hm. now subst.
Qed.

End FixFmMore.

(** X1: In [sql/fix_fm_functions.sql], with [filter_asrs_type] given, the
    candidate sets of [hybrid_search_fm_global] hold only chunks of content
    type ['table'] or ['figure'] whose ASRS type is the filter, and so do
    the fused rows and the rows the final [SELECT] makes of them: chunks
    of any other content type are filtered out. *)
Theorem hybrid_filter_keeps_matching_types `{TextSearch.Operators}
  (db : FixFm.database) (query_embedding : Pg.vector) (query_text : string)
  (text_weight : Q) (asrs_type : string) (n : N)
  (vrs : list FixFm.vector_results_row) (trs : list FixFm.text_results_row)
  (c : FixFm.combined_row) :
  FixFm.vector_results db query_embedding (Some asrs_type) n vrs ->
  FixFm.text_results db query_text (Some asrs_type) n trs ->
  In c (FixFm.combined text_weight vrs trs) ->
  FixFm.c_asrs_topic c = Some asrs_type
  /\ (FixFm.c_source_type c = "table"%string \/ FixFm.c_source_type c = "figure"%string)
  /\ FixFm.asrs_topic (FixFm.select_hybrid c) = Some asrs_type
  /\ FixFm.source_type (FixFm.select_hybrid c) = FixFm.c_source_type c.
Proof.
  intros Hv Ht Hin.
  unfold FixFm.combined in Hin. apply in_map_iff in Hin as [j [<- Hj]].
  apply PgFacts.full_outer_join_In in Hj.
  assert (Hvec : forall l, In l vrs ->
            FixFm.vr_asrs_type_val l = Some asrs_type
            /\ (FixFm.vr_content_type l = "table"%string
                \/ FixFm.vr_content_type l = "figure"%string)).
  { intros l Hl. destruct (FixFmFacts.vector_results_In _ _ _ _ _ _ Hv Hl) as (sj & _ & Hf & ->).
    now apply FixFmMore.asrs_filter_Some. }
  assert (Htxt : forall t, In t trs ->
            FixFm.tr_asrs_type_val t = Some asrs_type
            /\ (FixFm.tr_content_type t = "table"%string
                \/ FixFm.tr_content_type t = "figure"%string)).
  { intros t Hl. destruct (FixFmFacts.text_results_In _ _ _ _ _ _ Ht Hl) as (sj & _ & _ & Hf & ->).
    now apply FixFmMore.asrs_filter_Some. }
  destruct j as [l t|l|t]; simpl.
  - destruct Hj as (Hl & _). destruct (Hvec l Hl) as [-> Hty]. auto.
  - destruct Hj as (Hl & _). destruct (Hvec l Hl) as [-> Hty]. auto.
  - destruct Hj as (Hl & _). destruct (Htxt t Hl) as [-> Hty]. auto.
Qed.

Lemma hybrid_filter_keeps_matching_types_witness :
  let vrs := FixFm.vector_results_exec (H := Fixture.ops) Fixture.store (Fixture.axis 0)
               (Some "Shuttle"%string) 10 in
  let trs := FixFm.text_results_exec (H := Fixture.ops) Fixture.store "aisle"
               (Some "Shuttle"%string) 10 in
  match FixFm.combined (3 # 10) vrs trs with
  | c :: _ =>
      FixFm.c_asrs_topic c = Some "Shuttle"%string
      /\ (FixFm.c_source_type c = "table"%string \/ FixFm.c_source_type c = "figure"%string)
  | [] => False
  end.
Proof.
  intros vrs trs.
  destruct (FixFm.combined (3 # 10) vrs trs) as [|c rest] eqn:E;
    [vm_compute in E; discriminate E|].
  destruct (@hybrid_filter_keeps_matching_types Fixture.ops Fixture.store (Fixture.axis 0)
              "aisle"%string (3 # 10) "Shuttle"%string 10%N vrs trs c
              (FixFmFacts.vector_results_exec_admissible _ _ _ _)
              (FixFmFacts.text_results_exec_admissible _ _ _ _))
    as (Htopic & Hkind & _).
  - rewrite E. now left.
  - split; assumption.
Defined.

(** X2: Every call of [hybrid_search_fm_global] of
    [sql/fix_fm_functions.sql] raises and none returns rows: "integer out
    of range" when [match_count * 2] leaves the [int] range, and otherwise
    the mismatch of [RETURN QUERY], whose seventh column,
    [text_similarity], is the [real] of [ts_rank] where the function
    declares [float]. *)
Theorem hybrid_call_raises `{TextSearch.Operators}
  (db : FixFm.database) (query_embedding : Pg.vector) (query_text : string)
  (match_count : Z) (text_weight : Q) (filter_asrs_type : option string) :
  (forall o,
     FixFm.hybrid_search_fm_global db query_embedding query_text match_count text_weight
       filter_asrs_type o ->
     (-1073741824 <= match_count <= 1073741823 -> o = Pg.Raised Pg.DatatypeMismatch)
     /\ (match_count < -1073741824 \/ 1073741823 < match_count ->
         o = Pg.Raised Pg.IntegerOutOfRange)
     /\ forall out, o <> Pg.Rows out)
  /\ (exists e,
        FixFm.hybrid_search_fm_global db query_embedding query_text match_count text_weight
          filter_asrs_type (Pg.Raised e))
  /\ nth 6 FixFm.declared_result Pg.TText = Pg.TFloat8
  /\ nth 6 FixFm.query_result Pg.TText = Pg.TFloat4.
Proof.
  split; [|split; [|exact FixFmFacts.seventh_column_differs]].
  - intros o Ho. apply FixFmFacts.function_raises in Ho. subst o.
    unfold Pg.int4_min, Pg.int4_max. split; [|split].
    + intros Hin.
      now replace ((-2147483648 <=? match_count * 2) && (match_count * 2 <=? 2147483647))
        with true by lia.
    + intros Hout.
      now replace ((-2147483648 <=? match_count * 2) && (match_count * 2 <=? 2147483647))
        with false by lia.
    + intros out. discriminate.
  - eexists. apply FixFmFacts.function_raises. reflexivity.
Qed.

Lemma hybrid_call_raises_witness :
  FixFm.hybrid_search_fm_global_exec (H := Fixture.ops) Fixture.store (Fixture.axis 0)
    "aisle" 5 (3 # 10) None = Pg.Raised Pg.DatatypeMismatch
  /\ FixFm.hybrid_search_fm_global_exec (H := Fixture.ops) Fixture.store (Fixture.axis 0)
       "aisle" (-1) (3 # 10) None = Pg.Raised Pg.DatatypeMismatch
  /\ FixFm.hybrid_search_fm_global_exec (H := Fixture.ops) Fixture.store (Fixture.axis 0)
       "aisle" 1073741824 (3 # 10) None = Pg.Raised Pg.IntegerOutOfRange.
Proof.
  split; [|split].
  - apply (proj1 (proj1 (@hybrid_call_raises Fixture.ops Fixture.store (Fixture.axis 0)
                           "aisle"%string 5 (3 # 10) None) _
                    (FixFmFacts.function_exec_admissible _ _ _ _ _ _))).
    lia.
  - apply (proj1 (proj1 (@hybrid_call_raises Fixture.ops Fixture.store (Fixture.axis 0)
                           "aisle"%string (-1) (3 # 10) None) _
                    (FixFmFacts.function_exec_admissible _ _ _ _ _ _))).
    lia.
  - apply (proj1 (proj2 (proj1 (@hybrid_call_raises Fixture.ops Fixture.store
                                  (Fixture.axis 0) "aisle"%string 1073741824 (3 # 10) None) _
                           (FixFmFacts.function_exec_admissible _ _ _ _ _ _)))).
    lia.
Defined.

(** X3: In [sql/fix_fm_functions.sql], the row that the final [SELECT] of
    [hybrid_search_fm_global] makes of a fused row has a [table_number]
    only when its [source_type] is ['table'] and a [figure_number] only
    when it is ['figure'], so never both. *)
Theorem hybrid_reference_numbers (text_weight : Q)
  (vrs : list FixFm.vector_results_row) (trs : list FixFm.text_results_row)
  (c : FixFm.combined_row) :
  In c (FixFm.combined text_weight vrs trs) ->
  (FixFm.table_number (FixFm.select_hybrid c) <> None ->
   FixFm.source_type (FixFm.select_hybrid c) = "table"%string)
  /\ (FixFm.figure_number (FixFm.select_hybrid c) <> None ->
      FixFm.source_type (FixFm.select_hybrid c) = "figure"%string)
  /\ (FixFm.table_number (FixFm.select_hybrid c) = None
      \/ FixFm.figure_number (FixFm.select_hybrid c) = None).
Proof.
  intros Hin. unfold FixFm.combined in Hin. apply in_map_iff in Hin as [j [<- _]].
  unfold FixFm.select_hybrid.
  set (c := FixFm.select_combined text_weight j).
  assert (Hst : FixFm.c_source_type c = FixFm.c_content_type_final c) by now destruct j.
  cbn [FixFm.table_number FixFm.figure_number FixFm.source_type]. rewrite Hst.
  destruct (String.eqb_spec (FixFm.c_content_type_final c) "table") as [Ht|Ht];
    destruct (String.eqb_spec (FixFm.c_content_type_final c) "figure") as [Hf|Hf];
    repeat split; auto; try congruence.
Qed.

Lemma hybrid_reference_numbers_witness :
  let vrs := FixFm.vector_results_exec (H := Fixture.ops) Fixture.store (Fixture.axis 0)
               None 10 in
  let trs := FixFm.text_results_exec (H := Fixture.ops) Fixture.store "aisle" None 10 in
  match FixFm.combined (3 # 10) vrs trs with
  | c :: _ =>
      FixFm.table_number (FixFm.select_hybrid c) <> None
      /\ FixFm.source_type (FixFm.select_hybrid c) = "table"%string
  | [] => False
  end.
Proof.
  intros vrs trs.
  destruct (FixFm.combined (3 # 10) vrs trs) as [|c rest] eqn:E;
    [vm_compute in E; discriminate E|].
  assert (Hnum : FixFm.table_number (FixFm.select_hybrid c) <> None).
  { vm_compute in E. injection E as <- _. discriminate. }
  split; [exact Hnum|].
  apply (proj1 (hybrid_reference_numbers (3 # 10) vrs trs c
                  ltac:(rewrite E; now left)) Hnum).
Defined.

(** ** More about the expert-system schema *)



(** X5: [hybrid_search_fm_global] of the expert-system schema returns its rows
    in descending order of combined score, at most [match_count] of them,
    and every fused candidate left out scores no higher than any returned
    row.  Its two sub-searches have no limit of their own: when
    [match_count] is at least the number of fused candidates, every stored
    chunk that has an embedding and passes the topic filter is returned. *)
Theorem expert_hybrid_ranks_all_candidates `{TextSearch.Operators}
  (db : ExpertSchema.database) (query_embedding : Pg.vector) (query_text : string)
  (text_weight : Q) (asrs_topic_filter : option string) (match_count : Z)
  (out : list ExpertSchema.hybrid_row) :
  ExpertSchema.hybrid_search_fm_global db query_embedding query_text text_weight
    asrs_topic_filter match_count (Pg.Rows out) ->
  let candidates :=
    ExpertSchema.joined_results db query_embedding query_text text_weight
      asrs_topic_filter in
  StronglySorted
    (fun a b => (ExpertSchema.combined_score b <= ExpertSchema.combined_score a)%Q) out
  /\ Z.of_nat (List.length out) <= match_count
  /\ (exists rest, Permutation candidates (out ++ rest)
        /\ forall a b, In a out -> In b rest ->
             (ExpertSchema.combined_score b <= ExpertSchema.combined_score a)%Q)
  /\ (Z.of_nat (List.length candidates) <= match_count ->
      forall v, In v (ExpertSchema.fm_global_vectors db) ->
        ExpertSchema.v_embedding v <> None ->
        ExpertSchema.optional_filter asrs_topic_filter (ExpertSchema.v_asrs_topic v) = true ->
        exists r, In r out /\ ExpertSchema.vector_id r = ExpertSchema.v_id v).
Proof.
  intros Hh candidates.
  inversion Hh as [n ranked Hn Hdim [Hperm Hsorted] Hout| |]; subst.
  destruct (MoreFacts.limit_count_inr _ _ Hn) as [Hpos ->].
  repeat split.
  - now apply PgFacts.limit_rows_sorted.
  - rewrite PgFacts.limit_rows_length. lia.
  - exists (skipn (N.to_nat (Z.to_N match_count)) ranked). split.
    + now rewrite <- PgFacts.limit_rows_split.
    + apply (PgFacts.StronglySorted_app_le ExpertSchema.by_score_desc).
      now rewrite <- PgFacts.limit_rows_split.
  - intros Hall v Hv Hemb Htopic.
    rewrite PgFacts.limit_rows_all
      by (rewrite <- (Permutation_length Hperm); fold candidates; lia).
    destruct (ExpertSchemaMore.from_clause_complete db v Hv) as (j & Hj & Hsrc).
    assert (Hvr : In (ExpertSchema.select_vector_result query_embedding j)
                    (ExpertSchema.vector_results db query_embedding asrs_topic_filter)).
    { apply in_map, filter_In. split; [exact Hj|].
      unfold ExpertSchema.has_embedding. rewrite Hsrc, Htopic.
      destruct (ExpertSchema.v_embedding v); [reflexivity|congruence]. }
    destruct (PgFacts.full_outer_join_left_complete ExpertSchema.on_id _
                (ExpertSchema.text_results db query_text asrs_topic_filter) _ Hvr)
      as (jr & Hjr & Hleft).
    exists (ExpertSchema.select_hybrid text_weight jr). split.
    + apply (Permutation_in _ Hperm). now apply in_map.
    + destruct jr as [l t|l|t]; simpl in Hleft; try discriminate;
        injection Hleft as ->; simpl; now rewrite Hsrc.
Qed.

Lemma expert_hybrid_ranks_all_candidates_witness :
  match ExpertSchema.hybrid_search_fm_global_exec (H := Fixture.ops) Fixture.expert_store
          (Fixture.axis 0) "aisle" (3 # 10) None 10 with
  | Pg.Rows out => exists r, In r out /\ ExpertSchema.vector_id r = 3%N
  | Pg.Raised _ => False
  end.
Proof.
  pose proof (ExpertSchemaFacts.expert_exec_admissible (H := Fixture.ops)
                Fixture.expert_store (Fixture.axis 0) "aisle" (3 # 10) None 10) as Hadm.
  destruct (ExpertSchema.hybrid_search_fm_global_exec _ _ _ _ _ _) as [out|e] eqn:E;
    [|run_rows E].
  apply (proj2 (proj2 (proj2
           (@expert_hybrid_ranks_all_candidates Fixture.ops _ _ _ _ _ _ _ Hadm)))
           ltac:(vm_compute; discriminate)
           (Fixture.expert_chunk 3 "text" "sprinkler spacing"
              (Some (Fixture.opposite (Fixture.axis 0))))).
  - simpl. auto.
  - discriminate.
  - reflexivity.
Defined.

(** X12: The expert-system [hybrid_search_fm_global] and
    [search_fm_global_all] raise "different vector dimensions" when the
    limit is positive and an embedding they compare with the query vector
    has another dimension than it; with the limit 0 they compare nothing
    and return no row. *)
Theorem other_dimension_raises `{TextSearch.Operators} :
  (forall (db : ExpertSchema.database) query_embedding query_text text_weight
          asrs_topic_filter match_count o,
     ExpertSchema.hybrid_search_fm_global db query_embedding query_text text_weight
       asrs_topic_filter match_count o ->
     (0 < match_count ->
      ExpertSchema.dimensions_agree query_embedding
        (ExpertSchema.vector_candidates db asrs_topic_filter) = false ->
      o = Pg.Raised Pg.DifferentVectorDimensions)
     /\ (match_count = 0 -> o = Pg.Rows []))
  /\ (forall (db : Unified.database) query_embedding query_text match_count o,
     Unified.search_fm_global_all db query_embedding query_text match_count o ->
     (0 < match_count ->
      Unified.dimensions_agree db query_embedding = false ->
      o = Pg.Raised Pg.DifferentVectorDimensions)
     /\ (match_count = 0 -> o = Pg.Rows [])).
Proof.
  split.
  - intros db qe q w topic N o Ho.
    inversion Ho as [n ranked Hn Hd Hord|n Hn Hnz Hd|e He]; subst.
    + apply MoreFacts.limit_count_inr in Hn as [Hlo ->]. split.
      * intros Hpos Hdim. destruct Hd as [Hd|Hd]; [lia|congruence].
      * intros ->. now rewrite MoreFacts.limit_rows_zero.
    + apply MoreFacts.limit_count_inr in Hn as [Hlo ->]. split; [reflexivity|].
      intros ->. now contradiction Hnz.
    + split; intros Hx; rewrite MoreFacts.limit_count_nonneg in He by lia; discriminate.
  - intros db qe q N o Ho.
    inversion Ho as [n ranked Hn Hd Hord|n Hn Hnz Hd|e He]; subst.
    + apply MoreFacts.limit_count_inr in Hn as [Hlo ->]. split.
      * intros Hpos Hdim. destruct Hd as [Hd|Hd]; [lia|congruence].
      * intros ->. now rewrite MoreFacts.limit_rows_zero.
    + apply MoreFacts.limit_count_inr in Hn as [Hlo ->]. split; [reflexivity|].
      intros ->. now contradiction Hnz.
    + split; intros Hx; rewrite MoreFacts.limit_count_nonneg in He by lia; discriminate.
Qed.

Lemma other_dimension_raises_witness :
  ExpertSchema.hybrid_search_fm_global_exec (H := Fixture.ops) Fixture.expert_store
    Fixture.short_query "aisle" (3 # 10) None 5
  = Pg.Raised Pg.DifferentVectorDimensions
  /\ Unified.search_fm_global_all_exec (H := Fixture.ops) Fixture.unified_store
       Fixture.short_query "aisle" 0 = Pg.Rows [].
Proof.
  split.
  - apply (proj1 (proj1 (@other_dimension_raises Fixture.ops) _ _ _ _ _ _ _
                    (ExpertSchemaFacts.expert_exec_admissible (H := Fixture.ops)
                       Fixture.expert_store Fixture.short_query "aisle" (3 # 10) None 5)));
      [lia|vm_compute; reflexivity].
  - apply (proj2 (proj2 (@other_dimension_raises Fixture.ops) _ _ _ _ _
                    (UnifiedFacts.search_exec_admissible (H := Fixture.ops)
                       Fixture.unified_store Fixture.short_query "aisle" 0))).
    reflexivity.
Defined.

(** ** More about [match_fm_global_vectors] of [sql/fix_fm_functions.sql] *)

(** X6: The redefined [match_fm_global_vectors] returns, in an order it does
    not fix, the [match_count] filtered rows nearest to the query vector:
    no row left out is nearer than a returned one, and a row without an
    embedding is returned only when every row left out has none either.
    Every returned row has the source type and the ASRS type asked for. *)
Theorem redefined_match_returns_nearest `{TextSearch.Operators}
  (db : FixFm.database) (query_embedding : Pg.vector)
  (filter_asrs_type filter_source_type : option string) (match_count : Z)
  (out : list FixFm.match_row) :
  FixFm.match_fm_global_vectors db query_embedding filter_asrs_type filter_source_type
    match_count (Pg.Rows out) ->
  Z.of_nat (List.length out) <= match_count
  /\ (exists kept rest,
        Permutation
          (filter (FixFm.match_where filter_asrs_type filter_source_type)
             (FixFm.from_clause db))
          (kept ++ rest)
        /\ Permutation
             (map (fun j => FixFm.select_match
                              (FixFm.select_vector_search query_embedding j)) kept)
             out
        /\ (forall a b, In a kept -> In b rest ->
              Pg.asc_nulls_last (FixFm.match_distance query_embedding a)
                (FixFm.match_distance query_embedding b))
        /\ (forall a b, In a kept -> In b rest ->
              FixFm.v_embedding (FixFm.src_v a) = None ->
              FixFm.v_embedding (FixFm.src_v b) = None))
  /\ (forall r, In r out ->
        (forall kind, filter_source_type = Some kind -> FixFm.m_source_type r = kind)
        /\ (forall a, filter_asrs_type = Some a -> FixFm.m_asrs_topic r = Some a)).
Proof.
  intros Hm.
  inversion Hm as [n sorted out' Hn [Hperm Hsorted] Hout|]; subst.
  destruct (MoreFacts.limit_count_inr _ _ Hn) as [Hpos ->].
  set (n := Z.to_N match_count) in *.
  assert (Hle : forall a b, In a (Pg.limit_rows n sorted) ->
                  In b (skipn (N.to_nat n) sorted) ->
                  Pg.asc_nulls_last (FixFm.match_distance query_embedding a)
                    (FixFm.match_distance query_embedding b)).
  { apply (PgFacts.StronglySorted_app_le
             (fun a b => Pg.asc_nulls_last (FixFm.match_distance query_embedding a)
                           (FixFm.match_distance query_embedding b))).
    now rewrite <- PgFacts.limit_rows_split. }
  rewrite PgFacts.limit_rows_map, map_map in Hout.
  repeat split.
  - rewrite <- (Permutation_length Hout), length_map, PgFacts.limit_rows_length. lia.
  - exists (Pg.limit_rows n sorted), (skipn (N.to_nat n) sorted).
    repeat split.
    + now rewrite <- PgFacts.limit_rows_split.
    + exact Hout.
    + exact Hle.
    + intros a b Ha Hb Hnone. specialize (Hle a b Ha Hb).
      unfold FixFm.match_distance in Hle. rewrite Hnone in Hle. simpl in Hle.
      destruct (FixFm.v_embedding (FixFm.src_v b)); [contradiction|reflexivity].
  - intros kind ->.
    apply (Permutation_in _ (Permutation_sym Hout)), in_map_iff in H0 as (j & <- & Hj).
    apply PgFacts.limit_rows_In, (Permutation_in _ (Permutation_sym Hperm)), filter_In
      in Hj as [_ Hj].
    unfold FixFm.match_where in Hj. apply andb_true_iff in Hj as [Hj _].
    apply String.eqb_eq in Hj. exact Hj.
  - intros a ->.
    apply (Permutation_in _ (Permutation_sym Hout)), in_map_iff in H0 as (j & <- & Hj).
    apply PgFacts.limit_rows_In, (Permutation_in _ (Permutation_sym Hperm)), filter_In
      in Hj as [_ Hj].
    unfold FixFm.match_where in Hj. apply andb_true_iff in Hj as [_ Hj].
    now apply FixFmMore.asrs_filter_Some in Hj.
Qed.

Lemma redefined_match_returns_nearest_witness :
  match FixFm.match_fm_global_vectors_exec (H := Fixture.ops) Fixture.store
          (Fixture.axis 0) None (Some "table"%string) 1 with
  | Pg.Rows (r :: _) => FixFm.m_source_type r = "table"%string
  | _ => False
  end.
Proof.
  pose proof (FixFmFacts.match_exec_admissible_fix (H := Fixture.ops) Fixture.store
                (Fixture.axis 0) None (Some "table"%string) 1) as Hadm.
  destruct (FixFm.match_fm_global_vectors_exec _ _ _ _ _) as [[|r rest]|e] eqn:E;
    [run_rows E| |run_rows E].
  exact (proj1 (proj2 (proj2 (@redefined_match_returns_nearest Fixture.ops _ _ _ _ _ _
                                Hadm)) r (or_introl eq_refl)) _ eq_refl).
Defined.

(** ** More about [search_fm_global_all] *)

(** X7: [search_fm_global_all] returns its rows most similar first, at most
    [match_count] of them; every record left out is no more similar than
    any returned one, and when [match_count] is at least the number of
    stored rows with an embedding, every one of them is returned. *)
Theorem unified_search_ranks_all_tables `{TextSearch.Operators}
  (db : Unified.database) (query_embedding : Pg.vector) (query_text : string)
  (match_count : Z) (out : list Unified.result_row) :
  Unified.search_fm_global_all db query_embedding query_text match_count (Pg.Rows out) ->
  let candidates := Unified.all_results db query_embedding in
  StronglySorted
    (fun a b => Ranking.more_similar (Unified.similarity a) (Unified.similarity b)) out
  /\ Z.of_nat (List.length out) <= match_count
  /\ (match_count < Z.of_nat (List.length candidates) ->
      Z.of_nat (List.length out) = match_count)
  /\ (exists rest, Permutation candidates (out ++ rest)
        /\ forall a b, In a out -> In b rest ->
             Ranking.more_similar (Unified.similarity a) (Unified.similarity b))
  /\ (Z.of_nat (List.length candidates) <= match_count -> Permutation candidates out).
Proof.
  intros Hs candidates.
  inversion Hs as [n ranked Hn Hdim [Hperm Hsorted] Hout| |]; subst.
  destruct (MoreFacts.limit_count_inr _ _ Hn) as [Hpos ->].
  assert (Hsome : forall r, In r ranked -> exists x, Unified.similarity r = Some x).
  { intros r Hr. apply (Permutation_in _ (Permutation_sym Hperm)) in Hr.
    unfold Unified.all_results, Unified.chunk_results, Unified.table_results,
      Unified.vector_results in Hr.
    repeat (apply in_app_or in Hr as [Hr|Hr]);
      apply in_map_iff in Hr as (x & <- & Hx); apply filter_In in Hx as [_ Hx];
      simpl; unfold Unified.similarity_to.
    - destruct (Unified.c_embedding x); simpl in *; [eauto|discriminate].
    - destruct (Unified.tv_embedding x); simpl in *; [eauto|discriminate].
    - destruct (Unified.v_embedding x); simpl in *; [eauto|discriminate]. }
  assert (Hall : StronglySorted
                   (fun a b => Ranking.more_similar (Unified.similarity a)
                                 (Unified.similarity b)) ranked).
  { apply (PgFacts.StronglySorted_ext_in (Unified.by_similarity_desc)); [|exact Hsorted].
    intros a b Ha Hb. destruct (Hsome a Ha) as [x Hx], (Hsome b Hb) as [y Hy].
    unfold Unified.by_similarity_desc, Ranking.more_similar. rewrite Hx, Hy. simpl.
    intros Hle. now exists x, y. }
  assert (Hlen : List.length candidates = List.length ranked)
    by now apply Permutation_length.
  repeat split.
  - now apply PgFacts.limit_rows_sorted.
  - rewrite PgFacts.limit_rows_length. lia.
  - intros Hmore. rewrite PgFacts.limit_rows_length. lia.
  - exists (skipn (N.to_nat (Z.to_N match_count)) ranked). split.
    + now rewrite <- PgFacts.limit_rows_split.
    + apply PgFacts.StronglySorted_app_le. now rewrite <- PgFacts.limit_rows_split.
  - intros Hfew. rewrite PgFacts.limit_rows_all by lia. exact Hperm.
Qed.

Lemma unified_search_ranks_all_tables_witness :
  match Unified.search_fm_global_all_exec (H := Fixture.ops) Fixture.unified_store
          (Fixture.axis 0) "aisle" 2 with
  | Pg.Rows out => Z.of_nat (List.length out) = 2
  | Pg.Raised _ => False
  end.
Proof.
  pose proof (UnifiedFacts.search_exec_admissible (H := Fixture.ops)
                Fixture.unified_store (Fixture.axis 0) "aisle" 2) as Hadm.
  destruct (Unified.search_fm_global_all_exec _ _ _ _) as [out|e] eqn:E; [|run_rows E].
  apply (proj1 (proj2 (proj2
           (@unified_search_ranks_all_tables Fixture.ops _ _ _ _ _ Hadm)))).
  vm_compute. reflexivity.
Defined.

(** ** The agent's ranking of fused results *)

Module SortFacts.
Import Pg.

Section Stable.
Context {A : Type} (leb : A -> A -> bool) (p : A -> bool).
Hypothesis class_related : forall x y, p x = true -> p y = true -> leb x y = true.

Lemma insert_row_filter (x : A) (l : list A) :
  filter p (insert_row leb x l) = filter p (x :: l).
Proof.
  induction l as [|y l IH]; [reflexivity|].
  cbn [insert_row]. destruct (leb x y) eqn:Hxy; [reflexivity|].
  cbn [filter] in *. rewrite IH.
  destruct (p x) eqn:Hx; [|reflexivity].
  destruct (p y) eqn:Hy; [|reflexivity].
  rewrite (class_related x y Hx Hy) in Hxy. discriminate.
Qed.

(** The rows of one class come out of [sort_rows] in the order they went in. *)
Lemma sort_rows_stable (l : list A) : filter p (sort_rows leb l) = filter p l.
Proof.
  induction l as [|x l IH]; [reflexivity|].
  cbn [sort_rows fold_right]. fold (sort_rows leb l).
  rewrite insert_row_filter. cbn [filter]. now rewrite IH.
Qed.

End Stable.

Lemma filter_firstn_prefix {A : Type} (p : A -> bool) (k : nat) (l : list A) :
  filter p (firstn k l) = firstn (List.length (filter p (firstn k l))) (filter p l).
Proof.
  revert k. induction l as [|x l IH]; intros [|k]; try reflexivity.
  cbn [firstn filter]. destruct (p x); cbn [List.length firstn]; now rewrite <- IH.
Qed.

End SortFacts.

Module DesignFacts.
Import Pg Agent Design PgFacts.

Lemma Qle_bool_total (x y : Q) : Qle_bool x y = false -> (y <= x)%Q.
Proof.
  intros Hf. destruct (Qlt_le_dec y x) as [Hlt|Hle]; [now apply Qlt_le_weak|].
  apply Qle_bool_iff in Hle. congruence.
Qed.

Section Fusion.
Variables FigureResult TableResult RegulationResult : Type.

Lemma sort_by_relevance (l : list (FusedResult FigureResult TableResult RegulationResult)) :
  order_by (fun a b => (relevance_score b <= relevance_score a)%Q) l
    (sort_rows (by_relevance FigureResult TableResult RegulationResult) l).
Proof.
  apply sort_rows_order_by.
  - intros a b Hab. now apply Qle_bool_iff.
  - intros a b Hab. now apply Qle_bool_total.
  - intros a b c Hab Hbc. now apply Qle_trans with (relevance_score b).
Qed.

End Fusion.

End DesignFacts.



(** ** The cost of a design *)

Module CostFacts.
Import Design.

Lemma fold_left_invariant {S E : Type} (step : S -> E -> S) (I : S -> Prop) (l : list E) :
  (forall s e, In e l -> I s -> I (step s e)) ->
  forall s, I s -> I (fold_left step l s).
Proof.
  induction l as [|e l IH]; intros Hstep s Hs; [exact Hs|].
  simpl. apply IH.
  - intros s' e' He'. apply Hstep. now right.
  - apply Hstep; [now left|exact Hs].
Qed.

Lemma fold_left_snoc {S E : Type} (step : S -> E -> S) (l : list E) (x : E) (s : S) :
  fold_left step (l ++ [x]) s = step (fold_left step l s) x.
Proof. now rewrite fold_left_app. Qed.

(** A stable insertion sort by a comparator that is consistent on the
    elements sorted gives a sorted list. *)
Section ConsistentSort.
Context {A : Type} (leb : A -> A -> bool) (D : A -> Prop).
Hypothesis total_on : forall a b, D a -> D b -> leb a b = false -> leb b a = true.
Hypothesis trans_on :
  forall a b c, D a -> D b -> D c -> leb a b = true -> leb b c = true -> leb a c = true.

Lemma insert_row_sorted_on (x : A) (s : list A) :
  D x -> Forall D s ->
  StronglySorted (fun a b => leb a b = true) s ->
  StronglySorted (fun a b => leb a b = true) (Pg.insert_row leb x s).
Proof.
  intros Hx Hd Hs. induction Hs as [|y s Hs IH Hall]; simpl.
  - repeat constructor.
  - inversion Hd as [|? ? Hy Hd']; subst.
    destruct (leb x y) eqn:Hxy.
    + constructor; [now constructor|]. constructor; [exact Hxy|].
      rewrite Forall_forall in *. intros z Hz.
      apply (trans_on x y z); auto.
    + constructor; [now apply IH|].
      rewrite Forall_forall in *. intros z Hz.
      apply (Permutation_in _ (Permutation_sym (PgFacts.insert_row_perm leb x s))) in Hz.
      destruct Hz as [<-|Hz]; [now apply total_on|now apply Hall].
Qed.

Lemma sort_rows_sorted_on (l : list A) :
  Forall D l -> StronglySorted (fun a b => leb a b = true) (Pg.sort_rows leb l).
Proof.
  induction l as [|x l IH]; intros Hd; [constructor|].
  inversion Hd as [|? ? Hx Hd']; subst.
  cbn [Pg.sort_rows fold_right]. fold (Pg.sort_rows leb l).
  apply insert_row_sorted_on; [exact Hx| |now apply IH].
  assert (Hp : Permutation l (Pg.sort_rows leb l)).
  { clear. induction l as [|y l IHl]; [constructor|].
    cbn [Pg.sort_rows fold_right]. fold (Pg.sort_rows leb l).
    etransitivity; [|apply PgFacts.insert_row_perm]. now constructor. }
  exact (Permutation_Forall Hp Hd').
Qed.

Lemma sort_rows_perm (l : list A) : Permutation l (Pg.sort_rows leb l).
Proof.
  induction l as [|y l IHl]; [constructor|].
  cbn [Pg.sort_rows fold_right]. fold (Pg.sort_rows leb l).
  etransitivity; [|apply PgFacts.insert_row_perm]. now constructor.
Qed.

End ConsistentSort.

End CostFacts.

(** X10: In the breakdown that [calculateCost] returns, the subtotal is the
    item totals added up as doubles, from 0 and in the order of the
    items; labor is the subtotal times 0.3, and the total is the subtotal
    plus labor.  Every item prices one piece of equipment by its cost
    factor, as base cost times quantity times complexity multiplier, and
    there are no more items than pieces of equipment. *)
Theorem cost_breakdown_totals (number_text : Design.number -> string)
  (costFactors : option (list Design.CostFactor))
  (equipment : list Design.EquipmentItem) :
  let breakdown := Design.calculateCost number_text costFactors equipment in
  Design.subtotal breakdown
  = fold_left (fun sum item => (sum + Design.item_total item)%float)
      (Design.items breakdown) PrimFloat.zero
  /\ Design.labor breakdown = (Design.subtotal breakdown * Design.labor_share)%float
  /\ Design.total breakdown = (Design.subtotal breakdown + Design.labor breakdown)%float
  /\ (List.length (Design.items breakdown) <= List.length equipment)%nat
  /\ forall item, In item (Design.items breakdown) ->
       exists piece factor,
         In piece equipment
         /\ Design.find_factor costFactors piece = Some factor
         /\ Design.unit_cost item = Design.base_cost_per_unit factor
         /\ Design.item_quantity item = Design.quantity piece
         /\ Design.item_total item
            = (Design.base_cost_per_unit factor * Design.quantity piece
               * Design.complexity_multiplier factor)%float.
Proof.
  intros breakdown. unfold breakdown, Design.calculateCost. cbn [Design.subtotal
    Design.items Design.labor Design.total].
  set (final := fold_left (Design.cost_step number_text costFactors) equipment _).
  repeat split.
  - unfold final.
    apply (CostFacts.fold_left_invariant _
             (fun s => snd s
                       = fold_left (fun sum item => (sum + Design.item_total item)%float)
                           (fst s) PrimFloat.zero)).
    + intros s e _ Hs. unfold Design.cost_step.
      destruct (Design.find_factor costFactors e); [|exact Hs].
      cbn [fst snd]. rewrite CostFacts.fold_left_snoc. cbn [Design.item_total].
      f_equal. exact Hs.
    + reflexivity.
  - unfold final. clear final.
    assert (Hlen : forall l s,
              (List.length (fst (fold_left (Design.cost_step number_text costFactors) l s))
               <= List.length (fst s) + List.length l)%nat).
    { induction l as [|e l IH]; intros s; simpl; [lia|].
      etransitivity; [apply IH|]. unfold Design.cost_step.
      destruct (Design.find_factor costFactors e); cbn [fst]; [rewrite length_app; simpl|];
        lia. }
    apply (Hlen equipment ([], PrimFloat.zero)).
  - unfold final.
    apply (CostFacts.fold_left_invariant _
             (fun s => forall item, In item (fst s) ->
                exists piece factor,
                  In piece equipment
                  /\ Design.find_factor costFactors piece = Some factor
                  /\ Design.unit_cost item = Design.base_cost_per_unit factor
                  /\ Design.item_quantity item = Design.quantity piece
                  /\ Design.item_total item
                     = (Design.base_cost_per_unit factor * Design.quantity piece
                        * Design.complexity_multiplier factor)%float)).
    + intros s e He Hs item. unfold Design.cost_step.
      destruct (Design.find_factor costFactors e) as [factor|] eqn:Hf; [|apply Hs].
      cbn [fst]. intros Hin. apply in_app_or in Hin as [Hin|[<-|[]]]; [now apply Hs|].
      exists e, factor. repeat split; auto.
    + intros item [].
Qed.

Lemma cost_breakdown_totals_witness :
  let breakdown := Design.calculateCost Numbers.number_text
                     (Some CostExample.cost_factors) CostExample.equipment in
  (List.length (Design.items breakdown) <= 3)%nat
  /\ Design.total breakdown = (Design.subtotal breakdown + Design.labor breakdown)%float.
Proof.
  intros breakdown.
  destruct (cost_breakdown_totals Numbers.number_text (Some CostExample.cost_factors)
              CostExample.equipment) as (_ & _ & Htotal & Hlen & _).
  split; [exact Hlen|exact Htotal].
Defined.

(** X11: [calculateCost] passes over equipment that has no cost factor: the
    breakdown is the one of the priced equipment alone.  When the query
    for the cost factors gave no data, nothing is priced: the breakdown
    has no items and costs nothing. *)
Theorem unpriced_equipment_is_ignored (number_text : Design.number -> string)
  (costFactors : option (list Design.CostFactor))
  (equipment : list Design.EquipmentItem) :
  Design.calculateCost number_text costFactors equipment
  = Design.calculateCost number_text costFactors
      (filter (fun piece => match Design.find_factor costFactors piece with
                            | Some _ => true
                            | None => false
                            end) equipment)
  /\ Design.items (Design.calculateCost number_text None equipment) = []
  /\ Design.total (Design.calculateCost number_text None equipment) = PrimFloat.zero.
Proof.
  assert (Hskip : forall l s,
            fold_left (Design.cost_step number_text costFactors) l s
            = fold_left (Design.cost_step number_text costFactors)
                (filter (fun piece => match Design.find_factor costFactors piece with
                                      | Some _ => true
                                      | None => false
                                      end) l) s).
  { induction l as [|e l IH]; intros s; [reflexivity|].
    cbn [fold_left filter].
    destruct (Design.find_factor costFactors e) as [factor|] eqn:Hf.
    - cbn [fold_left]. apply IH.
    - unfold Design.cost_step at 2. rewrite Hf. apply IH. }
  assert (Hnone : forall l s, fold_left (Design.cost_step number_text None) l s = s).
  { induction l as [|e l IH]; intros s; [reflexivity|]. simpl. apply IH. }
  repeat split.
  - unfold Design.calculateCost. now rewrite <- Hskip.
  - unfold Design.calculateCost. now rewrite Hnone.
  - unfold Design.calculateCost. rewrite Hnone. reflexivity.
Qed.

(** The total is the sum of subtotal and labor, not 1.3 times the
    subtotal: for one piece that costs 3 it is 3.9, the double below the
    one of 1.3 * 3. *)
Remark labor_is_added_to_the_subtotal :
  let breakdown := Design.calculateCost Numbers.number_text (Some CostExample.one_factor)
                     CostExample.one_piece in
  Design.subtotal breakdown = CostExample.three
  /\ PrimFloat.eqb (Design.total breakdown)
       (Design.subtotal breakdown + Design.subtotal breakdown * Design.labor_share) = true
  /\ PrimFloat.ltb (Design.total breakdown)
       (CostExample.thirteen_tenths * Design.subtotal breakdown) = true.
Proof. vm_compute. repeat split. Qed.

(** ** Cost optimisation *)

Module OptimizeFacts.
Import Agent Design HeapInvariant.

Section Heap.
Variable Impact : Type.

Lemma write_length (h : heap Impact) (r : array_ref)
  (a : list (OptimizationSuggestion Impact)) :
  List.length (write Impact h r a) = List.length h.
Proof.
  revert r. induction h as [|x h IH]; intros [|r]; simpl; auto.
Qed.

Lemma read_write_same (h : heap Impact) (r : array_ref)
  (a : list (OptimizationSuggestion Impact)) :
  (r < List.length h)%nat -> read Impact (write Impact h r a) r = a.
Proof.
  unfold read. revert r. induction h as [|x h IH]; intros [|r] Hr; simpl in *; try lia.
  - reflexivity.
  - apply IH. lia.
Qed.

Lemma read_write_other (h : heap Impact) (r r' : array_ref)
  (a : list (OptimizationSuggestion Impact)) :
  r <> r' -> read Impact (write Impact h r a) r' = read Impact h r'.
Proof.
  unfold read. revert r r'.
  induction h as [|x h IH]; intros [|r] [|r'] Hr; simpl; try reflexivity; try congruence.
  apply IH. congruence.
Qed.

Lemma read_alloc_new (h : heap Impact) :
  read Impact (fst (alloc Impact h)) (snd (alloc Impact h)) = [].
Proof.
  unfold alloc, read. simpl. rewrite app_nth2 by lia. now rewrite Nat.sub_diag.
Qed.

Lemma read_alloc_old (h : heap Impact) (r : array_ref) :
  (r < List.length h)%nat -> read Impact (fst (alloc Impact h)) r = read Impact h r.
Proof. intros Hr. unfold alloc, read. simpl. now apply app_nth1. Qed.

Lemma holds_alloc (h0 : heap Impact) : holds h0 (fst (alloc Impact h0)) [].
Proof.
  repeat split.
  - unfold alloc. simpl. rewrite length_app. simpl. lia.
  - apply read_alloc_new.
  - apply read_alloc_old.
Qed.

Lemma holds_write (h0 h : heap Impact) (built a : list (OptimizationSuggestion Impact)) :
  holds h0 h built -> holds h0 (write Impact h (List.length h0) a) a.
Proof.
  intros (Hlen & Hread & Hold). repeat split.
  - now rewrite write_length.
  - apply read_write_same. lia.
  - intros r Hr. rewrite read_write_other by lia. now apply Hold.
Qed.

Lemma holds_push (h0 h : heap Impact) (built : list (OptimizationSuggestion Impact))
  (x : OptimizationSuggestion Impact) :
  holds h0 h built -> holds h0 (push Impact h (List.length h0) x) (built ++ [x]).
Proof.
  intros Hh. unfold push. pose proof Hh as (Hlen & Hread & Hold).
  rewrite Hread. now apply (holds_write h0 h built).
Qed.

End Heap.

Section Optimize.
Variable Impact : Type.
Variable number_text : number -> string.
Variable calculateSpacingOptimization : DesignResult -> promise (SpacingOptimization Impact).
Variable findAlternativeProtectionSchemes :
  ASRSConfiguration -> promise (list (ProtectionScheme Impact)).
Variable calculateClosedTopSavings : ASRSConfiguration -> promise (ClosedTopSavings Impact).
Variable design : DesignResult.

Lemma cheaper_schemes_pushed (h0 : heap Impact) (schemes : list (ProtectionScheme Impact))
  (h : heap Impact) (built : list (OptimizationSuggestion Impact)) :
  holds h0 h built ->
  holds h0 (fold_left (scheme_step Impact design (List.length h0)) schemes h)
    (built ++ map (scheme_suggestion Impact design)
                (filter (fun scheme =>
                           PrimFloat.ltb (scheme_estimated_cost Impact scheme)
                             (total (estimated_cost design))) schemes)).
Proof.
  revert h built. induction schemes as [|scheme schemes IH]; intros h built Hh.
  - simpl. now rewrite app_nil_r.
  - cbn [fold_left filter]. unfold scheme_step at 2.
    destruct (PrimFloat.ltb _ _).
    + cbn [map].
      assert (Hassoc : forall (x : OptimizationSuggestion Impact) rest,
                built ++ x :: rest = (built ++ [x]) ++ rest)
        by (intros; now rewrite <- app_assoc).
      rewrite Hassoc. apply IH. now apply holds_push.
    + now apply IH.
Qed.

(** How a fulfilled call of [optimizeForCost] came about. *)
Lemma optimize_resolved (h0 h : heap Impact) (res : OptimizationSuggestions) :
  optimizeForCost Impact number_text calculateSpacingOptimization
    findAlternativeProtectionSchemes calculateClosedTopSavings h0 design
  = Resolved (h, res) ->
  exists spacing schemes container,
    (if PrimFloat.ltb (sprinkler_spacing design)
          (rack_spacing_ft (configuration design) * spacing_share)
     then exists s, calculateSpacingOptimization design = Resolved s
                    /\ spacing = [spacing_suggestion Impact number_text design s]
     else spacing = [])
    /\ findAlternativeProtectionSchemes (configuration design) = Resolved schemes
    /\ match container_type (configuration design) with
       | OpenTop =>
           exists c, calculateClosedTopSavings (configuration design) = Resolved c
                     /\ container = if feasible Impact c
                                    then [container_suggestion Impact c] else []
       | _ => container = []
       end
    /\ suggestions res = List.length h0
    /\ implementation_priority res = List.length h0
    /\ total_potential_savings res
       = fold_left (fun sum s => (sum + estimated_savings Impact s)%float)
           (spacing
            ++ map (scheme_suggestion Impact design)
                 (filter (fun scheme =>
                            PrimFloat.ltb (scheme_estimated_cost Impact scheme)
                              (total (estimated_cost design))) schemes)
            ++ container) PrimFloat.zero
    /\ holds h0 h
         (Pg.sort_rows (by_savings Impact)
            (spacing
             ++ map (scheme_suggestion Impact design)
                  (filter (fun scheme =>
                             PrimFloat.ltb (scheme_estimated_cost Impact scheme)
                               (total (estimated_cost design))) schemes)
             ++ container)).
Proof.
  unfold optimizeForCost, alloc.
  pose proof (holds_alloc Impact h0) as H1. unfold alloc in H1. cbn [fst] in H1.
  set (h1 := h0 ++ [[]]) in *.
  set (cheaper := fun scheme => PrimFloat.ltb (scheme_estimated_cost Impact scheme)
                                  (total (estimated_cost design))).
  assert (Hfinish : forall h4 built,
            holds h0 h4 built ->
            Resolved
              (sort_in_place Impact h4 (List.length h0),
               {| suggestions := List.length h0;
                  total_potential_savings :=
                    fold_left (fun sum s => (sum + estimated_savings Impact s)%float)
                      (read Impact h4 (List.length h0)) PrimFloat.zero;
                  implementation_priority := List.length h0 |})
            = Resolved (h, res) ->
            suggestions res = List.length h0
            /\ implementation_priority res = List.length h0
            /\ total_potential_savings res
               = fold_left (fun sum s => (sum + estimated_savings Impact s)%float) built PrimFloat.zero
            /\ holds h0 h (Pg.sort_rows (by_savings Impact) built)).
  { intros h4 built Hh Heq. injection Heq as <- <-. cbn.
    pose proof Hh as (Hlen & Hread & Hold). unfold sort_in_place. rewrite Hread.
    split; [reflexivity|]. split; [reflexivity|]. split; [reflexivity|].
    now apply (holds_write Impact h0 h4 built). }
  assert (Hrest : forall h2 spacing,
            holds h0 h2 spacing ->
            (await alternativeSchemes <-
               findAlternativeProtectionSchemes (configuration design) ;;
             let h3 := fold_left (scheme_step Impact design (List.length h0))
                         alternativeSchemes h2 in
             await h4 <-
               (match container_type (configuration design) with
                | OpenTop =>
                    await closedTopSavings <-
                      calculateClosedTopSavings (configuration design) ;;
                    Resolved (if feasible Impact closedTopSavings
                              then push Impact h3 (List.length h0)
                                     (container_suggestion Impact closedTopSavings)
                              else h3)
                | _ => Resolved h3
                end) ;;
             Resolved
               (sort_in_place Impact h4 (List.length h0),
                {| suggestions := List.length h0;
                   total_potential_savings :=
                     fold_left (fun sum s => (sum + estimated_savings Impact s)%float)
                       (read Impact h4 (List.length h0)) PrimFloat.zero;
                   implementation_priority := List.length h0 |}))
            = Resolved (h, res) ->
            exists schemes container,
              findAlternativeProtectionSchemes (configuration design) = Resolved schemes
              /\ match container_type (configuration design) with
                 | OpenTop =>
                     exists c,
                       calculateClosedTopSavings (configuration design) = Resolved c
                       /\ container = if feasible Impact c
                                      then [container_suggestion Impact c] else []
                 | _ => container = []
                 end
              /\ suggestions res = List.length h0
              /\ implementation_priority res = List.length h0
              /\ total_potential_savings res
                 = fold_left (fun sum s => (sum + estimated_savings Impact s)%float)
                     (spacing ++ map (scheme_suggestion Impact design)
                                   (filter cheaper schemes) ++ container) PrimFloat.zero
              /\ holds h0 h
                   (Pg.sort_rows (by_savings Impact)
                      (spacing ++ map (scheme_suggestion Impact design)
                                    (filter cheaper schemes) ++ container))).
  { intros h2 spacing Hh2.
    destruct (findAlternativeProtectionSchemes (configuration design))
      as [schemes|e]; [|discriminate].
    cbn [then_].
    pose proof (cheaper_schemes_pushed h0 schemes h2 spacing Hh2) as Hh3.
    fold cheaper in Hh3.
    set (h3 := fold_left _ schemes h2) in *.
    destruct (container_type (configuration design)) eqn:Hc.
    - cbn [then_]. intros Heq. exists schemes, []. rewrite !app_nil_r.
      split; [reflexivity|]. split; [reflexivity|]. exact (Hfinish _ _ Hh3 Heq).
    - destruct (calculateClosedTopSavings (configuration design)) as [c|e];
        [|discriminate].
      cbn [then_]. intros Heq.
      exists schemes, (if feasible Impact c then [container_suggestion Impact c] else []).
      split; [reflexivity|]. split; [now exists c|].
      destruct (feasible Impact c).
      + rewrite app_assoc. apply (Hfinish _ _ (holds_push Impact _ _ _ _ Hh3) Heq).
      + rewrite !app_nil_r. exact (Hfinish _ _ Hh3 Heq).
    - cbn [then_]. intros Heq. exists schemes, []. rewrite !app_nil_r.
      split; [reflexivity|]. split; [reflexivity|]. exact (Hfinish _ _ Hh3 Heq). }
  destruct (PrimFloat.ltb (sprinkler_spacing design) _).
  - destruct (calculateSpacingOptimization design) as [s|e]; [|discriminate].
    cbn [then_]. intros Heq.
    destruct (Hrest _ _ (holds_push Impact _ _ _
                           (spacing_suggestion Impact number_text design s) H1) Heq)
      as (schemes & container & Hs & Hc & Hrest').
    exists [spacing_suggestion Impact number_text design s], schemes, container.
    split; [now exists s|]. split; [exact Hs|]. split; [exact Hc|]. exact Hrest'.
  - cbn [then_]. intros Heq.
    destruct (Hrest _ _ H1 Heq) as (schemes & container & Hs & Hc & Hrest').
    exists [], schemes, container.
    split; [reflexivity|]. split; [exact Hs|]. split; [exact Hc|]. exact Hrest'.
Qed.

End Optimize.

End OptimizeFacts.



(** X14: Every suggestion of a fulfilled call of [optimizeForCost] has its
    reason: a spacing suggestion is made only when the sprinkler spacing is
    below the rack spacing times 0.8, as doubles; a protection scheme is
    suggested only when it costs less than the design, and its estimated
    savings are the difference; closed-top containers are suggested only
    for an open-top design for which the change is feasible.  There are at
    most two suggestions more than alternative schemes. *)
Theorem optimize_suggestions_have_reasons (Impact : Type)
  (number_text : Design.number -> string)
  (calculateSpacingOptimization :
     Design.DesignResult -> Agent.promise (Design.SpacingOptimization Impact))
  (findAlternativeProtectionSchemes :
     Design.ASRSConfiguration -> Agent.promise (list (Design.ProtectionScheme Impact)))
  (calculateClosedTopSavings :
     Design.ASRSConfiguration -> Agent.promise (Design.ClosedTopSavings Impact))
  (h0 h : Design.heap Impact) (design : Design.DesignResult)
  (res : Design.OptimizationSuggestions) :
  Design.optimizeForCost Impact number_text calculateSpacingOptimization
    findAlternativeProtectionSchemes calculateClosedTopSavings h0 design
  = Agent.Resolved (h, res) ->
  exists schemes,
    findAlternativeProtectionSchemes (Design.configuration design) = Agent.Resolved schemes
    /\ (List.length (Design.read Impact h (Design.suggestions res))
        <= 2 + List.length schemes)%nat
    /\ forall s, In s (Design.read Impact h (Design.suggestions res)) ->
         (Design.suggestion_type Impact s = "spacing_optimization"%string
          /\ PrimFloat.ltb (Design.sprinkler_spacing design)
               (Design.rack_spacing_ft (Design.configuration design)
                * Design.spacing_share) = true
          /\ exists o, calculateSpacingOptimization design = Agent.Resolved o
                       /\ Design.estimated_savings Impact s
                          = Design.spacing_cost_reduction Impact o)
         \/ (Design.suggestion_type Impact s = "protection_scheme"%string
             /\ exists scheme, In scheme schemes
                  /\ PrimFloat.ltb (Design.scheme_estimated_cost Impact scheme)
                       (Design.total (Design.estimated_cost design)) = true
                  /\ Design.estimated_savings Impact s
                     = (Design.total (Design.estimated_cost design)
                        - Design.scheme_estimated_cost Impact scheme)%float)
         \/ (Design.suggestion_type Impact s = "container_modification"%string
             /\ Design.container_type (Design.configuration design) = Agent.OpenTop
             /\ exists c, calculateClosedTopSavings (Design.configuration design)
                          = Agent.Resolved c
                  /\ Design.feasible Impact c = true
                  /\ Design.estimated_savings Impact s
                     = Design.closed_top_cost_reduction Impact c).
Proof.
  intros Hres.
  destruct (OptimizeFacts.optimize_resolved _ _ _ _ _ _ _ _ _ Hres)
    as (spacing & schemes & container & Hsp & Hsch & Hcont & Hs & _ & _ & _ & Hread & _).
  set (cheaper := fun scheme => PrimFloat.ltb _ _) in *.
  set (built := spacing ++ _ ++ container) in *.
  pose proof (CostFacts.sort_rows_perm (Design.by_savings Impact) built) as Hperm.
  exists schemes. rewrite Hs, Hread. split; [exact Hsch|]. split.
  - rewrite <- (Permutation_length Hperm). unfold built.
    rewrite !length_app, length_map.
    assert (List.length spacing <= 1)%nat.
    { destruct (PrimFloat.ltb (Design.sprinkler_spacing design) _);
        [destruct Hsp as (o & _ & ->)|subst spacing]; simpl; lia. }
    assert (List.length container <= 1)%nat.
    { destruct (Design.container_type (Design.configuration design));
        [subst container; simpl; lia| |subst container; simpl; lia].
      destruct Hcont as (c & _ & ->). destruct (Design.feasible Impact c); simpl; lia. }
    pose proof (filter_length_le cheaper schemes). lia.
  - intros s Hin. apply (Permutation_in _ (Permutation_sym Hperm)) in Hin.
    unfold built in Hin. apply in_app_or in Hin as [Hin|Hin];
      [|apply in_app_or in Hin as [Hin|Hin]].
    + left. destruct (PrimFloat.ltb (Design.sprinkler_spacing design) _) eqn:Hcond;
        [|subst spacing; destruct Hin].
      destruct Hsp as (o & Ho & ->). destruct Hin as [<-|[]].
      split; [reflexivity|]. split; [reflexivity|]. now exists o.
    + right; left. apply in_map_iff in Hin as (scheme & <- & Hscheme).
      apply filter_In in Hscheme as [Hscheme Hcheap].
      split; [reflexivity|]. now exists scheme.
    + right; right.
      destruct (Design.container_type (Design.configuration design));
        [subst container; destruct Hin| |subst container; destruct Hin].
      destruct Hcont as (c & Hc & ->).
      destruct (Design.feasible Impact c) eqn:Hf; [|destruct Hin].
      destruct Hin as [<-|[]]. split; [reflexivity|]. split; [reflexivity|].
      now exists c.
Qed.

(** The run on the example design: sprinklers 2.4 ft apart in racks 3 ft
    apart get the spacing suggestion, 3 times 0.8 being the double above
    2.4. *)
Lemma optimize_suggestions_have_reasons_witness :
  match OptimizeExample.run [] with
  | Agent.Resolved (h, res) =>
      (List.length (Design.read string h (Design.suggestions res)) <= 2 + 2)%nat
      /\ exists s, In s (Design.read string h (Design.suggestions res))
           /\ Design.suggestion_type string s = "spacing_optimization"%string
           /\ PrimFloat.ltb (Design.sprinkler_spacing OptimizeExample.design)
                (Design.rack_spacing_ft (Design.configuration OptimizeExample.design)
                 * Design.spacing_share) = true
  | Agent.Rejected _ => False
  end.
Proof.
  destruct (OptimizeExample.run []) as [[h res]|e] eqn:E; [|discriminate E].
  destruct (optimize_suggestions_have_reasons string Numbers.number_text
              OptimizeExample.calculateSpacingOptimization
              OptimizeExample.findAlternativeProtectionSchemes
              OptimizeExample.calculateClosedTopSavings [] h OptimizeExample.design res E)
    as (schemes & Hschemes & Hlen & Hreasons).
  injection Hschemes as <-. split; [exact Hlen|].
  vm_compute in E. injection E as <- <-.
  eexists. split; [right; right; left; reflexivity|]. split; reflexivity.
Defined.

(** X15: [optimizeForCost] returns nothing partial: when the search for
    alternative schemes is rejected the call is rejected, for the same
    reason unless the spacing calculation before it was rejected already. *)
Theorem optimize_rejected_with_scheme_search (Impact : Type)
  (number_text : Design.number -> string)
  (calculateSpacingOptimization :
     Design.DesignResult -> Agent.promise (Design.SpacingOptimization Impact))
  (findAlternativeProtectionSchemes :
     Design.ASRSConfiguration -> Agent.promise (list (Design.ProtectionScheme Impact)))
  (calculateClosedTopSavings :
     Design.ASRSConfiguration -> Agent.promise (Design.ClosedTopSavings Impact))
  (h0 : Design.heap Impact) (design : Design.DesignResult) (e : Agent.exn) :
  findAlternativeProtectionSchemes (Design.configuration design) = Agent.Rejected e ->
  Design.optimizeForCost Impact number_text calculateSpacingOptimization
    findAlternativeProtectionSchemes calculateClosedTopSavings h0 design
  = Agent.Rejected e
  \/ exists e',
       calculateSpacingOptimization design = Agent.Rejected e'
       /\ Design.optimizeForCost Impact number_text calculateSpacingOptimization
            findAlternativeProtectionSchemes calculateClosedTopSavings h0 design
          = Agent.Rejected e'.
Proof.
  intros Hrej. unfold Design.optimizeForCost, Design.alloc.
  destruct (PrimFloat.ltb (Design.sprinkler_spacing design) _).
  - destruct (calculateSpacingOptimization design) as [o|e'] eqn:Ho.
    + left. cbn [Agent.then_]. now rewrite Hrej.
    + right. now exists e'.
  - left. cbn [Agent.then_]. now rewrite Hrej.
Qed.

Lemma optimize_rejected_with_scheme_search_witness :
  Design.optimizeForCost string Numbers.number_text
    OptimizeExample.calculateSpacingOptimization OptimizeExample.no_schemes
    OptimizeExample.calculateClosedTopSavings [] OptimizeExample.design
  = Agent.Rejected (Agent.ServiceError "scheme lookup failed").
Proof.
  destruct (optimize_rejected_with_scheme_search string Numbers.number_text
              OptimizeExample.calculateSpacingOptimization OptimizeExample.no_schemes
              OptimizeExample.calculateClosedTopSavings [] OptimizeExample.design
              (Agent.ServiceError "scheme lookup failed") eq_refl)
    as [Hrej|(e' & Hspacing & _)].
  - exact Hrej.
  - discriminate Hspacing.
Defined.

(** ** The questions of the form *)

(** X16: [generateFormQuestions] always asks for the ASRS type and asks for the
    container type exactly when the ASRS type has been answered; both
    questions are required selections among three options, and no other
    answer changes the questions. *)
Theorem form_questions_follow_answers (currentAnswers : Form.PartialConfiguration) :
  map Form.id (Form.generateFormQuestions currentAnswers)
  = "asrs_type"%string
    :: (if Form.is_defined (Form.asrs_type currentAnswers)
        then ["container_type"%string] else [])
  /\ Forall (fun q => Form.required q = true
                      /\ Form.type q = "select"%string
                      /\ List.length (Form.options q) = 3%nat)
       (Form.generateFormQuestions currentAnswers)
  /\ forall otherAnswers,
       Form.is_defined (Form.asrs_type otherAnswers)
       = Form.is_defined (Form.asrs_type currentAnswers) ->
       Form.generateFormQuestions otherAnswers = Form.generateFormQuestions currentAnswers.
Proof.
  unfold Form.generateFormQuestions, Form.questions. cbn [filter Form.conditional].
  repeat split.
  - now destruct (Form.is_defined (Form.asrs_type currentAnswers)).
  - destruct (Form.is_defined (Form.asrs_type currentAnswers)); repeat constructor.
  - intros otherAnswers ->. reflexivity.
Qed.

Lemma form_questions_follow_answers_witness :
  Form.generateFormQuestions
    {| Form.asrs_type := None; Form.container_type := Some Agent.OpenTop;
       Form.rack_depth_ft := Some 6%Q; Form.rack_spacing_ft := None;
       Form.ceiling_height_ft := None; Form.aisle_width_ft := None;
       Form.commodity_type := None; Form.storage_height_ft := None;
       Form.system_type := None |}
  = Form.generateFormQuestions Form.no_answers.
Proof.
  apply (proj2 (proj2 (form_questions_follow_answers Form.no_answers))).
  reflexivity.
Defined.

(** ** References by topic *)

Module ReferencesFacts.
Import Pg ExpertSchema References PgFacts.

Section Facts.
Variable like : string -> string -> bool.
Variable jsonb_text : jsonb -> string.
Variable db : database.
Variable topic : string.

Lemma Zle_order {A : Type} (rank : A -> Z) (l : list A) :
  order_by (fun a b => rank a <= rank b) l (sort_rows (fun a b => rank a <=? rank b) l).
Proof.
  apply sort_rows_order_by.
  - intros a b Hab. now apply Z.leb_le.
  - intros a b Hab. apply Z.leb_gt in Hab. lia.
  - intros a b c Hab Hbc. lia.
Qed.

Lemma references_exec_admissible (limit_count : Z) :
  get_fm_global_references_by_topic like jsonb_text db topic limit_count
    (get_fm_global_references_by_topic_exec like jsonb_text db topic limit_count).
Proof.
  unfold get_fm_global_references_by_topic_exec.
  destruct (Pg.limit_count (half limit_count)) as [e|n] eqn:Hn.
  - now constructor.
  - eapply references_rows; [exact Hn|apply Zle_order|apply Zle_order|reflexivity].
Qed.

Lemma references_rows_inv (limit_count : Z) (out : list reference_row) :
  get_fm_global_references_by_topic like jsonb_text db topic limit_count (Rows out) ->
  exists tables figures,
    0 <= half limit_count
    /\ order_by (fun a b => table_rank like jsonb_text topic a
                            <= table_rank like jsonb_text topic b)
         (filter (table_where like jsonb_text topic) (fm_global_tables db)) tables
    /\ order_by (fun a b => figure_rank like jsonb_text topic a
                            <= figure_rank like jsonb_text topic b)
         (filter (figure_where like jsonb_text topic) (fm_global_figures db)) figures
    /\ Permutation
         (map (select_table like jsonb_text topic)
            (limit_rows (Z.to_N (half limit_count)) tables)
          ++ map (select_figure like jsonb_text topic)
               (limit_rows (Z.to_N (half limit_count)) figures))
         out.
Proof.
  intros Hr. inversion Hr as [n tables figures out' Hn Ht Hf Hperm|]; subst.
  destruct (MoreFacts.limit_count_inr _ _ Hn) as [Hpos ->].
  exists tables, figures. rewrite <- !limit_rows_map. auto.
Qed.

Lemma count_tables (ts : list fm_global_tables_row) (fs : list fm_global_figures_row) :
  filter (fun r => String.eqb (reference_type r) "table")
    (map (select_table like jsonb_text topic) ts
     ++ map (select_figure like jsonb_text topic) fs)
  = map (select_table like jsonb_text topic) ts.
Proof.
  rewrite filter_app.
  replace (filter _ (map (select_figure like jsonb_text topic) fs)) with (@nil reference_row).
  - rewrite app_nil_r. induction ts as [|t ts IH]; simpl; [reflexivity|]. now rewrite IH.
  - induction fs as [|f fs IH]; simpl; [reflexivity|]. exact IH.
Qed.

Lemma count_figures (ts : list fm_global_tables_row) (fs : list fm_global_figures_row) :
  filter (fun r => String.eqb (reference_type r) "figure")
    (map (select_table like jsonb_text topic) ts
     ++ map (select_figure like jsonb_text topic) fs)
  = map (select_figure like jsonb_text topic) fs.
Proof.
  rewrite filter_app.
  replace (filter _ (map (select_table like jsonb_text topic) ts)) with (@nil reference_row).
  - cbn [app]. induction fs as [|f fs IH]; simpl; [reflexivity|]. now rewrite IH.
  - induction ts as [|t ts IH]; simpl; [reflexivity|]. exact IH.
Qed.

End Facts.

End ReferencesFacts.

(** X17: [get_fm_global_references_by_topic] gives each of its two selects half
    of [limit_count], rounded towards zero: a call returns at most that
    many tables and that many figures, so nothing at all for a
    [limit_count] of 1, 0 or -1, and it raises "LIMIT must not be
    negative" for a [limit_count] of -2 or less. *)
Theorem references_get_half_the_limit_each (like : string -> string -> bool)
  (jsonb_text : Pg.jsonb -> string) (db : ExpertSchema.database) (topic : string)
  (limit_count : Z) (o : Pg.outcome References.reference_row) :
  References.get_fm_global_references_by_topic like jsonb_text db topic limit_count o ->
  (limit_count <= -2 -> o = Pg.Raised Pg.LimitMustNotBeNegative)
  /\ (-1 <= limit_count <= 1 -> o = Pg.Rows [])
  /\ (0 <= limit_count ->
      exists out, o = Pg.Rows out
        /\ Z.of_nat (List.length
                       (filter (fun r => String.eqb (References.reference_type r) "table")
                          out)) <= limit_count / 2
        /\ Z.of_nat (List.length
                       (filter (fun r => String.eqb (References.reference_type r) "figure")
                          out)) <= limit_count / 2
        /\ Z.of_nat (List.length out) <= 2 * (limit_count / 2)).
Proof.
  intros Hr. repeat split.
  - intros Hneg. inversion Hr as [n tables figures out Hn|e He]; subst.
    + apply MoreFacts.limit_count_inr in Hn as [Hpos _]. unfold References.half in Hpos.
      pose proof (Z.quot_lt_upper_bound limit_count 2 0). 
      assert (limit_count ÷ 2 <= -1); [|lia].
      replace limit_count with (- (- limit_count)) by lia.
      rewrite Z.quot_opp_l by lia.
      pose proof (Z.quot_le_lower_bound (- limit_count) 2 1). lia.
    + rewrite MoreFacts.limit_count_neg in He; [now inversion He|].
      unfold References.half. replace limit_count with (- (- limit_count)) by lia.
      rewrite Z.quot_opp_l by lia.
      pose proof (Z.quot_le_lower_bound (- limit_count) 2 1). lia.
  - intros Hsmall.
    assert (Hhalf : References.half limit_count = 0).
    { unfold References.half.
      assert (limit_count = -1 \/ limit_count = 0 \/ limit_count = 1) as [->|[->| ->]]
        by lia; reflexivity. }
    inversion Hr as [n tables figures out Hn Ht Hf Hperm|e He]; subst.
    + rewrite Hhalf in Hn. injection Hn as <-.
      rewrite !MoreFacts.limit_rows_zero in Hperm. simpl in Hperm.
      apply Permutation_nil in Hperm. now subst.
    + rewrite Hhalf in He. discriminate.
  - intros Hpos.
    assert (Hhalf : References.half limit_count = limit_count / 2).
    { unfold References.half. apply Z.quot_div_nonneg; lia. }
    inversion Hr as [n tables figures out Hn Ht Hf Hperm|e He]; subst.
    + exists out.
      destruct (ReferencesFacts.references_rows_inv _ _ _ _ _ _ Hr)
        as (tables' & figures' & _ & _ & _ & Hperm').
      rewrite Hhalf in Hperm'.
      pose proof (Z.div_pos limit_count 2 Hpos ltac:(lia)) as Hq.
      repeat split.
      * rewrite <- (Permutation_length (PgFacts.Permutation_filter _ Hperm')).
        rewrite ReferencesFacts.count_tables, length_map, PgFacts.limit_rows_length. lia.
      * rewrite <- (Permutation_length (PgFacts.Permutation_filter _ Hperm')).
        rewrite ReferencesFacts.count_figures, length_map, PgFacts.limit_rows_length. lia.
      * rewrite <- (Permutation_length Hperm').
        rewrite length_app, !length_map, !PgFacts.limit_rows_length. lia.
    + rewrite Hhalf in He. rewrite MoreFacts.limit_count_nonneg in He; [discriminate|].
      apply Z.div_pos; lia.
Qed.

Lemma references_get_half_the_limit_each_witness :
  References.get_fm_global_references_by_topic_exec LikeExample.like
    LikeExample.jsonb_text LikeExample.reference_store "shuttle" 1
  = Pg.Rows [].
Proof.
  apply (proj1 (proj2 (references_get_half_the_limit_each _ _ _ _ _ _
           (ReferencesFacts.references_exec_admissible LikeExample.like
              LikeExample.jsonb_text LikeExample.reference_store "shuttle" 1)))).
  lia.
Defined.

(** X18: Every row that [get_fm_global_references_by_topic] returns is a stored
    table or figure that mentions the topic, labelled High, Medium or Low
    by where it mentions it; of each kind the function keeps the rows with
    the strongest label: no table or figure left out has a stronger label
    than a returned one of its kind. *)
Theorem references_keep_the_most_relevant (like : string -> string -> bool)
  (jsonb_text : Pg.jsonb -> string) (db : ExpertSchema.database) (topic : string)
  (limit_count : Z) (out : list References.reference_row) :
  References.get_fm_global_references_by_topic like jsonb_text db topic limit_count
    (Pg.Rows out) ->
  exists kept_tables left_tables kept_figures left_figures,
    Permutation
      (filter (References.table_where like jsonb_text topic)
         (ExpertSchema.fm_global_tables db))
      (kept_tables ++ left_tables)
    /\ Permutation
         (filter (References.figure_where like jsonb_text topic)
            (ExpertSchema.fm_global_figures db))
         (kept_figures ++ left_figures)
    /\ Permutation
         (map (References.select_table like jsonb_text topic) kept_tables
          ++ map (References.select_figure like jsonb_text topic) kept_figures)
         out
    /\ (forall a b, In a kept_tables -> In b left_tables ->
          References.table_rank like jsonb_text topic a
          <= References.table_rank like jsonb_text topic b)
    /\ (forall a b, In a kept_figures -> In b left_figures ->
          References.figure_rank like jsonb_text topic a
          <= References.figure_rank like jsonb_text topic b)
    /\ (forall r, In r out ->
          In (References.asrs_relevance r) ["High"; "Medium"; "Low"]%string
          /\ (References.asrs_relevance r = "Low"%string ->
              (exists t, In t (ExpertSchema.fm_global_tables db)
                 /\ r = References.select_table like jsonb_text topic t
                 /\ like (ExpertSchema.t_content t) (References.pattern topic) = true)
              \/ (exists f, In f (ExpertSchema.fm_global_figures db)
                    /\ r = References.select_figure like jsonb_text topic f
                    /\ like (ExpertSchema.f_description f) (References.pattern topic)
                       = true))).
Proof.
  intros Hr.
  destruct (ReferencesFacts.references_rows_inv _ _ _ _ _ _ Hr)
    as (tables & figures & _ & [Ht Hts] & [Hf Hfs] & Hperm).
  set (n := Z.to_N (References.half limit_count)) in *.
  exists (Pg.limit_rows n tables), (skipn (N.to_nat n) tables),
    (Pg.limit_rows n figures), (skipn (N.to_nat n) figures).
  rewrite <- !PgFacts.limit_rows_split.
  split; [exact Ht|]. split; [exact Hf|]. split; [exact Hperm|].
  split; [|split].
  - apply (PgFacts.StronglySorted_app_le
             (fun a b => References.table_rank like jsonb_text topic a
                         <= References.table_rank like jsonb_text topic b)).
    now rewrite <- PgFacts.limit_rows_split.
  - apply (PgFacts.StronglySorted_app_le
             (fun a b => References.figure_rank like jsonb_text topic a
                         <= References.figure_rank like jsonb_text topic b)).
    now rewrite <- PgFacts.limit_rows_split.
  - intros r Hin. apply (Permutation_in _ (Permutation_sym Hperm)) in Hin.
    apply in_app_or in Hin as [Hin|Hin]; apply in_map_iff in Hin as (x & <- & Hx);
      apply PgFacts.limit_rows_In in Hx.
    + apply (Permutation_in _ (Permutation_sym Ht)), filter_In in Hx as [Hx Hw].
      unfold References.select_table, References.relevance_of, References.table_rank.
      cbn [References.asrs_relevance]. unfold References.table_where in Hw.
      destruct (References.null_like like topic (ExpertSchema.t_table_type x)) eqn:E1;
        [simpl; split; [auto|discriminate]|].
      destruct (References.metadata_like like jsonb_text topic (ExpertSchema.t_metadata x))
        eqn:E2; [simpl; split; [auto|discriminate]|].
      simpl in *. split; [auto|]. intros _. left. exists x. repeat split; auto.
      unfold References.select_table, References.relevance_of, References.table_rank.
      now rewrite E1, E2.
    + apply (Permutation_in _ (Permutation_sym Hf)), filter_In in Hx as [Hx Hw].
      unfold References.select_figure, References.relevance_of, References.figure_rank.
      cbn [References.asrs_relevance]. unfold References.figure_where in Hw.
      destruct (References.null_like like topic (ExpertSchema.f_asrs_component x)
                || References.null_like like topic (ExpertSchema.f_design_context x))
        eqn:E1; [simpl; split; [auto|discriminate]|].
      destruct (References.metadata_like like jsonb_text topic (ExpertSchema.f_metadata x))
        eqn:E2; [simpl; split; [auto|discriminate]|].
      simpl in *. split; [auto|]. intros _. right. exists x. repeat split; auto.
      unfold References.select_figure, References.relevance_of, References.figure_rank.
      now rewrite E1, E2.
Qed.

Lemma references_keep_the_most_relevant_witness :
  match References.get_fm_global_references_by_topic_exec LikeExample.like
          LikeExample.jsonb_text LikeExample.reference_store "shuttle" 4 with
  | Pg.Rows out =>
      map References.reference_number out
      = ["Table 14"; "Table 7"; "Figure 9"; "Figure 4"]%string
      /\ Forall (fun r => In (References.asrs_relevance r) ["High"; "Medium"; "Low"]%string)
           out
  | Pg.Raised _ => False
  end.
Proof.
  pose proof (ReferencesFacts.references_exec_admissible LikeExample.like
                LikeExample.jsonb_text LikeExample.reference_store "shuttle" 4) as Hadm.
  destruct (References.get_fm_global_references_by_topic_exec _ _ _ _ _) as [out|e] eqn:E;
    [|run_rows E].
  destruct (references_keep_the_most_relevant _ _ _ _ _ _ Hadm)
    as (kt & lt & kf & lf & _ & _ & _ & _ & _ & Hlabel).
  split.
  - run_rows E. reflexivity.
  - apply Forall_forall. intros r Hin. exact (proj1 (Hlabel r Hin)).
Defined.

(** ** Text search of the chunks *)

Module ChunkSearchFacts.
Import Pg ChunkSearch PgFacts.

Lemma chunks_exec_admissible (ilike : string -> string -> bool)
  (chunks : list fm_text_chunks_row) (search_query : string) (match_count : Z) :
  text_search_chunks ilike chunks search_query match_count
    (text_search_chunks_exec ilike chunks search_query match_count).
Proof.
  unfold text_search_chunks_exec.
  destruct (limit_count match_count) as [e|n] eqn:Hn.
  - now constructor.
  - apply chunks_rows; [exact Hn|]. apply ReferencesFacts.Zle_order.
Qed.

End ChunkSearchFacts.

(** X19: [text_search_chunks] returns at most [match_count] chunks, each of
    which has the query in its summary or its text, whatever the case of
    the letters, or exactly among its keywords or topics.  The chunks with
    the query in the summary come first, then those with it in the text,
    then the others, and no chunk left out belongs to an earlier group
    than a returned one.  A negative [match_count] raises "LIMIT must not
    be negative". *)
Theorem chunk_search_ranks_summary_matches_first (ilike : string -> string -> bool)
  (chunks : list ChunkSearch.fm_text_chunks_row) (search_query : string)
  (match_count : Z) (o : Pg.outcome ChunkSearch.chunk_row) :
  ChunkSearch.text_search_chunks ilike chunks search_query match_count o ->
  (match_count < 0 -> o = Pg.Raised Pg.LimitMustNotBeNegative)
  /\ (0 <= match_count ->
      exists kept rest,
        o = Pg.Rows (map ChunkSearch.select_chunk kept)
        /\ Z.of_nat (List.length kept) <= match_count
        /\ Permutation (filter (ChunkSearch.search_where ilike search_query) chunks)
             (kept ++ rest)
        /\ StronglySorted
             (fun a b => ChunkSearch.search_rank ilike search_query a
                         <= ChunkSearch.search_rank ilike search_query b) kept
        /\ (forall a b, In a kept -> In b rest ->
              ChunkSearch.search_rank ilike search_query a
              <= ChunkSearch.search_rank ilike search_query b)
        /\ (rest <> [] -> Z.of_nat (List.length kept) = match_count)
        /\ forall c, In c kept ->
             In c chunks
             /\ (ChunkSearch.null_ilike ilike search_query (ChunkSearch.c_chunk_summary c)
                 = true
                 \/ ChunkSearch.null_ilike ilike search_query (ChunkSearch.c_raw_text c)
                    = true
                 \/ (exists keywords,
                       ChunkSearch.c_search_keywords c = Some keywords
                       /\ In (Some search_query) keywords)
                 \/ (exists topics,
                       ChunkSearch.c_topics c = Some topics
                       /\ In (Some search_query) topics))).
Proof.
  intros Hs. split.
  - intros Hneg. inversion Hs as [n ranked Hn|e He]; subst.
    + apply MoreFacts.limit_count_inr in Hn. lia.
    + rewrite MoreFacts.limit_count_neg in He by lia. now inversion He.
  - intros Hpos. inversion Hs as [n ranked Hn [Hperm Hsorted]|e He]; subst;
      [|rewrite MoreFacts.limit_count_nonneg in He by lia; discriminate].
    apply MoreFacts.limit_count_inr in Hn as [_ ->].
    set (n := Z.to_N match_count).
    assert (Hany : forall array,
              ChunkSearch.any_equal search_query array = true ->
              exists elements, array = Some elements /\ In (Some search_query) elements).
    { intros [elements|]; simpl; [|discriminate]. intros Hex. exists elements.
      split; [reflexivity|]. apply existsb_exists in Hex as ([x|] & Hx & Heq);
        simpl in Heq; [|discriminate].
      apply String.eqb_eq in Heq. now subst. }
    exists (Pg.limit_rows n ranked), (skipn (N.to_nat n) ranked).
    rewrite PgFacts.limit_rows_map, <- PgFacts.limit_rows_split.
    split; [reflexivity|]. split; [rewrite PgFacts.limit_rows_length; lia|].
    split; [exact Hperm|]. split; [now apply PgFacts.limit_rows_sorted|].
    split; [|split].
    + apply (PgFacts.StronglySorted_app_le
               (fun a b => ChunkSearch.search_rank ilike search_query a
                           <= ChunkSearch.search_rank ilike search_query b)).
      now rewrite <- PgFacts.limit_rows_split.
    + intros Hrest. rewrite PgFacts.limit_rows_length.
      assert (N.to_nat n < List.length ranked)%nat; [|lia].
      destruct (Nat.lt_ge_cases (N.to_nat n) (List.length ranked)) as [Hlt|Hge];
        [exact Hlt|].
      now rewrite skipn_all2 in Hrest.
    + intros c Hc.
      apply PgFacts.limit_rows_In, (Permutation_in _ (Permutation_sym Hperm)), filter_In
        in Hc as [Hc Hw].
      split; [exact Hc|]. unfold ChunkSearch.search_where in Hw.
      apply orb_true_iff in Hw as [Hw|Hw]; [|now right; right; right; apply Hany].
      apply orb_true_iff in Hw as [Hw|Hw]; [|now right; right; left; apply Hany].
      apply orb_true_iff in Hw as [Hw|Hw]; auto.
Qed.

Lemma chunk_search_ranks_summary_matches_first_witness :
  ChunkSearch.text_search_chunks_exec LikeExample.ilike LikeExample.text_chunks
    "sprinkler" (-1)
  = Pg.Raised Pg.LimitMustNotBeNegative
  /\ exists (kept rest : list ChunkSearch.fm_text_chunks_row),
       ChunkSearch.text_search_chunks_exec LikeExample.ilike LikeExample.text_chunks
         "sprinkler" 2
       = Pg.Rows (map ChunkSearch.select_chunk kept)
       /\ rest <> [] /\ Z.of_nat (List.length kept) = 2.
Proof.
  split.
  - apply (proj1 (chunk_search_ranks_summary_matches_first _ _ _ _ _
                    (ChunkSearchFacts.chunks_exec_admissible LikeExample.ilike
                       LikeExample.text_chunks "sprinkler" (-1)))).
    lia.
  - destruct (proj2 (chunk_search_ranks_summary_matches_first _ _ _ _ _
                       (ChunkSearchFacts.chunks_exec_admissible LikeExample.ilike
                          LikeExample.text_chunks "sprinkler" 2)) ltac:(lia))
      as (kept & rest & Hout & Hlen & Hperm & _ & _ & Hfull & _).
    exists kept, rest. split; [exact Hout|].
    assert (Hrest : rest <> []).
    { intros ->. rewrite app_nil_r in Hperm. apply Permutation_length in Hperm.
      assert (Hcount : List.length
                         (filter (ChunkSearch.search_where LikeExample.ilike "sprinkler")
                            LikeExample.text_chunks) = 3%nat) by (vm_compute; reflexivity).
      rewrite Hcount in Hperm. lia. }
    split; [exact Hrest|]. exact (Hfull Hrest).
Defined.

(** ** The three vector searches of the agent *)

Module AgentFacts.
Import Agent.

Lemma map_rows_resolved {A B : Type} (f : A -> promise B) (rows : list A) (out : list B) :
  map_rows f rows = Resolved out <-> Forall2 (fun row x => f row = Resolved x) rows out.
Proof.
  revert out. induction rows as [|row rows IH]; intros out; simpl.
  - split.
    + intros Heq. injection Heq as <-. constructor.
    + intros Hall. now inversion Hall.
  - destruct (f row) as [x|e] eqn:Hrow; simpl.
    + destruct (map_rows f rows) as [xs|e] eqn:Hrest; simpl.
      * split.
        -- intros Heq. injection Heq as <-. constructor; [exact Hrow|]. now apply IH.
        -- intros Hall. inversion Hall as [|? y ? ys Hy Hys]; subst.
           apply IH in Hys. injection Hys as ->. congruence.
      * split; [discriminate|].
        intros Hall. inversion Hall as [|? y ? ys Hy Hys]; subst.
        apply IH in Hys. discriminate.
    + split; [discriminate|].
      intros Hall. inversion Hall as [|? y ? ys Hy Hys]; subst. congruence.
Qed.

Lemma map_data_resolved {Row B : Type} (f : Row -> promise B) (d : option (list Row))
  (out : list B) :
  map_data Row f d = Resolved out
  <-> exists rows, d = Some rows /\ Forall2 (fun row x => f row = Resolved x) rows out.
Proof.
  destruct d as [rows|]; simpl.
  - rewrite map_rows_resolved. split.
    + intros Hall. now exists rows.
    + intros (rows' & Heq & Hall). now injection Heq as <-.
  - split; [discriminate|]. now intros (rows & Heq & _).
Qed.

Lemma Forall2_map_r {A B : Type} (f : A -> B) (l : list A) (out : list B) :
  Forall2 (fun a b => @Resolved B (f a) = Resolved b) l out <-> out = map f l.
Proof.
  split.
  - induction 1 as [|a b l out Hab _ IH]; [reflexivity|].
    injection Hab as <-. simpl. now rewrite IH.
  - intros ->. induction l; constructor; auto.
Qed.

End AgentFacts.

(** X20: Each of the agent's three vector searches is fulfilled exactly when its
    query reports no error and gives rows and no callback throws; the
    result then has one entry per row, in the order of the rows.  For
    [searchTableVectors] the second query, on [fm_global_tables], is asked
    for the table identifiers of the rows found, and only its data is
    looked at: an error it reports does not reject the search. *)
Theorem vector_searches_fulfilled (Row FigureResult TableResult RegulationResult : Type)
  (supabase : Agent.query -> Agent.response Row) (table_id : Row -> string)
  (figure_result : option Agent.ASRSConfiguration -> Row -> Agent.promise FigureResult)
  (table_result : option Agent.ASRSConfiguration -> option (list Row) -> Row ->
                  Agent.promise TableResult)
  (regulation_result : Row -> RegulationResult)
  (embedding : list Q) (config : option Agent.ASRSConfiguration) :
  (forall out,
     Agent.searchFigureVectors Row FigureResult supabase figure_result embedding config
     = Agent.Resolved out
     <-> Agent.error (supabase (Agent.figure_query embedding config)) = None
         /\ exists rows,
              Agent.data (supabase (Agent.figure_query embedding config)) = Some rows
              /\ Forall2 (fun row x => figure_result config row = Agent.Resolved x) rows out)
  /\ (forall out,
        Agent.searchTableVectors Row TableResult supabase table_id table_result embedding
          config
        = Agent.Resolved out
        <-> Agent.error (supabase (Agent.table_vector_query embedding)) = None
            /\ exists rows,
                 Agent.data (supabase (Agent.table_vector_query embedding)) = Some rows
                 /\ Forall2
                      (fun row x =>
                         table_result config
                           (Agent.data
                              (supabase
                                 {| Agent.q_table := "fm_global_tables";
                                    Agent.q_embedding := None;
                                    Agent.q_limit := None;
                                    Agent.q_filters :=
                                      [Agent.FilterIn "table_id" (map table_id rows)] |}))
                           row
                         = Agent.Resolved x) rows out)
  /\ (forall out,
        Agent.searchTextVectors Row RegulationResult supabase regulation_result embedding
        = Agent.Resolved out
        <-> Agent.error (supabase (Agent.text_chunk_query embedding)) = None
            /\ exists rows,
                 Agent.data (supabase (Agent.text_chunk_query embedding)) = Some rows
                 /\ out = map regulation_result rows).
Proof.
  split; [|split]; intros out; split.
  - unfold Agent.searchFigureVectors.
    destruct (Agent.error _); [discriminate|]. intros Hres. split; [reflexivity|].
    now apply AgentFacts.map_data_resolved.
  - unfold Agent.searchFigureVectors. intros (-> & Hrows).
    now apply AgentFacts.map_data_resolved.
  - unfold Agent.searchTableVectors.
    destruct (Agent.error _); [discriminate|]. intros Hres. split; [reflexivity|].
    destruct (Agent.data (supabase (Agent.table_vector_query embedding))) as [rows|];
      [|discriminate].
    exists rows. split; [reflexivity|].
    cbn [Agent.map_data Agent.then_] in Hres.
    assert (Hids : Agent.map_rows (fun row => Agent.Resolved (table_id row)) rows
                   = Agent.Resolved (map table_id rows))
      by now apply AgentFacts.map_rows_resolved, AgentFacts.Forall2_map_r.
    rewrite Hids in Hres. cbn [Agent.then_] in Hres.
    now apply AgentFacts.map_rows_resolved.
  - unfold Agent.searchTableVectors. intros (-> & rows & -> & Hall).
    cbn [Agent.map_data Agent.then_].
    assert (Hids : Agent.map_rows (fun row => Agent.Resolved (table_id row)) rows
                   = Agent.Resolved (map table_id rows))
      by now apply AgentFacts.map_rows_resolved, AgentFacts.Forall2_map_r.
    rewrite Hids. cbn [Agent.then_]. now apply AgentFacts.map_rows_resolved.
  - unfold Agent.searchTextVectors.
    destruct (Agent.error _); [discriminate|]. intros Hres. split; [reflexivity|].
    apply AgentFacts.map_data_resolved in Hres as (rows & Hd & Hall).
    exists rows. split; [exact Hd|]. now apply AgentFacts.Forall2_map_r.
  - unfold Agent.searchTextVectors. intros (-> & rows & Hd & ->).
    apply AgentFacts.map_data_resolved. exists rows. split; [exact Hd|].
    now apply AgentFacts.Forall2_map_r.
Qed.


(** ** The rows of [hybrid_search_fm_global] and the stored chunks *)

(** X22: In [sql/fix_fm_functions.sql], with unique chunk identifiers,
    every fused row of [hybrid_search_fm_global] carries a stored chunk:
    its content, source type, source identifier and metadata are those of
    the chunk with its identifier, whether the row came from the vector
    candidates, the lexical candidates or both. *)
Theorem hybrid_rows_carry_stored_chunks `{TextSearch.Operators}
  (db : FixFm.database) (query_embedding : Pg.vector) (query_text : string)
  (text_weight : Q) (filter_asrs_type : option string) (n : N)
  (vrs : list FixFm.vector_results_row) (trs : list FixFm.text_results_row)
  (c : FixFm.combined_row) :
  NoDup (map FixFm.v_id (FixFm.fm_global_vectors db)) ->
  FixFm.vector_results db query_embedding filter_asrs_type n vrs ->
  FixFm.text_results db query_text filter_asrs_type n trs ->
  In c (FixFm.combined text_weight vrs trs) ->
  exists v, In v (FixFm.fm_global_vectors db)
    /\ FixFm.c_vector_id c = FixFm.v_id v
    /\ FixFm.c_content c = FixFm.v_content v
    /\ FixFm.c_source_type c = FixFm.v_content_type v
    /\ FixFm.c_source_id c = FixFm.v_content_id v
    /\ FixFm.c_metadata c = FixFm.v_metadata v.
Proof.
  intros Hkeys Hv Ht Hin.
  unfold FixFm.combined in Hin. apply in_map_iff in Hin as [j [<- Hj]].
  apply PgFacts.full_outer_join_In in Hj.
  destruct j as [l t|l|t].
  - destruct Hj as (Hl & Htr & Hon).
    destruct (FixFmFacts.vector_results_In _ _ _ _ _ _ Hv Hl) as (jl & Hjl & _ & ->).
    destruct (FixFmFacts.text_results_In _ _ _ _ _ _ Ht Htr) as (jt & Hjt & _ & _ & ->).
    apply FixFmFacts.from_clause_In in Hjl, Hjt.
    apply FixFmFacts.on_id_key in Hon. simpl in Hon.
    pose proof (MoreFacts.NoDup_map_same FixFm.v_id _ _ _ Hkeys Hjl Hjt Hon) as Hsame.
    exists (FixFm.src_v jl). split; [exact Hjl|]. simpl. rewrite <- Hsame.
    repeat split.
    + now destruct (FixFm.v_content_id (FixFm.src_v jl)).
    + now destruct (FixFm.v_metadata (FixFm.src_v jl)).
  - destruct Hj as (Hl & _).
    destruct (FixFmFacts.vector_results_In _ _ _ _ _ _ Hv Hl) as (jl & Hjl & _ & ->).
    apply FixFmFacts.from_clause_In in Hjl.
    exists (FixFm.src_v jl). split; [exact Hjl|]. simpl. repeat split.
    + now destruct (FixFm.v_content_id (FixFm.src_v jl)).
    + now destruct (FixFm.v_metadata (FixFm.src_v jl)).
  - destruct Hj as (Htr & _).
    destruct (FixFmFacts.text_results_In _ _ _ _ _ _ Ht Htr) as (jt & Hjt & _ & _ & ->).
    apply FixFmFacts.from_clause_In in Hjt.
    exists (FixFm.src_v jt). split; [exact Hjt|]. simpl. repeat split.
Qed.

Lemma hybrid_rows_carry_stored_chunks_witness :
  let vrs := FixFm.vector_results_exec (H := Fixture.ops) Fixture.store (Fixture.axis 0)
               None 10 in
  let trs := FixFm.text_results_exec (H := Fixture.ops) Fixture.store "aisle" None 10 in
  match FixFm.combined (3 # 10) vrs trs with
  | c :: _ =>
      exists v, In v (FixFm.fm_global_vectors Fixture.store)
        /\ FixFm.c_vector_id c = FixFm.v_id v
        /\ FixFm.c_content c = FixFm.v_content v
  | [] => False
  end.
Proof.
  intros vrs trs.
  destruct (FixFm.combined (3 # 10) vrs trs) as [|c rest] eqn:E;
    [vm_compute in E; discriminate E|].
  assert (Hkeys : NoDup (map FixFm.v_id (FixFm.fm_global_vectors Fixture.store)))
    by distinct_ids.
  destruct (@hybrid_rows_carry_stored_chunks Fixture.ops Fixture.store (Fixture.axis 0)
              "aisle"%string (3 # 10) None 10%N vrs trs c Hkeys
              (FixFmFacts.vector_results_exec_admissible _ _ _ _)
              (FixFmFacts.text_results_exec_admissible _ _ _ _)
              ltac:(rewrite E; now left)) as (v & Hv & Hid & Hcontent & _).
  exists v. split; [exact Hv|]. split; [exact Hid|exact Hcontent].
Defined.
